(** * disloPy: Peierls-Nabarro control and GSF extraction

    A shallow embedding of the parts of [pyDis/pn/read_gsf.py] and
    [pyDis/pn/_pn_control.py] that repair energy grids, resolve the
    namelist parameters, select the elasticity mode and guard the
    dimensionality of the GSF grid, with the properties proved of them;
    and of [main] and [get_gsf_energy] as a whole, [control_file],
    [pyDis/pn/slab_impurity.py] and [read_file] of
    [pyDis/atomic/atomistic_utils.py].

    Conventions.
    - A Python [float] or [numpy.float64] is an IEEE-754 binary64 number,
      modelled by [spec_float] at precision 53 and maximal exponent 1024.
    - A Python exception is a value of [exn]; a computation that may raise
      has type [result A].
    - A one-dimensional numpy array is a [list float], a two-dimensional one
      a list of rows; a Python [dict] with string keys is a [gmap string].
    - Both modules are Python 2 sources ([xrange], the [print] statement). *)

From Stdlib Require Import ZArith Lia Bool Ascii String List DecimalString.
From Stdlib Require Import Floats.SpecFloat Sorting.Sorted.
From stdpp Require Import base option list list_numbers gmap strings.

Local Open Scope string_scope.
Local Open Scope list_scope.
Local Open Scope Z_scope.

(* ===================================================================== *)
(** * Exceptions and results *)
(* ===================================================================== *)

(** The exceptions the modelled code raises, or lets escape.  [Unmodelled]
    is the answer of the reference runtime (modules [Py27] and [Py27Eval])
    and of the comparisons of arrays outside the fragment of Python that is
    covered; no theorem depends on it. *)
Inductive exn : Type :=
  | ValueError (msg : string)
  | KeyError (key : string)
  | AttributeError (msg : string)
  | NameError (name : string)
  | UnboundLocalError (name : string)
  | ZeroDivisionError
  | IndexError
  | TypeError
  | IOError (file : string)
  | Unmodelled (what : string).

Inductive result (A : Type) : Type :=
  | Ok (a : A)
  | Raise (e : exn).
Arguments Ok {A} a.
Arguments Raise {A} e.

(** Sequencing, written [x ← r; k] below. *)
#[global] Instance result_bind : MBind result :=
  fun A B (k : A -> result B) (r : result A) =>
    match r with
    | Ok a => k a
    | Raise e => Raise e
    end.

(** [for x in xs: body], threading the state and stopping at the first
    exception. *)
Fixpoint for_each {S X : Type} (body : S -> X -> result S) (xs : list X) (s : S)
  : result S :=
  match xs with
  | [] => Ok s
  | x :: xs' => s' ← body s x; for_each body xs' s'
  end.

Definition is_Ok {A : Type} (r : result A) : bool :=
  match r with Ok _ => true | Raise _ => false end.

(** Python's [a % b] on integers: the remainder has the sign of [b], and a
    zero modulus raises. *)
Definition py_mod (a b : Z) : result Z :=
  if b =? 0 then Raise ZeroDivisionError else Ok (a mod b).

(** [range(n)] and [xrange(n)]. *)
Definition range (n : Z) : list Z := seqZ 0 n.

(* ===================================================================== *)
(** * Binary64 floating point *)
(* ===================================================================== *)

Module F.

Definition prec : Z := 53.
Definition emax : Z := 1024.

Definition float : Type := spec_float.

Definition nan : float := S754_nan.
Definition add : float -> float -> float := SFadd prec emax.
Definition sub : float -> float -> float := SFsub prec emax.
Definition mul : float -> float -> float := SFmul prec emax.
Definition div : float -> float -> float := SFdiv prec emax.
Definition ltb : float -> float -> bool := SFltb.
Definition eqb : float -> float -> bool := SFeqb.

(** Python's [x != y] on floats: true when unordered. *)
Definition neb (x y : float) : bool := negb (SFeqb x y).

(** Conversion of a Python [int], rounding to nearest even. *)
Definition of_Z (z : Z) : float := binary_normalize prec emax z 0 false.

Definition zero : float := S754_zero false.
Definition one : float := Eval vm_compute in of_Z 1.
Definition half : float := Eval vm_compute in div (of_Z 1) (of_Z 2).

Definition is_nan (x : float) : bool :=
  match x with S754_nan => true | _ => false end.

(** Finite or not-a-number: everything but the two infinities. *)
Definition no_inf (x : float) : bool :=
  match x with S754_infinity _ => false | _ => true end.

End F.

Abbreviation float := F.float.

#[global] Arguments F.add : simpl never.
#[global] Arguments F.sub : simpl never.
#[global] Arguments F.mul : simpl never.
#[global] Arguments F.div : simpl never.
#[global] Arguments F.of_Z : simpl never.
#[global] Arguments F.neb : simpl never.
#[global] Arguments F.ltb : simpl never.

(* ===================================================================== *)
(** * numpy arrays *)
(* ===================================================================== *)

(** [a[i]] on a one-dimensional array of length [n]: indices [-n .. -1]
    count from the end, anything outside [-n .. n-1] raises. *)
Definition norm_index (n : nat) (i : Z) : result nat :=
  if (0 <=? i) && (i <? Z.of_nat n) then Ok (Z.to_nat i)
  else if (- Z.of_nat n <=? i) && (i <? 0) then Ok (Z.to_nat (Z.of_nat n + i))
  else Raise IndexError.

Definition getitem {A : Type} (a : list A) (i : Z) : result A :=
  k ← norm_index (length a) i;
  match a !! k with
  | Some x => Ok x
  | None => Raise IndexError
  end.

Definition setitem {A : Type} (a : list A) (i : Z) (x : A) : result (list A) :=
  k ← norm_index (length a) i;
  Ok (<[k := x]> a).

(** [a[i, j]] on a two-dimensional array. *)
Definition getitem2 {A : Type} (a : list (list A)) (i j : Z) : result A :=
  row ← getitem a i; getitem row j.

Definition setitem2 {A : Type} (a : list (list A)) (i j : Z) (x : A)
  : result (list (list A)) :=
  row ← getitem a i;
  row' ← setitem row j x;
  setitem a i row'.

(* ===================================================================== *)
(** * read_gsf.py: repair of the energy grid *)
(* ===================================================================== *)

(** What [main] prints and writes while it repairs a grid.  A record keeps
    the arguments of the call; the text formatting is not modelled. *)
Inductive event : Type :=
  | WriteLine1 (i : Z) (e : float)          (* outstream.write("{} {:.6f}\n") *)
  | WriteLine2 (i j : Z) (e : float)        (* outstream.write("{} {} {:.6f}\n") *)
  | WriteBlank                              (* outstream.write("\n") *)
  | PrintWarning                            (* print("Warning: no real neighbours.") *)
  | PrintRepaired (i j : Z) (e : float)     (* print("({}, {}): {:.2f}") *)
  | PrintEnergy (e : float).                (* print(energies[i, j]) *)

Definition too_many_nan : exn := ValueError "Too many NaN values.".

(** ** The gamma line, [main] lines 134-146 *)

Definition gamma_line_body (x_max : Z) (st : list float * list event) (i : Z)
  : result (list float * list event) :=
  let '(energies, out) := st in
  ei ← getitem energies i;
  ei' ← getitem energies i;
  energies ←
    (if F.neb ei ei' then
       (* nan value; average values before and after *)
       a ← py_mod (i - 1) (x_max + 1);
       ea ← getitem energies a;
       b ← py_mod (i + 1) (x_max + 1);
       eb ← getitem energies b;
       energies ← setitem energies i (F.mul F.half (F.add ea eb));
       ei ← getitem energies i;
       ei' ← getitem energies i;
       if F.neb ei ei' then Raise too_many_nan else Ok energies
     else Ok energies);
  ei ← getitem energies i;
  Ok (energies, out ++ [WriteLine1 i ei]).

Definition gamma_line_repair (x_max : Z) (energies : list float)
  : result (list float * list event) :=
  _ ← getitem energies 0;                       (* E_perfect = energies[0] *)
  for_each (gamma_line_body x_max) (range (x_max + 1)) (energies, []).

(** ** The gamma surface, [main] lines 159-193 *)

(** The out-of-band value given to a cell without real neighbours. *)
Definition sentinel : float := Eval vm_compute in F.of_Z (-10000).

(** The four [signature]s of cell [(i, j)], in the order of the source.
    Python builds the whole list before the loop over it starts, so a zero
    [x_max] or [y_max] raises here. *)
Definition signatures (x_max y_max i j : Z) : result (list (Z * Z)) :=
  up ← py_mod (i + 1) x_max;
  down ← py_mod (i - 1) x_max;
  right ← py_mod (j + 1) y_max;
  left ← py_mod (j - 1) y_max;
  Ok [(up, j); (down, j); (i, right); (i, left)].

(** One pass of [for signature in ...]: a neighbour that is not-a-number, or
    lower than [E_perfect - 1.], is passed over. *)
Definition neighbour_body (energies : list (list float)) (E_perfect : float)
    (acc : float * Z) (signature : Z * Z) : result (float * Z) :=
  let '(approx_energy, num_real) := acc in
  e ← getitem2 energies signature.1 signature.2;
  e' ← getitem2 energies signature.1 signature.2;
  if F.neb e e' then Ok (approx_energy, num_real)
  else
    e ← getitem2 energies signature.1 signature.2;
    if F.ltb e (F.sub E_perfect F.one) then Ok (approx_energy, num_real)
    else
      e ← getitem2 energies signature.1 signature.2;
      Ok (F.add approx_energy e, num_real + 1).

(** The test of line 163; [or] does not evaluate its right operand when the
    left one holds. *)
Definition needs_repair (energies : list (list float)) (E_perfect : float)
    (i j : Z) : result bool :=
  e ← getitem2 energies i j;
  e' ← getitem2 energies i j;
  if F.neb e e' then Ok true
  else
    e ← getitem2 energies i j;
    Ok (F.ltb e (F.sub E_perfect F.one)).

Definition gamma_surface_cell (x_max y_max : Z) (E_perfect : float) (i : Z)
    (st : list (list float) * list event) (j : Z)
  : result (list (list float) * list event) :=
  let '(energies, out) := st in
  bad ← needs_repair energies E_perfect i j;
  '(energies, out) ←
    (if bad : bool then
       (* average neighbouring energies, excluding nan values *)
       sigs ← signatures x_max y_max i j;
       '(approx_energy, num_real) ←
         for_each (neighbour_body energies E_perfect) sigs (F.zero, 0);
       '(energies, out) ←
         (if num_real =? 0 then
            energies ← setitem2 energies i j sentinel;
            Ok (energies, out ++ [PrintWarning])
          else
            energies ← setitem2 energies i j
                         (F.div approx_energy (F.of_Z num_real));
            Ok (energies, out));
       e ← getitem2 energies i j;
       Ok (energies, out ++ [PrintRepaired i j e])
     else Ok (energies, out));
  e ← getitem2 energies i j;
  e' ← getitem2 energies i j;
  Ok (energies, out ++ [PrintEnergy e; WriteLine2 i j e']).

Definition gamma_surface_row (x_max y_max : Z) (E_perfect : float)
    (st : list (list float) * list event) (i : Z)
  : result (list (list float) * list event) :=
  '(energies, out) ←
    for_each (gamma_surface_cell x_max y_max E_perfect i) (range (y_max + 1)) st;
  (* include a space between slices of constant x (for gnuplot) *)
  Ok (energies, out ++ [WriteBlank]).

Definition gamma_surface_repair (x_max y_max : Z) (energies : list (list float))
  : result (list (list float) * list event) :=
  E_perfect ← getitem2 energies 0 0;
  for_each (gamma_surface_row x_max y_max E_perfect) (range (x_max + 1))
           (energies, []).

(* ===================================================================== *)
(** * Strings and regular expressions *)
(* ===================================================================== *)

(** [sub in s]. *)
Fixpoint is_prefix (p s : string) : bool :=
  match p, s with
  | EmptyString, _ => true
  | String a p', String b s' => if Ascii.eqb a b then is_prefix p' s' else false
  | String _ _, EmptyString => false
  end.

Fixpoint contains (sub s : string) : bool :=
  if is_prefix sub s then true
  else match s with
       | EmptyString => false
       | String _ s' => contains sub s'
       end.

(** [s.lower()] on a byte string. *)
Definition lower_ascii (c : ascii) : ascii :=
  let n := nat_of_ascii c in
  if ((65 <=? n) && (n <=? 90))%nat then ascii_of_nat (n + 32) else c.

Fixpoint lower (s : string) : string :=
  match s with
  | EmptyString => EmptyString
  | String c s' => String (lower_ascii c) (lower s')
  end.

(** The longest prefix of [s] made of characters of a class, and what
    follows it. *)
Fixpoint span (cls : ascii -> bool) (s : string) : string * string :=
  match s with
  | String c s' =>
      if cls c then let '(d, r) := span cls s' in (String c d, r)
      else (EmptyString, s)
  | EmptyString => (EmptyString, EmptyString)
  end.

(** All characters of [s] are in the class; [s] does not start with one. *)
Fixpoint every (cls : ascii -> bool) (s : string) : bool :=
  match s with
  | String c s' => cls c && every cls s'
  | EmptyString => true
  end.

Definition ends_run (cls : ascii -> bool) (s : string) : bool :=
  match s with
  | String c _ => negb (cls c)
  | EmptyString => true
  end.

(** The first [n] characters of [s]. *)
Fixpoint take_string (n : nat) (s : string) : string :=
  match n, s with
  | S n', String c s' => String c (take_string n' s')
  | _, _ => EmptyString
  end.

Module Re.

(** Character classes of the patterns in the sources; without the
    [LOCALE] and [UNICODE] flags they are the ASCII ones. *)
Definition code (c : ascii) : nat := nat_of_ascii c.

Definition digit (c : ascii) : bool :=
  ((48 <=? code c) && (code c <=? 57))%nat.                       (* \d *)
Definition space (c : ascii) : bool :=
  ((code c =? 32) || ((9 <=? code c) && (code c <=? 13)))%nat.    (* \s *)
Definition word (c : ascii) : bool :=
  (digit c
   || ((65 <=? code c) && (code c <=? 90))
   || ((97 <=? code c) && (code c <=? 122))
   || (code c =? 95))%nat.                                         (* \w *)
Definition non_space (c : ascii) : bool := negb (space c).        (* [^\s] *)
Definition dot (c : ascii) : bool := negb (code c =? 10)%nat.     (* . *)
Definition only (a : ascii) (c : ascii) : bool := Ascii.eqb a c.

(** The patterns of the sources repeat single characters and classes
    only, so a quantifier carries a class. *)
Inductive re : Type :=
  | Eps
  | Lit (c : ascii)
  | Many (min : nat) (cls : ascii -> bool)   (* cls*  cls+ , greedy *)
  | Opt (cls : ascii -> bool)                (* cls? , greedy *)
  | Seq (r1 r2 : re)
  | Group (name : string) (r : re).          (* (?P<name>r) *)

Fixpoint lit (s : string) : re :=
  match s with
  | EmptyString => Eps
  | String c s' => Seq (Lit c) (lit s')
  end.

Fixpoint seq (rs : list re) : re :=
  match rs with
  | [] => Eps
  | r :: rs' => Seq r (seq rs')
  end.

Definition star := Many 0.
Definition plus := Many 1.

(** The groups of a match, the last binding of a name first. *)
Definition groups : Type := list (string * string).

Fixpoint group (name : string) (g : groups) : option string :=
  match g with
  | [] => None
  | (n, v) :: g' => if String.eqb n name then Some v else group name g'
  end.

Section Matcher.
Context {R : Type}.

(** Greedy repetition with backtracking: the longest run first. *)
Fixpoint many (cls : ascii -> bool) (min : nat)
    (k : string -> groups -> option R) (s : string) (g : groups) : option R :=
  let stop := match min with O => k s g | S _ => None end in
  match s with
  | EmptyString => stop
  | String c s' =>
      if cls c then
        match many cls (Nat.pred min) k s' g with
        | Some x => Some x
        | None => stop
        end
      else stop
  end.

Fixpoint run (r : re) (k : string -> groups -> option R) (s : string)
    (g : groups) : option R :=
  match r with
  | Eps => k s g
  | Lit c =>
      match s with
      | String c' s' => if Ascii.eqb c c' then k s' g else None
      | EmptyString => None
      end
  | Many min cls => many cls min k s g
  | Opt cls =>
      match s with
      | String c s' =>
          if cls c then
            match k s' g with Some x => Some x | None => k s g end
          else k s g
      | EmptyString => k s g
      end
  | Seq r1 r2 => run r1 (run r2 k) s g
  | Group name r' =>
      run r' (fun s' g' =>
                k s' ((name, take_string (String.length s - String.length s') s)
                        :: g')) s g
  end.
End Matcher.

(** A match of [r] at the start of [s]: the matched text, the groups and
    what follows. *)
Definition match_here (r : re) (s : string) : option (string * groups * string) :=
  run r (fun s' g =>
           Some (take_string (String.length s - String.length s') s, g, s')) s [].

(** [re.search]: the leftmost match. *)
Fixpoint search (r : re) (s : string) : option (string * groups * string) :=
  match match_here r s with
  | Some m => Some m
  | None =>
      match s with
      | EmptyString => None
      | String _ s' => search r s'
      end
  end.

(** [re.finditer]: the successive non-overlapping matches, left to
    right; after an empty match the scan moves on by one character. *)
Fixpoint finditer_fuel (fuel : nat) (r : re) (s : string)
  : list (string * groups) :=
  match fuel with
  | O => []
  | S fuel' =>
      match search r s with
      | None => []
      | Some (text, g, rest) =>
          match text, rest with
          | EmptyString, EmptyString => [(text, g)]
          | EmptyString, String _ rest' =>
              (text, g) :: finditer_fuel fuel' r rest'
          | _, _ => (text, g) :: finditer_fuel fuel' r rest
          end
      end
  end.

Definition finditer (r : re) (s : string) : list (string * groups) :=
  finditer_fuel (S (String.length s)) r s.

End Re.

(* ===================================================================== *)
(** * Python values and the runtime *)
(* ===================================================================== *)

(** The values a card can hold. *)
Inductive pyval : Type :=
  | VNone
  | VBool (b : bool)
  | VInt (n : Z)
  | VFloat (x : float)
  | VStr (s : string)
  | VArray (xs : list float)          (* a one-dimensional numpy array *)
  | VObject (tag : string).           (* any other object, opaque *)

Definition is_None (v : pyval) : bool :=
  match v with VNone => true | _ => false end.

(** The control dictionary: namelist name, then card name. *)
Abbreviation namelist_dict := (gmap string pyval).
Abbreviation pdict := (gmap string (gmap string pyval)).

(** What [eval] can see: the dictionary and the local variables of the
    function that calls it. *)
Record frame : Type := Frame {
  f_top_dict : pdict;
  f_locals : list (string * pyval)
}.

(** The builtins and library functions the sources call and do not
    define.  [py_eval] is taken to be free of side effects: the expressions
    it is given are arithmetic over one bound variable. *)
Record runtime : Type := Runtime {
  py_float : string -> result float;          (* float(s) *)
  py_int : string -> result Z;                (* int(s) *)
  py_format : pyval -> result string;         (* '{}'.format(v) *)
  py_eval : frame -> string -> result pyval;  (* eval(s) *)
  readCij : string -> result pyval            (* aniso.readCij(s) *)
}.

(** [d[namelist][card]]. *)
Definition lookup2 (d : pdict) (namelist card : string) : result pyval :=
  match d !! namelist with
  | None => Raise (KeyError namelist)
  | Some nl =>
      match nl !! card with
      | None => Raise (KeyError card)
      | Some v => Ok v
      end
  end.

(** [d[namelist][card] = v]. *)
Definition store2 (d : pdict) (namelist card : string) (v : pyval)
  : result pdict :=
  match d !! namelist with
  | None => Raise (KeyError namelist)
  | Some nl => Ok (<[namelist := <[card := v]> nl]> d)
  end.

(* ===================================================================== *)
(** * _pn_control.py: resolution of the control dictionary *)
(* ===================================================================== *)

Import Re.

(** The pattern [map_form] of [from_mapping]. *)
Definition map_form : re :=
  seq [ star space; lit "map"; plus space;
        Group "namelist" (plus non_space); star space; Lit ">"; star space;
        Group "val" (plus dot); Lit ":";
        star space; Group "var" (plus word); star space; lit "->"; star space;
        Group "expr" (star dot) ].

Definition no_group : exn :=
  AttributeError "'NoneType' object has no attribute 'group'".

(** [m.group(name)] on the result of [re.search]. *)
Definition group_of (m : option (string * groups * string)) (name : string)
  : result string :=
  match m with
  | None => Raise no_group
  | Some (_, g, _) =>
      match group name g with
      | Some v => Ok v
      | None => Raise IndexError
      end
  end.

(** A string operation applied to a value that is not a string. *)
Definition as_str (v : pyval) : result string :=
  match v with
  | VStr s => Ok s
  | _ => Raise TypeError
  end.

Section Resolver.

Variable rt : runtime.

Definition from_mapping (top_dict : pdict) (namelist card : string)
  : result pdict :=
  v ← lookup2 top_dict namelist card;
  in_str ← as_str v;
  let found_map := search map_form in_str in
  (* construct the mapping from <val> -> <var> *)
  var ← group_of found_map "var";
  expr ← group_of found_map "expr";
  let new_func := ("lambda " ++ var ++ ": " ++ expr)%string in
  nl ← group_of found_map "namelist";
  val ← group_of found_map "val";
  input_value ← lookup2 top_dict nl val;
  (* evaluate function using the provided value *)
  let locals := [ ("top_dict", VObject "dict"); ("namelist", VStr namelist);
                  ("card", VStr card); ("map_form", VObject "pattern");
                  ("in_str", VStr in_str); ("found_map", VObject "match");
                  ("new_func", VStr new_func); ("input_value", input_value) ] in
  text ← py_format rt input_value;
  val ← py_eval rt (Frame top_dict locals)
          ("(" ++ new_func ++ ")(" ++ text ++ ")")%string;
  store2 top_dict namelist card val.

(** [to_bool]. *)
Definition to_bool (in_str : string) : result pyval :=
  if String.eqb in_str "True" then Ok (VBool true)
  else if String.eqb in_str "False" then Ok (VBool false)
  else Raise (ValueError (in_str ++ " is not a boolean value.")%string).

(** The pattern of [to_vector]. *)
Definition number : re :=
  seq [ Opt (only "-"); plus digit; Opt (only "."); star digit ].

Fixpoint floats_of (tokens : list string) : result (list float) :=
  match tokens with
  | [] => Ok []
  | t :: ts => x ← py_float rt t; xs ← floats_of ts; Ok (x :: xs)
  end.

Definition to_vector (in_str : string) : result pyval :=
  new_vec ← floats_of (map fst (finditer number in_str));
  Ok (VArray new_vec).

(** The values of the ['type'] entry of a card. *)
Inductive card_type : Type :=
  | T_str | T_int | T_float | T_to_bool | T_to_vector | T_readCij.

Definition convert (new_type : card_type) (s : string) : result pyval :=
  match new_type with
  | T_str => Ok (VStr s)
  | T_int => n ← py_int rt s; Ok (VInt n)
  | T_float => x ← py_float rt s; Ok (VFloat x)
  | T_to_bool => to_bool s
  | T_to_vector => to_vector s
  | T_readCij => readCij rt s
  end.

Definition change_type (top_dict : pdict) (namelist card : string)
    (new_type : card_type) : result pdict :=
  v ← lookup2 top_dict namelist card;
  s ← as_str v;
  match convert new_type s with
  | Ok v' => store2 top_dict namelist card v'
  | Raise (ValueError _) =>
      (* test to see if np.e or np.pi in input *)
      if contains "np.pi" s || contains "np.e" s then
        let locals := [ ("top_dict", VObject "dict"); ("namelist", VStr namelist);
                        ("card", VStr card); ("new_type", VObject "type") ] in
        v' ← py_eval rt (Frame top_dict locals) s;
        store2 top_dict namelist card v'
      else Ok top_dict
  | Raise e => Raise e
  end.

Definition change_or_map (param_dict : pdict) (namelist card : string)
    (new_type : card_type) : result pdict :=
  (* check that value is defined *)
  match lookup2 param_dict namelist card with
  | Raise (KeyError _) => Raise (ValueError "")
  | Raise e => Raise e
  | Ok x =>
      s ← as_str x;
      if contains "map" s then from_mapping param_dict namelist card
      else change_type param_dict namelist card new_type
  end.

End Resolver.

(** ** The card tables of [handle_pn_control] *)

(** A card: its name, its ['default'] and its ['type'].  A default of
    [VNone] marks a card as mission critical. *)
Record card : Type := Card {
  c_name : string;
  c_default : pyval;
  c_type : card_type
}.

Definition a_mapping : pyval := VStr "map struc > a: x -> x".
Definition b_mapping : pyval := VStr "map struc > b: x -> x".

(** [np.pi/2], [0.0005] and the unit vectors. *)
Definition half_pi : float := S754_finite false 7074237752028440 (-52).
Definition dtau_default : float :=
  Eval vm_compute in F.div (F.of_Z 5) (F.of_Z 10000).
Definition unit_x : list float := [F.one; F.zero; F.zero].
Definition unit_y : list float := [F.zero; F.one; F.zero].
Definition unit_z : list float := [F.zero; F.zero; F.one].

Definition control_cards : list card :=
  [ Card "gsf_file" VNone T_str;
    Card "output" (VStr "pyDisPN.out") T_str;
    Card "title_line" (VStr "Peierls-Nabarro model") T_str;
    Card "n_iter" (VInt 1) T_int;
    Card "dimensions" (VInt 2) T_int;
    Card "max_x" (VInt 100) T_int;
    Card "n_funcs" (VFloat F.nan) T_int;
    Card "disl_type" (VStr "edge") T_str;
    Card "use_sym" (VBool true) T_to_bool;
    Card "plot" (VBool false) T_to_bool;
    Card "plot_name" (VStr "pn_plot.tif") T_str;
    Card "plot_both" (VBool false) T_to_bool;
    Card "record" (VBool true) T_to_bool;
    Card "nplanes" (VInt 30) T_int;
    Card "noisy" (VBool false) T_to_bool;
    Card "parameters" (VArray []) T_to_vector ].

Definition struc_cards : list card :=
  [ Card "a" VNone T_float;
    Card "b" a_mapping T_float;
    Card "burgers" a_mapping T_float;
    Card "spacing" a_mapping T_float ].

Definition elast_cards : list card :=
  [ Card "bulk" VNone T_float;
    Card "shear" VNone T_float;
    Card "poisson" VNone T_float;
    Card "k_parallel" VNone T_float;
    Card "k_normal" (VFloat F.nan) T_float;
    Card "cij" VNone T_readCij;
    Card "b_edge" (VArray unit_x) T_to_vector;
    Card "b_screw" (VArray unit_z) T_to_vector;
    Card "normal" (VArray unit_y) T_to_vector;
    Card "in_gpa" (VBool true) T_to_bool ].

Definition surf_cards : list card :=
  [ Card "x_length" a_mapping T_float;
    Card "y_length" b_mapping T_float;
    Card "angle" (VFloat half_pi) T_float;
    Card "map_ux" (VStr "remap: (ux, uy) -> ux") T_str;
    Card "map_uy" (VStr "remap: (ux, uy) -> uy") T_str;
    Card "gamma_shift" (VFloat F.zero) T_float;
    Card "has_vacuum" (VBool false) T_to_bool;
    Card "do_fourier" (VBool false) T_to_bool;
    Card "fourier_N" (VInt 2) T_int ].

Definition prop_cards : list card :=
  [ Card "max_rho" (VBool false) T_to_bool;
    Card "width" (VBool false) T_to_bool ].

Definition stress_cards : list card :=
  [ Card "calculate_stress" (VBool true) T_to_bool;
    Card "dtau" (VFloat dtau_default) T_float;
    Card "use_GPa" (VBool true) T_to_bool;
    Card "threshold" (VFloat F.half) T_float ].

(** The list of valid namelists, and the card table of each, in the order
    of the [enumerate] of line 223. *)
Definition namelists : list string :=
  [ "control"; "struc"; "elast"; "surface"; "properties"; "stress" ].

Definition schema : list (string * list card) :=
  [ ("control", control_cards); ("struc", struc_cards); ("elast", elast_cards);
    ("surface", surf_cards); ("properties", prop_cards);
    ("stress", stress_cards) ].

Definition mission_critical (name : string) : exn :=
  ValueError ("No value supplied for mission-critical variable " ++ name ++ ".")%string.

Definition no_elastic_properties : exn :=
  AttributeError "No elastic properties have been provided.".

Section Control.

Variable rt : runtime.

(** Lines 217-219: a namelist that the control file lacks is added, empty. *)
Definition add_namelist (param_dict : pdict) (name : string) : result pdict :=
  match param_dict !! name with
  | None => Ok (<[name := ∅]> param_dict)
  | Some _ => Ok param_dict
  end.

(** Lines 230-242: one card of a namelist other than [elast]. *)
Definition handle_card (namelist : string) (param_dict : pdict) (var : card)
  : result pdict :=
  match change_or_map rt param_dict namelist (c_name var) (c_type var) with
  | Raise (ValueError _) =>
      let default_val := c_default var in
      (* test to see if variable is "mission-critical" *)
      if is_None default_val then Raise (mission_critical (c_name var))
      else
        param_dict ← store2 param_dict namelist (c_name var) default_val;
        (* if <default_val> is a mapping, needs to be evaluated *)
        match default_val with
        | VStr s =>
            if contains "map" s then from_mapping rt param_dict namelist (c_name var)
            else Ok param_dict
        | _ => Ok param_dict
        end
  | r => r
  end.

(** Lines 223-242. *)
Definition handle_namelist (param_dict : pdict) (entry : string * list card)
  : result pdict :=
  let '(name, cards) := entry in
  if String.eqb name "elast" then
    (* handle the elastic parameters later *)
    Ok param_dict
  else for_each (handle_card name) cards param_dict.

(** Lines 245-249: a card of [elast] takes its default, [None] included. *)
Definition handle_elast_card (param_dict : pdict) (var : card) : result pdict :=
  match change_or_map rt param_dict "elast" (c_name var) (c_type var) with
  | Raise (ValueError _) => store2 param_dict "elast" (c_name var) (c_default var)
  | r => r
  end.

(** Lines 254-269.  [x != None] is taken to hold of every value but
    [None]. *)
Definition select_coefficients (param_dict : pdict) : result pdict :=
  k_parallel ← lookup2 param_dict "elast" "k_parallel";
  if negb (is_None k_parallel) then
    store2 param_dict "elast" "coefficients" (VStr "specific")
  else
    cij ← lookup2 param_dict "elast" "cij";
    if negb (is_None cij) then
      (* if an elastic constants tensor is given, use anisotropic elasticity *)
      store2 param_dict "elast" "coefficients" (VStr "aniso")
    else
      shear ← lookup2 param_dict "elast" "shear";
      if negb (is_None shear) then
        poisson ← lookup2 param_dict "elast" "poisson";
        if negb (is_None poisson) then
          store2 param_dict "elast" "coefficients" (VStr "iso_nu")
        else
          bulk ← lookup2 param_dict "elast" "bulk";
          if negb (is_None bulk) then
            store2 param_dict "elast" "coefficients" (VStr "iso_bulk")
          else Raise no_elastic_properties
      else Raise no_elastic_properties.

Definition handle_pn_control (param_dict : pdict) : result pdict :=
  param_dict ← for_each add_namelist namelists param_dict;
  param_dict ← for_each handle_namelist schema param_dict;
  param_dict ← for_each handle_elast_card elast_cards param_dict;
  select_coefficients param_dict.

End Control.

(* ===================================================================== *)
(** * A reference runtime *)
(* ===================================================================== *)

(** CPython 2.7 on the fragment the examples below need: [float] and [int]
    of a string, [str] of a float (twelve significant digits), and [eval]
    of an atom or of an identity-like lambda applied to an atom.  Outside
    the fragment the functions answer [Unmodelled]. *)
Module Py27.

Definition str_of_Z (z : Z) : string := NilZero.string_of_int (Z.to_int z).

Fixpoint lstrip (s : string) : string :=
  match s with
  | String c s' => if space c then lstrip s' else s
  | EmptyString => s
  end.

Definition reverse (s : string) : string :=
  string_of_list_ascii (rev (list_ascii_of_string s)).

Definition strip (s : string) : string := reverse (lstrip (reverse (lstrip s))).

(** The leading digits of [s], and what follows them. *)
Definition span_digits (s : string) : string * string := span digit s.

Fixpoint Z_of_digits (acc : Z) (s : string) : Z :=
  match s with
  | String c s' => Z_of_digits (10 * acc + (Z.of_nat (nat_of_ascii c) - 48)) s'
  | EmptyString => acc
  end.

Definition len (s : string) : Z := Z.of_nat (String.length s).

(** An optional sign. *)
Definition take_sign (s : string) : bool * string :=
  match s with
  | String "-" s' => (true, s')
  | String "+" s' => (false, s')
  | _ => (false, s)
  end.

(** An unsigned decimal number [digits [. digits] [e [sign] digits]] with
    a digit in its mantissa: the mantissa as an integer, the power of
    ten, and whether it is written as an integer. *)
Definition parse_decimal (s : string) : option (Z * Z * bool) :=
  let '(ip, r1) := span_digits s in
  let '(has_dot, (fp, r2)) :=
    match r1 with
    | String "." r => (true, span_digits r)
    | _ => (false, (EmptyString, r1))
    end in
  let m := Z_of_digits 0 (ip ++ fp)%string in
  if (len ip + len fp =? 0) then None
  else
    match r2 with
    | EmptyString => Some (m, - len fp, negb has_dot)
    | String c r3 =>
        if Ascii.eqb c "e" || Ascii.eqb c "E" then
          let '(neg, r4) := take_sign r3 in
          let '(ed, r5) := span_digits r4 in
          match ed, r5 with
          | String _ _, EmptyString =>
              let e := Z_of_digits 0 ed in
              Some (m, (if neg then - e else e) - len fp, false)
          | _, _ => None
          end
        else None
    end.

(** The binary64 number nearest to [m * 10^e10], ties to even. *)
Definition float_of_decimal (neg : bool) (m e10 : Z) : float :=
  if m =? 0 then S754_zero neg
  else if 0 <=? e10 then
    binary_normalize F.prec F.emax (cond_Zopp neg (m * 10 ^ e10)) 0 false
  else
    F.div (S754_finite neg (Z.to_pos m) 0)
          (S754_finite false (Z.to_pos (10 ^ (- e10))) 0).

Definition float_ (s : string) : result float :=
  let '(neg, body) := take_sign (strip s) in
  let name := lower body in
  if String.eqb name "nan" then Ok F.nan
  else if String.eqb name "inf" || String.eqb name "infinity" then
    Ok (S754_infinity neg)
  else
    match parse_decimal body with
    | Some (m, e10, _) => Ok (float_of_decimal neg m e10)
    | None => Raise (ValueError ("could not convert string to float: " ++ s)%string)
    end.

Definition int_ (s : string) : result Z :=
  let '(neg, body) := take_sign (strip s) in
  match span_digits body with
  | (String c d, EmptyString) =>
      let n := Z_of_digits 0 (String c d) in Ok (if neg then - n else n)
  | _ =>
      Raise (ValueError ("invalid literal for int() with base 10: '" ++ s ++ "'")%string)
  end.

(** ** [str] of a float: ['%.12g'], with [.0] added to an integer *)

Definition ndigits (n : Z) : Z := len (str_of_Z n).

(** [n / d] rounded to the nearest integer, ties to even. *)
Definition div_nearest_even (n d : Z) : Z :=
  let q := n / d in
  let r := n mod d in
  match 2 * r ?= d with
  | Lt => q
  | Gt => q + 1
  | Eq => if Z.even q then q else q + 1
  end.

Fixpoint rstrip_zeros_rev (s : list ascii) : list ascii :=
  match s with
  | "0"%char :: s' => rstrip_zeros_rev s'
  | _ => s
  end.

Definition rstrip_zeros (s : string) : string :=
  string_of_list_ascii (rev (rstrip_zeros_rev (rev (list_ascii_of_string s)))).

Fixpoint zeros (n : nat) : string :=
  match n with O => EmptyString | S n' => String "0" (zeros n') end.

Definition drop_string (n : nat) (s : string) : string :=
  String.substring n (String.length s - n) s.

(** [b ^ k] for a [k] that is at least zero, and one otherwise. *)
Definition pow (b k : Z) : Z := b ^ Z.max k 0.

(** The twelve digits of [num/den > 0] and its decimal exponent. *)
Definition digits12 (num den : Z) : Z * Z :=
  let x0 := ndigits num - ndigits den in
  let x := if den * pow 10 x0 <=? num * pow 10 (- x0) then x0 else x0 - 1 in
  let p := 11 - x in
  let q := div_nearest_even (num * pow 10 p) (den * pow 10 (- p)) in
  if q =? 10 ^ 12 then (10 ^ 11, x + 1) else (q, x).

Definition str_float (x : float) : string :=
  match x with
  | S754_nan => "nan"
  | S754_infinity s => if s then "-inf" else "inf"
  | S754_zero s => if s then "-0.0" else "0.0"
  | S754_finite s m e =>
      let '(q, x10) := digits12 (Z.pos m * pow 2 e) (pow 2 (- e)) in
      let ds := rstrip_zeros (str_of_Z q) in
      let sign := if s then "-" else "" in
      let body :=
        if (x10 <? -4) || (11 <=? x10) then
          let frac := drop_string 1 ds in
          let ex := str_of_Z (Z.abs x10) in
          let point := if String.eqb frac "" then "" else ("." ++ frac)%string in
          let esign := if x10 <? 0 then "-" else "+" in
          let pad := if Z.abs x10 <? 10 then "0" else "" in
          (take_string 1 ds ++ point ++ "e" ++ esign ++ pad ++ ex)%string
        else if 0 <=? x10 then
          let k := Z.to_nat (x10 + 1) in
          let padded := (ds ++ zeros (k - String.length ds))%string in
          let frac := drop_string k padded in
          (take_string k padded ++ "."
           ++ (if String.eqb frac "" then "0" else frac))%string
        else ("0." ++ zeros (Z.to_nat (- x10 - 1)) ++ ds)%string in
      (sign ++ body)%string
  end.

Definition format_ (v : pyval) : result string :=
  match v with
  | VNone => Ok "None"
  | VBool b => Ok (if b then "True" else "False")
  | VInt n => Ok (str_of_Z n)
  | VFloat x => Ok (str_float x)
  | VStr s => Ok s
  | VArray _ => Raise (Unmodelled "format of an array")
  | VObject _ => Raise (Unmodelled "format of an object")
  end.

End Py27.

Module Py27Eval.

Import Py27.

(** The names bound at the top of [_pn_control.py], and the builtin
    functions and constants of Python 2.7. *)
Definition module_globals : list string :=
  [ "np"; "re"; "plt"; "sys"; "norm"; "pn1"; "pn2"; "fg"; "pb"; "coeff";
    "aniso"; "control_file"; "from_mapping"; "change_type"; "change_or_map";
    "to_bool"; "to_vector"; "handle_pn_control"; "print_control"; "PNSim";
    "main"; "__name__"; "__file__"; "__doc__"; "__package__";
    "__builtins__" ].

Definition builtins : list string :=
  [ "abs"; "all"; "any"; "apply"; "basestring"; "bin"; "bool"; "buffer";
    "bytearray"; "bytes"; "callable"; "chr"; "classmethod"; "cmp"; "coerce";
    "compile"; "complex"; "copyright"; "credits"; "delattr"; "dict"; "dir";
    "divmod"; "enumerate"; "eval"; "execfile"; "exit"; "file"; "filter";
    "float"; "format"; "frozenset"; "getattr"; "globals"; "hasattr"; "hash";
    "help"; "hex"; "id"; "input"; "int"; "intern"; "isinstance";
    "issubclass"; "iter"; "len"; "license"; "list"; "locals"; "long"; "map";
    "max"; "memoryview"; "min"; "next"; "object"; "oct"; "open"; "ord";
    "pow"; "print"; "property"; "quit"; "range"; "raw_input"; "reduce";
    "reload"; "repr"; "reversed"; "round"; "set"; "setattr"; "slice";
    "sorted"; "staticmethod"; "str"; "sum"; "super"; "tuple"; "type";
    "unichr"; "unicode"; "vars"; "xrange"; "zip"; "__import__"; "__debug__";
    "Ellipsis"; "NotImplemented"; "BaseException"; "Exception";
    "StandardError"; "ArithmeticError"; "AssertionError"; "AttributeError";
    "EOFError"; "EnvironmentError"; "FloatingPointError"; "IOError";
    "ImportError"; "IndexError"; "KeyError"; "KeyboardInterrupt";
    "LookupError"; "MemoryError"; "NameError"; "NotImplementedError";
    "OSError"; "OverflowError"; "ReferenceError"; "RuntimeError";
    "StopIteration"; "SyntaxError"; "SystemError"; "SystemExit"; "TypeError";
    "UnboundLocalError"; "UnicodeError"; "ValueError"; "ZeroDivisionError";
    "Warning"; "UserWarning"; "DeprecationWarning"; "RuntimeWarning";
    "FutureWarning" ].

Definition np_pi : float := S754_finite false 7074237752028440 (-51).
Definition np_e : float := S754_finite false 6121026514868073 (-51).

Fixpoint assoc (name : string) (env : list (string * pyval)) : option pyval :=
  match env with
  | [] => None
  | (n, v) :: env' => if String.eqb n name then Some v else assoc name env'
  end.

Definition mem (name : string) (names : list string) : bool :=
  existsb (String.eqb name) names.

Definition is_identifier (s : string) : bool :=
  match s with
  | String c _ =>
      negb (digit c)
      && match match_here (plus word) s with
         | Some (_, _, EmptyString) => true
         | _ => false
         end
  | EmptyString => false
  end.

(** A name is looked up in [env], then among the globals and builtins. *)
Definition eval_name (env : list (string * pyval)) (name : string)
  : result pyval :=
  if String.eqb name "None" then Ok VNone
  else if String.eqb name "True" then Ok (VBool true)
  else if String.eqb name "False" then Ok (VBool false)
  else
    match assoc name env with
    | Some v => Ok v
    | None =>
        if mem name module_globals || mem name builtins then Ok (VObject name)
        else Raise (NameError name)
    end.

(** An atom: a signed decimal literal, a name, [np.pi] or [np.e]. *)
Definition eval_atom (env : list (string * pyval)) (s : string)
  : result pyval :=
  if is_identifier s then eval_name env s
  else if String.eqb s "np.pi" then Ok (VFloat np_pi)
  else if String.eqb s "np.e" then Ok (VFloat np_e)
  else
    let '(neg, body) := take_sign s in
    match parse_decimal body with
    | Some (m, e10, true) =>
        match body with
        | String "0" (String _ _) => Raise (Unmodelled "octal literal")
        | _ => Ok (VInt (if neg then - m else m))
        end
    | Some (m, e10, false) => Ok (VFloat (float_of_decimal neg m e10))
    | None => Raise (Unmodelled "expression")
    end.

Definition atom_char (c : ascii) : bool :=
  word c || Ascii.eqb c "." || Ascii.eqb c "-" || Ascii.eqb c "+".

(** The text [from_mapping] builds when the body of the mapping and the
    text of the input value are atoms. *)
Definition applied_lambda : re :=
  seq [ lit "(lambda "; Group "var" (plus word); lit ": ";
        Group "body" (plus atom_char); lit ")(";
        Group "arg" (plus atom_char); Lit ")" ].

(** The argument is evaluated where [eval] is called, and sees the local
    variables; the body of the lambda sees its parameter, then the
    globals and builtins, not those local variables. *)
Definition eval_ (f : frame) (s : string) : result pyval :=
  match match_here applied_lambda s with
  | Some (_, g, EmptyString) =>
      match group "var" g, group "body" g, group "arg" g with
      | Some var, Some body, Some arg =>
          if is_identifier var then
            a ← eval_atom (f_locals f) arg;
            eval_atom [(var, a)] body
          else Raise (Unmodelled "expression")
      | _, _, _ => Raise (Unmodelled "expression")
      end
  | _ =>
      match match_here (plus atom_char) s with
      | Some (_, _, EmptyString) => eval_atom (f_locals f) s
      | _ => Raise (Unmodelled "expression")
      end
  end.

(** [aniso.readCij] is not part of the sources at hand. *)
Definition readCij_ (s : string) : result pyval :=
  Raise (Unmodelled "aniso.readCij").

Definition rt : runtime := Runtime float_ int_ format_ eval_ readCij_.

End Py27Eval.

(* ===================================================================== *)
(** * read_gsf.py: extraction of one energy *)
(* ===================================================================== *)

Definition newline : ascii := "010"%char.

(** The three patterns of [energy_lines], and [get_gnorm]. *)
Definition decimal : re := seq [ Opt (only "-"); plus digit; Lit "."; plus digit ].

Definition gulp_energy : re :=
  seq [ Lit newline; star space; lit "Final energy"; plus space; Lit "=";
        plus space; Group "E" decimal; star space; Group "units" (plus word);
        star space; Lit newline ].

Definition castep_energy : re :=
  seq [ Lit newline; star space; lit "BFGS:"; star space; lit "Final";
        plus space; lit "Enthalpy"; plus space; Lit "="; plus space;
        Group "E" (seq [ decimal; lit "E+"; plus digit ]); star space;
        Group "units" (plus word); star space; Lit newline ].

Definition qe_energy : re :=
  seq [ Lit newline; star space; lit "Final energy"; plus space; Lit "=";
        plus space; Group "E" decimal; plus space; Group "units" (plus word);
        star space; Lit newline ].

Definition energy_lines : list (string * re) :=
  [ ("gulp", gulp_energy); ("castep", castep_energy); ("qe", qe_energy) ].

Definition get_gnorm : re :=
  seq [ lit "Final Gnorm"; star space; Lit "="; star space;
        Group "gnorm" (seq [ plus digit; Lit "."; plus digit ]) ].

(** [re.findall] with the two groups [E] and [units]: the pairs of their
    texts. *)
Definition findall2 (r : re) (s : string) : list (string * string) :=
  map (fun m => (default "" (group "E" m.2), default "" (group "units" m.2)))
      (finditer r s).

Definition acceptable_gnorm : float :=
  Eval vm_compute in F.div (F.of_Z 1) (F.of_Z 5).                 (* 0.2 *)

Definition gulp_flag_failure : list string :=
  [ "Conditions for a minimum have not been satisfied";
    "Too many failed attempts to optimise" ].

Definition unbound (name : string) : exn := UnboundLocalError name.

Section Extraction.

Variable rt : runtime.

(** The files that can be opened, with their text. *)
Variable fs : string -> option string.

(** The name of the output file of point [i], or [(i, j)]. *)
Definition gsf_filename (base_name suffix : string) (i : Z) (j : option Z)
    (indir : bool) : string :=
  let name_format := (base_name ++ "." ++ Py27.str_of_Z i)%string in
  let name_format :=
    match j with
    | Some j => (name_format ++ "." ++ Py27.str_of_Z j)%string
    | None => name_format
    end in
  if indir then (name_format ++ "/" ++ name_format ++ "." ++ suffix)%string
  else (name_format ++ "." ++ suffix)%string.

(** The loop of lines 96-98: the last match is the one kept.  The two
    local variables are [None] while they are unbound.  The [print] of the
    file name, line 69, is not part of the result here: [Main.main] records
    it. *)
Definition keep_match (acc : option float * option (option string))
    (m : string * string) : result (option float * option (option string)) :=
  E ← py_float rt m.1;
  Ok (Some E, Some (Some m.2)).

Definition get_gsf_energy (energy_regex : re) (prog base_name suffix : string)
    (i : Z) (j : option Z) (indir : bool) : result (float * option string) :=
  let filename := gsf_filename base_name suffix i j indir in
  output_lines ←
    match fs filename with
    | Some text => Ok text
    | None => Raise (IOError filename)
    end;
  let matched_energies := findall2 energy_regex output_lines in
  '(E, units) ←
    match matched_energies with
    | [] => Ok (Some F.nan, Some None)
    | _ :: _ =>
        if String.eqb (lower prog) "gulp" then
          gnorm ←
            (if existsb (fun flag => contains flag output_lines) gulp_flag_failure
             then
               g ← group_of (search get_gnorm output_lines) "gnorm";
               py_float rt g
             else Ok F.zero);
          if F.ltb gnorm acceptable_gnorm then
            for_each keep_match matched_energies (None, None)
          else Ok (Some F.nan, Some None)
        else Ok (None, None)
    end;
  match E, units with
  | Some E, Some units => Ok (E, units)
  | None, _ => Raise (unbound "E")
  | Some _, None => Raise (unbound "units")
  end.

End Extraction.

(* ===================================================================== *)
(** * _pn_control.py: construction of the misfit function *)
(* ===================================================================== *)

(** The calls into [pyDis.pn.fit_gsf], a module that is not part of the
    sources at hand. *)
Inductive fit_call : Type :=
  | Read_numerical_gsf
  | Spline_fit1d
  | Spline_fit2d
  | New_gsf
  | Projection
  | Gline_fourier.

Definition is_fit (c : fit_call) : bool :=
  match c with Read_numerical_gsf => false | _ => true end.

(** What the calls answer: the reader gives the shape of the grid it read,
    the grid and the units; the others give an object, or raise. *)
Record fit_gsf : Type := FitGsf {
  read_numerical_gsf : pyval -> result (list Z * pyval * pyval);
  fit : fit_call -> list pyval -> result pyval
}.

(** A computation that records the calls it makes, up to the exception
    that ends it. *)
Definition traced (A : Type) : Type := list fit_call -> result A * list fit_call.

#[global] Instance traced_bind : MBind traced :=
  fun A B (k : A -> traced B) (m : traced A) =>
    fun t =>
      match m t with
      | (Ok a, t') => k a t'
      | (Raise e, t') => (Raise e, t')
      end.

Definition lift {A : Type} (r : result A) : traced A := fun t => (r, t).

Definition called {A : Type} (c : fit_call) (r : result A) : traced A :=
  fun t => (r, t ++ [c]).

(** [v == n] for an integer [n], [v == s] for a string, and the truth of a
    value. *)
Definition eq_int (v : pyval) (n : Z) : result bool :=
  match v with
  | VInt m => Ok (m =? n)
  | VBool b => Ok ((if b then 1 else 0) =? n)
  | VFloat x => Ok (F.eqb x (F.of_Z n))
  | VArray _ => Raise (Unmodelled "comparison of an array")
  | _ => Ok false
  end.

Definition eq_str (v : pyval) (s : string) : result bool :=
  match v with
  | VStr s' => Ok (String.eqb s' s)
  | VArray _ => Raise (Unmodelled "comparison of an array")
  | _ => Ok false
  end.

Definition truth (v : pyval) : result bool :=
  match v with
  | VNone => Ok false
  | VBool b => Ok b
  | VInt n => Ok (negb (n =? 0))
  | VFloat x => Ok (F.neb x F.zero)
  | VStr s => Ok (negb (String.eqb s ""))
  | VArray _ => Raise (Unmodelled "truth of an array")
  | VObject _ => Ok true
  end.

Definition invalid_dimensions : exn :=
  ValueError "GSF grid has invalid number of dimensions".

(** The attributes of a [PNSim] that [construct_gsf] reads and sets. *)
Record PNSim : Type := MkPNSim {
  sim : pdict;
  units : option pyval;
  gsf : option pyval
}.

Section ConstructGsf.

Variable fg : fit_gsf.

Definition control (self : PNSim) (card : string) : traced pyval :=
  lift (lookup2 (sim self) "control" card).
Definition surf (self : PNSim) (card : string) : traced pyval :=
  lift (lookup2 (sim self) "surface" card).
Definition struc (self : PNSim) (card : string) : traced pyval :=
  lift (lookup2 (sim self) "struc" card).

(** The arguments shared by [spline_fit1d] and [spline_fit2d]. *)
Definition spline_args (self : PNSim) (gsf_grid units : pyval)
  : traced (list pyval) :=
  x_length ← surf self "x_length";
  y_length ← surf self "y_length";
  angle ← surf self "angle";
  hasvac ← surf self "has_vacuum";
  lift (Ok [gsf_grid; x_length; y_length; angle; units; hasvac]).

Definition construct_gsf (self : PNSim) : traced PNSim :=
  gsf_file ← control self "gsf_file";
  '(shape, gsf_grid, units) ← called Read_numerical_gsf
                                (read_numerical_gsf fg gsf_file);
  let self := MkPNSim (sim self) (Some units) (gsf self) in
  (* determine which fitting function to use from the shape of <gsf_grid> *)
  n_columns ← lift (getitem shape (-1));
  if n_columns =? 2 then
    args ← spline_args self gsf_grid units;
    do_fourier ← surf self "do_fourier";
    n_order ← surf self "fourier_N";
    f ← called Spline_fit1d (fit fg Spline_fit1d (args ++ [do_fourier; n_order]));
    lift (Ok (MkPNSim (sim self) (Some units) (Some f)))
  else if n_columns =? 3 then
    (* 2-dimensional misfit function *)
    dimensions ← control self "dimensions";
    two ← lift (eq_int dimensions 2);
    if two : bool then
      args ← spline_args self gsf_grid units;
      do_fourier ← surf self "do_fourier";
      n_order ← surf self "fourier_N";
      base_func ← called Spline_fit2d
                    (fit fg Spline_fit2d (args ++ [do_fourier; n_order]));
      map_ux ← surf self "map_ux";
      map_uy ← surf self "map_uy";
      f ← called New_gsf (fit fg New_gsf [base_func; map_ux; map_uy]);
      lift (Ok (MkPNSim (sim self) (Some units) (Some f)))
    else
      dimensions ← control self "dimensions";
      one ← lift (eq_int dimensions 1);
      if one : bool then
        (* begin by performing a spline fit to the surface *)
        args ← spline_args self gsf_grid units;
        base_func ← called Spline_fit2d
                      (fit fg Spline_fit2d (args ++ [VBool false]));
        (* remap input so that x and y correspond to ux and uy *)
        map_ux ← surf self "map_ux";
        map_uy ← surf self "map_uy";
        temp_gsf ← called New_gsf (fit fg New_gsf [base_func; map_ux; map_uy]);
        (* determine which axis to use (0/x if edge, 1/y if screw) *)
        disl_type ← control self "disl_type";
        edge ← lift (eq_str disl_type "edge");
        use_axis ←
          (if edge : bool then lift (Ok (Some 0))
           else
             disl_type ← control self "disl_type";
             screw ← lift (eq_str disl_type "screw");
             lift (Ok (if screw : bool then Some 1 else None)));
        gamma_shift ← surf self "gamma_shift";
        use_axis ← lift (match use_axis with
                         | Some axis => Ok (VInt axis)
                         | None => Raise (unbound "use_axis")
                         end);
        temp_1d ← called Projection
                    (fit fg Projection [temp_gsf; gamma_shift; use_axis]);
        (* set the correct periodicity *)
        let temp_1d2 := VObject "temp_1d2" in
        do_fourier ← surf self "do_fourier";
        fourier ← lift (truth do_fourier);
        if fourier : bool then
          (* fit a fourier series to <temp_1d2>. *)
          n_order ← surf self "fourier_N";
          burgers ← struc self "burgers";
          f ← called Gline_fourier
                (fit fg Gline_fourier [temp_1d; n_order; burgers]);
          lift (Ok (MkPNSim (sim self) (Some units) (Some f)))
        else lift (Ok (MkPNSim (sim self) (Some units) (Some temp_1d2)))
      else lift (Ok self)
  else lift (Raise invalid_dimensions).

End ConstructGsf.

(* ===================================================================== *)
(** * The vocabulary of the statements *)
(* ===================================================================== *)

#[global] Instance float_inhabited : Inhabited float := populate F.nan.

(** Sample [i] of a gamma line, and whether it is not-a-number. *)
Definition sample (energies : list float) (i : Z) : float :=
  energies !!! Z.to_nat i.

Definition invalid (energies : list float) (i : Z) : bool :=
  F.is_nan (sample energies i).

(** The two nearest neighbours of sample [i] on a ring of [x_max + 1]
    samples. *)
Definition before (x_max i : Z) : Z := (i - 1) mod (x_max + 1).
Definition after (x_max i : Z) : Z := (i + 1) mod (x_max + 1).

Definition average_of_neighbours (x_max : Z) (energies : list float) (i : Z)
  : float :=
  F.mul F.half (F.add (sample energies (before x_max i))
                      (sample energies (after x_max i))).

(** An invalid sample with an invalid neighbour. *)
Definition stranded (x_max : Z) (energies : list float) (i : Z) : bool :=
  invalid energies i
  && (invalid energies (before x_max i) || invalid energies (after x_max i)).

(** The line in which every invalid sample is the average of its two
    neighbours. *)
Definition repaired (x_max : Z) (energies : list float) (i : Z) : float :=
  if invalid energies i then average_of_neighbours x_max energies i
  else sample energies i.

Definition repaired_line (x_max : Z) (energies : list float) : list float :=
  repaired x_max energies <$> range (x_max + 1).

Definition written_line (x_max : Z) (energies : list float) : list event :=
  (fun i => WriteLine1 i (repaired x_max energies i)) <$> range (x_max + 1).

(** The array when the loop reaches sample [k]: the samples before [k] are
    repaired, the others are as read. *)
Definition progress (x_max : Z) (energies : list float) (k : Z)
    (current : list float) : Prop :=
  length current = length energies
  /\ forall j, 0 <= j <= x_max ->
       sample current j
       = if j <? k then repaired x_max energies j else sample energies j.

(** Cell [(i, j)] of a gamma surface. *)
Definition cell (energies : list (list float)) (i j : Z) : float :=
  (energies !!! Z.to_nat i) !!! Z.to_nat j.

(** A real energy: a number that is not more than 1.0 below the reference. *)
Definition real (E_perfect e : float) : bool :=
  negb (F.is_nan e) && negb (F.ltb e (F.sub E_perfect F.one)).

(** The four neighbours of a cell on a torus of [x_max + 1] rows and
    [y_max + 1] columns, each axis wrapping at its own count. *)
Definition toroidal_neighbours (x_max y_max i j : Z) : list (Z * Z) :=
  [ ((i + 1) mod (x_max + 1), j); ((i - 1) mod (x_max + 1), j);
    (i, (j + 1) mod (y_max + 1)); (i, (j - 1) mod (y_max + 1)) ].

(** The average of the real neighbours of a cell on that torus, if any. *)
Definition toroidal_average (x_max y_max : Z) (energies : list (list float))
    (i j : Z) : option float :=
  let E_perfect := cell energies 0 0 in
  let reals :=
    List.filter (real E_perfect)
      (List.map (fun s : Z * Z => cell energies s.1 s.2)
                (toroidal_neighbours x_max y_max i j)) in
  match reals with
  | [] => None
  | _ :: _ =>
      Some (F.div (fold_left F.add reals F.zero)
                  (F.of_Z (Z.of_nat (length reals))))
  end.

(** The elasticity modes in the order of their priority, each with the
    cards it needs. *)
Definition populated (d : pdict) (card : string) : bool :=
  match lookup2 d "elast" card with
  | Ok v => negb (is_None v)
  | Raise _ => false
  end.

Definition mode_by_priority (d : pdict) : option string :=
  if populated d "k_parallel" then Some "specific"
  else if populated d "cij" then Some "aniso"
  else if populated d "shear" && populated d "poisson" then Some "iso_nu"
  else if populated d "shear" && populated d "bulk" then Some "iso_bulk"
  else None.

(** The cards the selection of the mode reads are all there. *)
Definition elast_resolved (d : pdict) : Prop :=
  forall card, In card ["k_parallel"; "cij"; "shear"; "poisson"; "bulk"] ->
    is_Ok (lookup2 d "elast" card) = true.

(** An output of GULP with its final energy, and a directory that holds
    one file. *)
Definition gulp_output : string :=
  (String newline "  Final energy =     -12.50000000 eV" ++ String newline "")%string.

Definition one_file (name text : string) (filename : string) : option string :=
  if String.eqb filename name then Some text else None.

(** The tokens of a string: its maximal runs of characters that are
    neither white space nor commas. *)
Definition separator (c : ascii) : bool := space c || Ascii.eqb c ",".

Fixpoint tokens_from (current : string) (s : string) : list string :=
  match s with
  | EmptyString =>
      match current with
      | EmptyString => []
      | String _ _ => [current]
      end
  | String c s' =>
      if separator c then
        match current with
        | EmptyString => tokens_from EmptyString s'
        | String _ _ => current :: tokens_from EmptyString s'
        end
      else tokens_from (current ++ String c EmptyString)%string s'
  end.

Definition tokens (s : string) : list string := tokens_from EmptyString s.



(** The value of a card in the dictionary, if the card is there. *)
Definition card_value (d : pdict) (namelist card : string) : option pyval :=
  nl ← d !! namelist; nl !! card.

(** [d'] differs from [d] at the card [(namelist, card)] at most, and has
    that card. *)
Definition updated_at (d : pdict) (namelist card : string) (d' : pdict) : Prop :=
  is_Some (card_value d' namelist card)
  /\ forall namelist' card',
       (namelist', card') <> (namelist, card) ->
       card_value d' namelist' card' = card_value d namelist' card'.

(** The text [from_mapping] evaluates for the mapping [x -> x]. *)
Definition identity_applied (text : string) : string :=
  ("(lambda x: x)(" ++ text ++ ")")%string.

(** The cards that are declared: a namelist of the schema and a card of
    its table. *)
Definition declared (namelist card : string) : Prop :=
  exists cards, In (namelist, cards) schema /\ In card (List.map c_name cards).

(** The course of a resolution that returns: the dictionary after the
    namelists were added and after each pass. *)
Inductive course (rt : runtime) (d d' : pdict) : Prop :=
  | Course (k_namelists k_control k_struc k_surface k_properties k_stress
            k_elast : pdict) :
      (forall namelist card,
         card_value k_namelists namelist card = card_value d namelist card) ->
      for_each (handle_card rt "control") control_cards k_namelists = Ok k_control ->
      for_each (handle_card rt "struc") struc_cards k_control = Ok k_struc ->
      for_each (handle_card rt "surface") surf_cards k_struc = Ok k_surface ->
      for_each (handle_card rt "properties") prop_cards k_surface = Ok k_properties ->
      for_each (handle_card rt "stress") stress_cards k_properties = Ok k_stress ->
      for_each (handle_elast_card rt) elast_cards k_stress = Ok k_elast ->
      select_coefficients k_elast = Ok d' ->
      course rt d d'.

(** A control dictionary that resolves under the reference runtime, and
    variants of it. *)
Definition complete_input : pdict :=
  {[ "control" := {[ "gsf_file" := VStr "gsf.dat" ]};
     "struc" := {[ "a" := VStr "2.5" ]};
     "elast" := {[ "k_parallel" := VStr "1.0" ]};
     "surface" := {[ "map_ux" := VStr "ux"; "map_uy" := VStr "uy" ]} ]}.

Definition with_card (namelist card value : string) (d : pdict) : pdict :=
  <[namelist := <[card := VStr value]> (default ∅ (d !! namelist))]> d.



(** The mantissa of a shift record is not negative. *)
Definition nonneg (r : shr_record) : Prop := 0 <= shr_m r.

(* ===================================================================== *)
(** * read_gsf.py: the whole of [main] *)
(* ===================================================================== *)

Module Main.

(** The parsed command line, with the names of [command_line_options]. *)
Record args : Type := Args {
  base_name : string;
  x_max : Z;
  y_max : Z;
  program : string;
  out_name : string;
  suffix : string;
  dim : Z;
  indir : bool
}.

(** The defaults of [command_line_options]. *)
Definition defaults : args := Args "gsf" 0 0 "gulp" "gsf.dat" "out" 2 false.

(** What [main] prints and writes, the [print] of [get_gsf_energy]
    included. *)
Inductive output : Type :=
  | InvalidProgram                      (* the two prints of lines 117-119 *)
  | PrintFilename (filename : string)   (* print(filename), line 69 *)
  | WriteUnits (units : option string)  (* outstream.write("# units {}\n") *)
  | Repair (e : event).

Definition no_arguments : exn := ValueError "Input arguments must be supplied.".
Definition negative_dimensions : exn :=
  ValueError "negative dimensions are not allowed".

(** [energy_lines[name]], a [KeyError] being [None]. *)
Fixpoint find_regex (name : string) (table : list (string * re)) : option re :=
  match table with
  | [] => None
  | (key, r) :: table' =>
      if String.eqb key name then Some r else find_regex name table'
  end.

(** [np.zeros(n)] and [np.zeros((n, m))]. *)
Definition zeros (n : Z) : result (list float) :=
  if n <? 0 then Raise negative_dimensions
  else Ok (replicate (Z.to_nat n) F.zero).

Definition zeros2 (n m : Z) : result (list (list float)) :=
  if (n <? 0) || (m <? 0) then Raise negative_dimensions
  else Ok (replicate (Z.to_nat n) (replicate (Z.to_nat m) F.zero)).

(** A local variable that may not be bound yet. *)
Definition bound {A : Type} (name : string) (x : option A) : result A :=
  match x with
  | Some a => Ok a
  | None => Raise (unbound name)
  end.

(** The file of a point of the grid. *)
Definition point_file (a : args) (i : Z) (j : option Z) : string :=
  gsf_filename (base_name a) (suffix a) i j (indir a).


Section Main.

Variable rt : runtime.

(** The files that can be read, with their text, and the names under which
    a file can be opened for writing.  A name stands for one file. *)
Variable fs : string -> option string.
Variable writable : string -> bool.

(** The files once [open(out_name, "w")] has returned: the output file is
    there and empty, and stays so while the energies are read, since the
    first write comes after the last of them. *)
Definition opened (out_name : string) : string -> option string :=
  fun filename => if String.eqb filename out_name then Some "" else fs filename.

(** Lines 126-129: one energy of the gamma line.  The state holds the
    array, the local variable [units] and what was printed. *)
Definition fill_line (a : args) (regex : option re)
    (st : list float * option (option string) * list output) (i : Z)
  : result (list float * option (option string) * list output) :=
  let '(energies, _, out) := st in
  regex ← bound "regex" regex;
  '(E, units) ← get_gsf_energy rt (opened (out_name a)) regex (program a)
                  (base_name a) (suffix a) i None (indir a);
  energies ← setitem energies i E;
  Ok (energies, Some units, out ++ [PrintFilename (point_file a i None)]).

(** Lines 151-155: one energy of the gamma surface. *)
Definition fill_cell (a : args) (regex : option re) (i : Z)
    (st : list (list float) * option (option string) * list output) (j : Z)
  : result (list (list float) * option (option string) * list output) :=
  let '(energies, _, out) := st in
  regex ← bound "regex" regex;
  '(E, units) ← get_gsf_energy rt (opened (out_name a)) regex (program a)
                  (base_name a) (suffix a) i (Some j) (indir a);
  energies ← setitem2 energies i j E;
  Ok (energies, Some units, out ++ [PrintFilename (point_file a i (Some j))]).

Definition fill_row (a : args) (regex : option re)
    (st : list (list float) * option (option string) * list output) (i : Z)
  : result (list (list float) * option (option string) * list output) :=
  for_each (fill_cell a regex i) (range (y_max a + 1)) st.

(** [main], from the parsed arguments; [argv] tells whether any argument
    was given.  Its result is what it printed and wrote, when it returns. *)
Definition main (argv : bool) (a : args) : result (list output) :=
  if negb argv then Raise no_arguments
  else
    (* determine which regular expression to use to match output energies *)
    let regex := find_regex (lower (program a)) energy_lines in
    let out := match regex with Some _ => [] | None => [InvalidProgram] end in
    (* outstream = open("{}".format(args.out_name), "w") *)
    if negb (writable (out_name a)) then Raise (IOError (out_name a))
    else if dim a =? 1 then
      energies ← zeros (x_max a + 1);
      (* handle gamma line *)
      '(energies, units, out) ←
        for_each (fill_line a regex) (range (x_max a + 1)) (energies, None, out);
      (* record the units in which the cell energy is expressed *)
      units ← bound "units" units;
      '(_, written) ← gamma_line_repair (x_max a) energies;
      Ok (out ++ [WriteUnits units] ++ (Repair <$> written))
    else
      energies ← zeros2 (x_max a + 1) (y_max a + 1);
      (* handle gamma surface *)
      '(energies, units, out) ←
        for_each (fill_row a regex) (range (x_max a + 1)) (energies, None, out);
      (* record energy units used *)
      units ← bound "units" units;
      '(_, written) ← gamma_surface_repair (x_max a) (y_max a) energies;
      Ok (out ++ [WriteUnits units] ++ (Repair <$> written)).

End Main.

End Main.

(* ===================================================================== *)
(** * _pn_control.py: reading the control file *)
(* ===================================================================== *)

Definition double_quote : ascii := "034"%char.
Definition quote (c : ascii) : bool := Ascii.eqb c "'" || Ascii.eqb c double_quote.
Definition non_quote (c : ascii) : bool := negb (quote c).

(** The pattern [input_style] of [control_file], and the pattern of the
    start of a namelist. *)
Definition input_style : re :=
  seq [ star space; Group "par" (plus dot); star space; Lit "="; star space;
        Opt quote; Group "value" (star non_quote); Opt quote; star space;
        Lit ";" ].

Definition namelist_start : re :=
  seq [ Lit "&"; Group "name" (plus word); plus space; Lit "{" ].

(** The local variables of [control_file]: the dictionary, and [card_name]
    and [in_namelist], which are unbound until a namelist starts. *)
Record reader : Type := Reader {
  sim_parameters : pdict;
  card_name : option string;
  in_namelist : option bool
}.

(** The body of [for line in f]. *)
Definition control_line (st : reader) (line : string) : result reader :=
  let temp := Py27.strip line in
  (* handle the line *)
  if is_prefix "#" temp then Ok st
  else if is_prefix "&" temp then
    (* check to see if <line> starts a namelist *)
    name ← group_of (search namelist_start temp) "name";
    Ok (Reader (<[name := ∅]> (sim_parameters st)) (Some name) (Some true))
  else
    inside ← Main.bound "in_namelist" (in_namelist st);
    if inside : bool then
      if contains "};;" temp then
        (* end of namelist *)
        Ok (Reader (sim_parameters st) (card_name st) (Some false))
      else if String.eqb (Py27.strip temp) "" then Ok st
      else
        let inp := search input_style temp in
        value ← group_of inp "value";
        name ← Main.bound "card_name" (card_name st);
        par ← group_of inp "par";
        d ← store2 (sim_parameters st) name (Py27.strip par) (VStr value);
        Ok (Reader d (card_name st) (in_namelist st))
    else Ok st.

(** [control_file], from the lines of the file. *)
Definition control_file (lines : list string) : result pdict :=
  st ← for_each control_line lines (Reader ∅ None None);
  Ok (sim_parameters st).

Definition is_comment (line : string) : bool := is_prefix "#" (Py27.strip line).

(** A dictionary as [control_file] builds it: every value is a string. *)
Definition raw (d : pdict) : Prop :=
  forall namelist card v,
    card_value d namelist card = Some v -> exists s, v = VStr s.

(* ===================================================================== *)
(** * More vocabulary *)
(* ===================================================================== *)

(** The step that handles the cards of a namelist. *)
Definition step_of (rt : runtime) (namelist : string)
  : pdict -> card -> result pdict :=
  if String.eqb namelist "elast" then handle_elast_card rt
  else handle_card rt namelist.

(** A default that line 241 hands to [from_mapping]. *)
Definition has_map (v : pyval) : bool :=
  match v with
  | VStr s => contains "map" s
  | _ => false
  end.

(** What the repair of a surface without a cell to repair prints and
    writes. *)
Definition written_row (y_max : Z) (energies : list (list float)) (i : Z)
  : list event :=
  flat_map (fun j => [PrintEnergy (cell energies i j);
                      WriteLine2 i j (cell energies i j)])
           (range (y_max + 1))
  ++ [WriteBlank].

Definition written_surface (x_max y_max : Z) (energies : list (list float))
  : list event :=
  flat_map (written_row y_max energies) (range (x_max + 1)).

(** A surface of [x_max + 1] rows of [y_max + 1] cells. *)
Definition shaped (x_max y_max : Z) (energies : list (list float)) : Prop :=
  length energies = Z.to_nat (x_max + 1)
  /\ Forall (fun row => length row = Z.to_nat (y_max + 1)) energies.

(** The gamma line when the loop reaches sample [k], whatever was read:
    the samples from [k] on are as read, the samples before [k] are numbers,
    and a sample that was a number is as read. *)
Definition kept (x_max : Z) (energies : list float) (k : Z)
    (current : list float) : Prop :=
  length current = length energies
  /\ forall j, 0 <= j <= x_max ->
       (k <= j -> sample current j = sample energies j)
       /\ (j < k -> invalid current j = false)
       /\ (invalid energies j = false -> sample current j = sample energies j).

(** The gamma surface when the loops reach cell [(i, j)]: the cells from
    there on are as read, and a cell that held a real energy is as read. *)
Definition surface_kept (x_max y_max : Z) (E_perfect : float)
    (energies : list (list float)) (i j : Z) (current : list (list float))
  : Prop :=
  shaped x_max y_max current
  /\ forall i' j', 0 <= i' <= x_max -> 0 <= j' <= y_max ->
       (i < i' \/ (i' = i /\ j <= j') -> cell current i' j' = cell energies i' j')
       /\ (real E_perfect (cell energies i' j') = true ->
           cell current i' j' = cell energies i' j').

(** A signature within the surface. *)
Definition within (x_max y_max : Z) (signature : Z * Z) : Prop :=
  0 <= signature.1 <= x_max /\ 0 <= signature.2 <= y_max.

(** A character that is not a digit. *)
Definition no_digit (c : ascii) : bool := negb (digit c).

(** A character other than the equals sign, and a character of a value
    that [input_style] reads in one piece. *)
Definition no_equals (c : ascii) : bool := negb (Ascii.eqb "=" c).
Definition plain (c : ascii) : bool := non_quote c && no_equals c.

(** The line that gives the text [value], in quotes, to the card [par]. *)
Definition card_line (par value : string) : string :=
  (par ++ " = '" ++ value ++ "';")%string.

(** What [input_style] is after the group [par]. *)
Definition after_par : re :=
  seq [ star space; Lit "="; star space; Opt quote;
        Group "value" (star non_quote); Opt quote; star space; Lit ";" ].

(* ===================================================================== *)
(** * slab_impurity.py *)
(* ===================================================================== *)

(** What [replace_at_plane] reads of an atom of the module [crystal], which
    is not among the sources at hand: its species and its coordinates. *)
Record atom : Type := Atom {
  getSpecies : string;
  getCoordinates : list float
}.

(** A constraint is taken to be a test without effect. *)
Definition constraint : Type := atom -> bool.

(** [-x]. *)
Definition neg (x : float) : float := SFopp x.

(** [enumerate(xs)]. *)
Definition enumerate {A : Type} (xs : list A) : list (Z * A) :=
  zip (seqZ 0 (Z.of_nat (length xs))) xs.

(** Lines 38-40: every constraint is called, and one that fails clears
    [use_atom]. *)
Definition apply_constraints (constraints : list constraint) (a : atom)
    (use_atom : bool) : bool :=
  fold_left (fun use c => if negb (c a) then false else use) constraints use_atom.

(** The body of the loop of line 28. *)
Definition replace_body (site : string) (midpoint eps height : float)
    (constraints : option (list constraint)) (to_substitute : list Z)
    (entry : Z * atom) : result (list Z) :=
  let '(i, a) := entry in
  use_atom ←
    (if String.eqb (getSpecies a) site then
       (* work out if the atom is on the <plane> and satisfies the
          <constraints> *)
       z ← getitem (getCoordinates a) (-1);
       let d := F.sub z midpoint in
       if F.ltb (neg eps) d && F.ltb d (F.add eps height) then
         match constraints with
         | None | Some [] => Ok true
         | Some cs => Ok (apply_constraints cs a true)
         end
       else Ok false
     else Ok false);
  if use_atom : bool then Ok (to_substitute ++ [i]) else Ok to_substitute.

(** [replace_at_plane]; [c_norm] is [norm(slab_cell.getC())] and [site] is
    [impurity.getSite()]. *)
Definition replace_at_plane (c_norm : float) (slab_cell : list atom)
    (site : string) (plane vacuum : float)
    (constraints : option (list constraint)) (eps height : float)
  : result (list Z) :=
  (* calculate location of plane, accounting for the possible presence of a
     vacuum layer *)
  let midpoint := F.mul plane (F.div (F.sub c_norm vacuum) c_norm) in
  for_each (replace_body site midpoint eps height constraints)
           (enumerate slab_cell) [].

(** An atom of the species to replace that lies on the plane and passes
    every constraint. *)
Definition on_plane (midpoint eps height : float) (a : atom) : bool :=
  match getitem (getCoordinates a) (-1) with
  | Ok z =>
      F.ltb (neg eps) (F.sub z midpoint)
      && F.ltb (F.sub z midpoint) (F.add eps height)
  | Raise _ => false
  end.

Definition to_replace (site : string) (midpoint eps height : float)
    (constraints : option (list constraint)) (a : atom) : bool :=
  String.eqb (getSpecies a) site
  && on_plane midpoint eps height a
  && forallb (fun c : constraint => c a) (default [] constraints).

(** ** [impure_faults] *)

(** The names bound at the top of [slab_impurity.py].  A name that is not
    local to a function is looked up among them, then among the builtins. *)
Definition slab_impurity_globals : list string :=
  [ "print_function"; "np"; "sys"; "os"; "norm"; "cry"; "mutate"; "gsf";
    "replace_at_plane"; "impure_faults"; "__name__"; "__file__"; "__doc__";
    "__package__"; "__builtins__" ].

Definition global_name (name : string) : result pyval :=
  if Py27Eval.mem name slab_impurity_globals
     || Py27Eval.mem name Py27Eval.builtins
  then Ok (VObject name)
  else Raise (NameError name).

(** The two objects [impure_faults] changes: the atoms of the slab and
    those of the impurity. *)
Record objects (A : Type) : Type := Objects {
  slab_cell : list A;
  impurity : list A
}.
Arguments Objects {A} _ _.
Arguments slab_cell {A} _.
Arguments impurity {A} _.

(** A computation on these objects: its outcome, and the objects as it
    leaves them, also when it raises. *)
Definition stateful (S A : Type) : Type := S -> result A * S.

#[global] Instance stateful_bind {S : Type} : MBind (stateful S) :=
  fun A B (k : A -> stateful S B) (m : stateful S A) =>
    fun s =>
      match m s with
      | (Ok a, s') => k a s'
      | (Raise e, s') => (Raise e, s')
      end.

(** A step that changes the objects when it returns. *)
Definition update {S : Type} (f : S -> result S) : stateful S unit :=
  fun s =>
    match f s with
    | Ok s' => (Ok tt, s')
    | Raise e => (Raise e, s)
    end.

Definition evaluate {S A : Type} (r : result A) : stateful S A :=
  fun s => (r, s).

Section ImpureFaults.

(** The atoms and the methods called on them are of the modules [crystal],
    [transmutation] and [gsf_setup], which are not among the sources at
    hand: they are parameters. *)
Context {A : Type}.
Variable switchOutputMode : A -> result A.
Variable site_location : list A -> A -> result (list A).
Variable gamma_surface : list A -> pyval -> result unit.
Variable format2 : string -> pyval -> result pyval.  (* '{}.{}'.format(prefix, v) *)

(** [slab_cell[site].switchOutputMode()]. *)
Definition switch_site (site : Z) : stateful (objects A) unit :=
  update (fun o =>
            a ← getitem (slab_cell o) site;
            a ← switchOutputMode a;
            slab ← setitem (slab_cell o) site a;
            Ok (Objects slab (impurity o))).

Definition impure_faults (site : Z) (prefix : string)
  : stateful (objects A) unit :=
  _ ← switch_site site;
  (* calculate coordinates of the <impurity> atoms and insert them into the
     slab *)
  _ ← update (fun o =>
                a ← getitem (slab_cell o) site;
                atoms ← site_location (impurity o) a;
                Ok (Objects (slab_cell o) atoms));
  _ ← update (fun o => Ok (Objects (slab_cell o ++ impurity o) (impurity o)));
  (* create input files for generalised stacking fault calculations *)
  index ← evaluate (global_name "index");
  basename ← evaluate (format2 prefix index);
  _ ← update (fun o => _ ← gamma_surface (slab_cell o) basename; Ok o);
  (* return <index>th atom to slab and delete all impurity atoms *)
  _ ← switch_site site;
  update (fun o =>
            Ok (Objects (take (length (slab_cell o) - length (impurity o))
                              (slab_cell o))
                        (impurity o))).

End ImpureFaults.

(* ===================================================================== *)
(** * atomistic_utils.py: reading a file *)
(* ===================================================================== *)

(** The lines of a file, as the iteration over it gives them: each ends
    with its newline, but for a last line that lacks one. *)
Fixpoint file_lines_from (current text : string) : list string :=
  match text with
  | EmptyString =>
      match current with
      | EmptyString => []
      | String _ _ => [current]
      end
  | String c text' =>
      if Ascii.eqb c newline
      then (current ++ String newline "")%string :: file_lines_from "" text'
      else file_lines_from (current ++ String c "")%string text'
  end.

Definition file_lines (text : string) : list string := file_lines_from "" text.

(** [s.rstrip()]. *)
Definition rstrip (s : string) : string :=
  Py27.reverse (Py27.lstrip (Py27.reverse s)).

(** Lines 25-28: a line that is not blank is kept, without the white space
    that ends it. *)
Definition keep_line (lines : list string) (line : string) : list string :=
  let temp := rstrip line in
  if String.eqb temp "" then lines else lines ++ [temp].

(** Lines 31-35: stitch all elements of [lines] together. *)
Definition stitch (lines : list string) : string :=
  fold_left (fun all_lines line => (all_lines ++ line ++ String newline "")%string)
            lines "".

(** What [read_file] returns: the lines, or one string. *)
Inductive contents : Type :=
  | Lines (lines : list string)
  | Text (all_lines : string).

Definition read_file (fs : string -> option string) (filename path : string)
    (return_str : bool) : result contents :=
  match fs (path ++ filename)%string with
  | None => Raise (IOError (path ++ filename)%string)
  | Some text =>
      let lines := fold_left keep_line (file_lines text) [] in
      if return_str then Ok (Text (stitch lines)) else Ok (Lines lines)
  end.

(** A character other than the newline, and a line as [read_file] keeps
    it: not empty, without a newline, and not ending in white space. *)
Definition no_newline (c : ascii) : bool := negb (Ascii.eqb c newline).

Definition clean (line : string) : Prop :=
  line <> "" /\ every no_newline line = true /\ rstrip line = line.

(** The neighbours the repair of a surface looks at, each axis wrapping at
    [x_max] and [y_max], and the energy it gives to a cell: the average of
    the neighbours that hold a real energy, or the sentinel. *)
Definition wrapped_neighbours (x_max y_max i j : Z) : list (Z * Z) :=
  [ ((i + 1) mod x_max, j); ((i - 1) mod x_max, j);
    (i, (j + 1) mod y_max); (i, (j - 1) mod y_max) ].

Definition real_among (E_perfect : float) (energies : list (list float))
    (signatures : list (Z * Z)) : list float :=
  List.filter (real E_perfect)
              (List.map (fun s : Z * Z => cell energies s.1 s.2) signatures).

Definition repaired_cell (E_perfect : float) (energies : list (list float))
    (signatures : list (Z * Z)) : float :=
  let reals := real_among E_perfect energies signatures in
  match reals with
  | [] => sentinel
  | _ :: _ =>
      F.div (fold_left F.add reals F.zero) (F.of_Z (Z.of_nat (length reals)))
  end.

(* ===================================================================== *)
(** * _pn_control.py: the record of the disregistry *)
(* ===================================================================== *)

(** The loop of [post_processing] that records a one-dimensional
    disregistry, lines 509-515.  [r] holds the lattice points, [ux] the
    disregistry and [rho] the density, as [pn_1D] returned them; a line of
    either file is the pair of numbers it is formatted from, and the
    header of each file, written before the loop, is left out. *)
Definition record_body (r ux rho : list float)
    (st : list (float * float) * list (float * float)) (i : Z)
  : result (list (float * float) * list (float * float)) :=
  let '(outstreamu, outstreamrho) := st in
  x ← getitem r i;
  u ← getitem ux i;
  let outstreamu := outstreamu ++ [(x, u)] in
  if negb (i =? 0) then
    (* rho not defined for first lattice plane.  Record at intervals
       between lattice planes *)
    a ← getitem r i;
    b ← getitem r (i - 1);
    let ri := F.mul F.half (F.add a b) in
    d ← getitem rho (i - 1);
    Ok (outstreamu, outstreamrho ++ [(ri, d)])
  else Ok (outstreamu, outstreamrho).

Definition record_disregistry (r ux rho : list float)
  : result (list (float * float) * list (float * float)) :=
  for_each (record_body r ux rho) (range (Z.of_nat (length r))) ([], []).

(** The lines of the two files: a lattice point with its disregistry, and
    the middle of two lattice points with the density between them. *)
Definition disregistry_line (r ux : list float) (i : nat) : float * float :=
  (r !!! i, ux !!! i).

Definition density_line (r rho : list float) (i : nat) : float * float :=
  (F.mul F.half (F.add (r !!! S i) (r !!! i)), rho !!! i).

(* ##################################################################### *)
(** * Properties *)
(* ##################################################################### *)

(** ** Binary64 arithmetic never invents a not-a-number *)

Section Rounding.

Lemma shr_1_nonneg r : nonneg r -> nonneg (shr_1 r).
Proof.
  unfold nonneg. destruct r as [m b s]; simpl.
  destruct m as [|p|p]; [simpl; lia| |lia].
  destruct p; simpl; lia.
Qed.

Lemma iter_shr_1_nonneg p : forall r, nonneg r -> nonneg (SpecFloat.iter_pos shr_1 p r).
Proof.
  induction p as [p IH|p IH|]; intros r Hr; simpl.
  - apply IH, IH, shr_1_nonneg, Hr.
  - apply IH, IH, Hr.
  - apply shr_1_nonneg, Hr.
Qed.

Lemma shr_fexp_nonneg m e l :
  0 <= m -> 0 <= shr_m (shr_fexp F.prec F.emax m e l).1.
Proof.
  intros Hm. unfold shr_fexp, shr.
  assert (Hr : nonneg (shr_record_of_loc m l)).
  { unfold nonneg. destruct l as [|[]]; simpl; exact Hm. }
  destruct (fexp F.prec F.emax (Zdigits2 m + e) - e) as [|p|p]; simpl;
    try exact Hr.
  apply iter_shr_1_nonneg, Hr.
Qed.

Lemma round_nearest_even_nonneg m l : 0 <= m -> 0 <= round_nearest_even m l.
Proof.
  intros Hm. destruct l as [|[]]; simpl; try lia.
  destruct (Z.even m); lia.
Qed.

Lemma binary_round_aux_not_nan sx mx ex lx :
  0 <= mx -> F.is_nan (binary_round_aux F.prec F.emax sx mx ex lx) = false.
Proof.
  intros Hm. unfold binary_round_aux.
  pose proof (shr_fexp_nonneg mx ex lx Hm) as H1.
  destruct (shr_fexp F.prec F.emax mx ex lx) as [mrs' e'] eqn:E1.
  simpl in H1.
  pose proof (shr_fexp_nonneg _ e' loc_Exact
                (round_nearest_even_nonneg _ (loc_of_shr_record mrs') H1)) as H2.
  destruct (shr_fexp F.prec F.emax _ e' loc_Exact) as [mrs'' e''] eqn:E2.
  simpl in H2.
  destruct (shr_m mrs'') as [|p|p]; [reflexivity| |lia].
  destruct (e'' <=? F.emax - F.prec); reflexivity.
Qed.

Lemma binary_normalize_not_nan m e s :
  F.is_nan (binary_normalize F.prec F.emax m e s) = false.
Proof.
  destruct m as [|p|p]; simpl; [reflexivity| |];
    unfold binary_round;
    destruct (shl_align _ _ _) as [mz ez];
    apply binary_round_aux_not_nan; lia.
Qed.

End Rounding.

(** A sum is not-a-number only when a term is, or when the terms are the
    two infinities. *)
Lemma add_is_nan x y :
  F.no_inf x = true -> F.no_inf y = true ->
  F.is_nan (F.add x y) = F.is_nan x || F.is_nan y.
Proof.
  intros Hx Hy. unfold F.add.
  destruct x as [sx|sx| |sx mx ex], y as [sy|sy| |sy my ey];
    try discriminate; try reflexivity.
  - destruct sx, sy; reflexivity.
  - simpl. apply binary_normalize_not_nan.
Qed.

Lemma half_is_nan x : F.is_nan (F.mul F.half x) = F.is_nan x.
Proof.
  unfold F.mul, F.half. destruct x as [s|s| |s m e]; try reflexivity.
  simpl SFmul. apply binary_round_aux_not_nan. lia.
Qed.

(** [x != x] holds of the not-a-number alone. *)
Lemma neb_self x : F.neb x x = F.is_nan x.
Proof.
  unfold F.neb, SFeqb. destruct x as [s|s| |s m e]; simpl; try reflexivity.
  - destruct s; reflexivity.
  - rewrite Z.compare_refl, Pos.compare_cont_refl. destruct s; reflexivity.
Qed.

(** ** Indexing *)

Lemma getitem_in_range {A} `{Inhabited A} (a : list A) (i : Z) :
  0 <= i < Z.of_nat (length a) -> getitem a i = Ok (a !!! Z.to_nat i).
Proof.
  intros Hi. unfold getitem, norm_index.
  replace (0 <=? i) with true by (symmetry; apply Z.leb_le; lia).
  replace (i <? Z.of_nat (length a)) with true by (symmetry; apply Z.ltb_lt; lia).
  simpl. destruct (lookup_lt_is_Some_2 a (Z.to_nat i)) as [x Hx]; [lia|].
  rewrite Hx. f_equal. symmetry. apply list_lookup_total_correct, Hx.
Qed.

Lemma setitem_in_range {A} (a : list A) (i : Z) (x : A) :
  0 <= i < Z.of_nat (length a) -> setitem a i x = Ok (<[Z.to_nat i := x]> a).
Proof.
  intros Hi. unfold setitem, norm_index.
  replace (0 <=? i) with true by (symmetry; apply Z.leb_le; lia).
  replace (i <? Z.of_nat (length a)) with true by (symmetry; apply Z.ltb_lt; lia).
  reflexivity.
Qed.

Lemma py_mod_pos a b : 0 < b -> py_mod a b = Ok (a mod b).
Proof.
  intros Hb. unfold py_mod.
  replace (b =? 0) with false by (symmetry; apply Z.eqb_neq; lia). reflexivity.
Qed.

Lemma getitem_insert {A} `{Inhabited A} (a : list A) (i : Z) (x : A) :
  0 <= i < Z.of_nat (length a) -> getitem (<[Z.to_nat i := x]> a) i = Ok x.
Proof.
  intros Hi. rewrite getitem_in_range by (rewrite length_insert; exact Hi).
  rewrite list_lookup_total_insert_eq by lia. reflexivity.
Qed.

Lemma for_each_cons {S X} (body : S -> X -> result S) x xs s :
  for_each body (x :: xs) s = body s x ≫= for_each body xs.
Proof. reflexivity. Qed.

(** ** The gamma line *)

Section GammaLine.

Variable x_max : Z.
Variable es : list float.
Hypothesis x_max_nonneg : 0 <= x_max.
Hypothesis es_length : length es = Z.to_nat (x_max + 1).
Hypothesis es_no_inf : Forall (fun x => F.no_inf x = true) es.

Lemma before_range i : 0 <= before x_max i <= x_max.
Proof. unfold before. pose proof (Z.mod_pos_bound (i - 1) (x_max + 1)). lia. Qed.

Lemma after_range i : 0 <= after x_max i <= x_max.
Proof. unfold after. pose proof (Z.mod_pos_bound (i + 1) (x_max + 1)). lia. Qed.

Lemma after_before k : 0 <= k <= x_max -> after x_max (before x_max k) = k.
Proof.
  intros Hk. unfold after, before.
  rewrite Zplus_mod_idemp_l. replace (k - 1 + 1) with k by lia.
  apply Z.mod_small. lia.
Qed.

Lemma before_after k : 0 <= k <= x_max -> before x_max (after x_max k) = k.
Proof.
  intros Hk. unfold after, before.
  rewrite Zminus_mod_idemp_l. replace (k + 1 - 1) with k by lia.
  apply Z.mod_small. lia.
Qed.

Lemma sample_no_inf i : 0 <= i <= x_max -> F.no_inf (sample es i) = true.
Proof.
  intros Hi. unfold sample.
  rewrite Forall_lookup in es_no_inf.
  destruct (lookup_lt_is_Some_2 es (Z.to_nat i)) as [x Hx]; [lia|].
  rewrite (list_lookup_total_correct _ _ _ Hx). eapply es_no_inf, Hx.
Qed.

(** A neighbour of an invalid sample [k] still holds what was read when
    the loop reaches [k], provided no sample before [k] is stranded. *)
Lemma neighbour_as_read k cur a :
  progress x_max es k cur ->
  invalid es k = true ->
  (forall j, 0 <= j < k -> stranded x_max es j = false) ->
  0 <= a <= x_max ->
  before x_max a = k \/ after x_max a = k ->
  sample cur a = sample es a.
Proof.
  intros [_ Hcur] Hk Hprev Ha Hnb. rewrite (Hcur a Ha).
  destruct (a <? k) eqn:Hak; [|reflexivity].
  apply Z.ltb_lt in Hak. unfold repaired.
  destruct (invalid es a) eqn:Hinv; [|reflexivity].
  specialize (Hprev a ltac:(lia)). unfold stranded in Hprev.
  rewrite Hinv in Hprev. simpl in Hprev. apply orb_false_elim in Hprev.
  destruct Hnb as [<-|<-]; destruct Hprev; congruence.
Qed.

Lemma average_is_nan i :
  0 <= i <= x_max ->
  F.is_nan (average_of_neighbours x_max es i)
  = invalid es (before x_max i) || invalid es (after x_max i).
Proof.
  intros Hi. unfold average_of_neighbours, invalid.
  rewrite half_is_nan. apply add_is_nan; apply sample_no_inf.
  - apply before_range. - apply after_range.
Qed.

Lemma body_at k cur out :
  0 <= k <= x_max ->
  progress x_max es k cur ->
  (forall j, 0 <= j < k -> stranded x_max es j = false) ->
  if stranded x_max es k
  then gamma_line_body x_max (cur, out) k = Raise too_many_nan
  else exists cur',
      gamma_line_body x_max (cur, out) k
      = Ok (cur', out ++ [WriteLine1 k (repaired x_max es k)])
      /\ progress x_max es (k + 1) cur'.
Proof.
  intros Hk Hprog Hprev.
  pose proof Hprog as [Hlen Hcur].
  assert (Hin : forall j, 0 <= j <= x_max -> 0 <= j < Z.of_nat (length cur)).
  { intros j Hj. rewrite Hlen, es_length. lia. }
  assert (Hread : sample cur k = sample es k).
  { rewrite (Hcur k Hk). rewrite Z.ltb_irrefl. reflexivity. }
  unfold stranded, gamma_line_body.
  rewrite (getitem_in_range cur k (Hin k Hk)). fold (sample cur k).
  rewrite Hread. simpl. rewrite neb_self. fold (invalid es k).
  destruct (invalid es k) eqn:Hinv; simpl.
  - rewrite !py_mod_pos by lia. simpl.
    fold (before x_max k). fold (after x_max k).
    rewrite (getitem_in_range cur _ (Hin _ (before_range k))). simpl.
    rewrite (getitem_in_range cur _ (Hin _ (after_range k))). simpl.
    fold (sample cur (before x_max k)). fold (sample cur (after x_max k)).
    rewrite (neighbour_as_read k cur (before x_max k) Hprog Hinv Hprev
               (before_range k) (or_intror (after_before k Hk))).
    rewrite (neighbour_as_read k cur (after x_max k) Hprog Hinv Hprev
               (after_range k) (or_introl (before_after k Hk))).
    fold (average_of_neighbours x_max es k).
    rewrite (setitem_in_range cur k _ (Hin k Hk)). simpl.
    rewrite (getitem_insert cur k _ (Hin k Hk)). simpl.
    rewrite neb_self, (average_is_nan k Hk).
    destruct (invalid es (before x_max k) || invalid es (after x_max k)); [reflexivity|].
    eexists. split.
    + simpl. rewrite (getitem_insert cur k _ (Hin k Hk)). simpl.
      unfold repaired. rewrite Hinv. reflexivity.
    + split; [rewrite length_insert; exact Hlen|].
      intros j Hj. unfold sample.
      destruct (Z.eq_dec j k) as [->|Hne].
      * rewrite list_lookup_total_insert_eq by (specialize (Hin k Hk); lia).
        replace (k <? k + 1) with true by (symmetry; apply Z.ltb_lt; lia).
        unfold repaired. rewrite Hinv. reflexivity.
      * rewrite list_lookup_total_insert_ne by lia.
        fold (sample cur j). rewrite (Hcur j Hj).
        replace (j <? k + 1) with (j <? k); [reflexivity|].
        destruct (Z.ltb_spec j k), (Z.ltb_spec j (k + 1)); lia.
  - rewrite (getitem_in_range cur k (Hin k Hk)). simpl.
    fold (sample cur k). rewrite Hread.
    exists cur. split.
    + unfold repaired. rewrite Hinv. reflexivity.
    + split; [exact Hlen|].
      intros j Hj. rewrite (Hcur j Hj).
      destruct (Z.eq_dec j k) as [->|Hne].
      * rewrite Z.ltb_irrefl.
        replace (k <? k + 1) with true by (symmetry; apply Z.ltb_lt; lia).
        unfold repaired. rewrite Hinv. reflexivity.
      * replace (j <? k + 1) with (j <? k); [reflexivity|].
        destruct (Z.ltb_spec j k), (Z.ltb_spec j (k + 1)); lia.
Qed.

Lemma progress_end cur :
  progress x_max es (x_max + 1) cur -> cur = repaired_line x_max es.
Proof.
  intros [Hlen Hcur]. apply list_eq. intros i.
  unfold repaired_line, range. rewrite list_lookup_fmap.
  destruct (decide (i < length cur)%nat) as [Hi|Hi].
  - rewrite (list_lookup_lookup_total_lt cur i Hi).
    rewrite lookup_seqZ_lt by lia. simpl. f_equal.
    specialize (Hcur (Z.of_nat i) ltac:(lia)).
    unfold sample in Hcur at 1. rewrite Nat2Z.id in Hcur. rewrite Hcur.
    replace (Z.of_nat i <? x_max + 1) with true
      by (symmetry; apply Z.ltb_lt; lia).
    f_equal; lia.
  - rewrite lookup_ge_None_2 by lia.
    rewrite lookup_seqZ_ge by lia. reflexivity.
Qed.

Lemma loop_from m : forall k cur out,
  0 <= k -> k + Z.of_nat m = x_max + 1 ->
  progress x_max es k cur ->
  (forall j, 0 <= j < k -> stranded x_max es j = false) ->
  for_each (gamma_line_body x_max) (seqZ k (Z.of_nat m)) (cur, out)
  = if forallb (fun j => negb (stranded x_max es j)) (seqZ k (Z.of_nat m))
    then Ok (repaired_line x_max es,
             out ++ ((fun i => WriteLine1 i (repaired x_max es i))
                       <$> seqZ k (Z.of_nat m)))
    else Raise too_many_nan.
Proof.
  induction m as [|m IH]; intros k cur out Hk Hkm Hprog Hprev.
  - simpl. rewrite app_nil_r, (progress_end cur); [reflexivity|].
    replace (x_max + 1) with k by lia. exact Hprog.
  - rewrite seqZ_cons by lia.
    replace (Z.pred (Z.of_nat (S m))) with (Z.of_nat m) by lia.
    rewrite for_each_cons, fmap_cons. cbn [forallb].
    pose proof (body_at k cur out ltac:(lia) Hprog Hprev) as Hbody.
    destruct (stranded x_max es k) eqn:Hs; cbn [negb andb].
    + rewrite Hbody. reflexivity.
    + destruct Hbody as [cur' [-> Hprog']]. cbn [mbind result_bind].
      rewrite (IH (Z.succ k)); try lia.
      * destruct (forallb _ _); [|reflexivity].
        rewrite <- app_assoc. reflexivity.
      * replace (Z.succ k) with (k + 1) by lia. exact Hprog'.
      * intros j Hj. destruct (Z.eq_dec j k) as [->|]; [exact Hs|].
        apply Hprev. lia.
Qed.

Lemma gamma_line_repair_eq :
  gamma_line_repair x_max es
  = if forallb (fun j => negb (stranded x_max es j)) (range (x_max + 1))
    then Ok (repaired_line x_max es, written_line x_max es)
    else Raise too_many_nan.
Proof.
  unfold gamma_line_repair.
  rewrite getitem_in_range by lia. cbn [mbind result_bind]. unfold range.
  assert (Hstart : progress x_max es 0 es).
  { split; [reflexivity|]. intros j Hj.
    replace (j <? 0) with false by (symmetry; apply Z.ltb_ge; lia).
    reflexivity. }
  pose proof (loop_from (Z.to_nat (x_max + 1)) 0 es [] ltac:(lia) ltac:(lia)
                Hstart ltac:(intros; lia)) as Hloop.
  rewrite Z2Nat.id in Hloop by lia. exact Hloop.
Qed.

End GammaLine.

(** Claim C2, as amended.  On a gamma line of [x_max + 1] samples whose
    valid samples are finite, the repair raises "Too many NaN values."
    exactly when some invalid sample has at least one invalid neighbour
    among the samples at [(i-1) mod (x_max+1)] and [(i+1) mod (x_max+1)];
    and exactly when no invalid sample has such a neighbour it returns the
    line in which every invalid sample is the average [0.5*(left + right)]
    of those two neighbours, every other sample being kept. *)
Theorem C2_gamma_line_repair (x_max : Z) (energies : list float) :
  0 <= x_max ->
  length energies = Z.to_nat (x_max + 1) ->
  Forall (fun x => F.no_inf x = true) energies ->
  ((exists i, 0 <= i <= x_max /\ invalid energies i = true
              /\ (invalid energies (before x_max i) = true
                  \/ invalid energies (after x_max i) = true))
   <-> gamma_line_repair x_max energies = Raise too_many_nan)
  /\ ((forall i, 0 <= i <= x_max -> invalid energies i = true ->
                 invalid energies (before x_max i) = false
                 /\ invalid energies (after x_max i) = false)
      <-> gamma_line_repair x_max energies
          = Ok (repaired_line x_max energies, written_line x_max energies)).
Proof.
  intros Hx Hlen Hfin.
  rewrite (gamma_line_repair_eq x_max energies Hx Hlen Hfin).
  destruct (forallb _ _) eqn:Hall.
  - rewrite forallb_forall in Hall.
    assert (Hno : forall i, 0 <= i <= x_max -> stranded x_max energies i = false).
    { intros i Hi. apply negb_true_iff, Hall, list_elem_of_In, elem_of_seqZ. lia. }
    split; split.
    + intros (i & Hi & Hinv & Hnb). specialize (Hno i Hi).
      unfold stranded in Hno. rewrite Hinv in Hno.
      destruct Hnb as [H|H]; rewrite H in Hno; simpl in Hno;
        try rewrite orb_true_r in Hno; discriminate.
    + discriminate.
    + reflexivity.
    + intros _ i Hi Hinv. specialize (Hno i Hi).
      unfold stranded in Hno. rewrite Hinv in Hno.
      apply orb_false_elim in Hno. exact Hno.
  - assert (Hex : exists i, 0 <= i <= x_max /\ stranded x_max energies i = true).
    { apply not_true_iff_false in Hall.
      destruct (existsb (stranded x_max energies) (range (x_max + 1))) eqn:Hexb.
      - apply existsb_exists in Hexb. destruct Hexb as (i & Hin & Hs).
        exists i. split; [|exact Hs].
        apply list_elem_of_In, elem_of_seqZ in Hin. lia.
      - exfalso. apply Hall, forallb_forall. intros i Hin.
        apply negb_true_iff. destruct (stranded x_max energies i) eqn:Hs; [|reflexivity].
        rewrite <- Hexb. symmetry. apply existsb_exists. exists i. auto. }
    destruct Hex as (i & Hi & Hs). unfold stranded in Hs.
    apply andb_prop in Hs. destruct Hs as [Hinv Hnb]. apply orb_prop in Hnb.
    split; split.
    + reflexivity.
    + intros _. exists i. auto.
    + intros Hno. destruct (Hno i Hi Hinv) as [Ha Hb].
      destruct Hnb; congruence.
    + discriminate.
Qed.

(** The line [2.0, nan, 4.0] is repaired to [2.0, 3.0, 4.0]. *)
Lemma C2_gamma_line_repair_witness :
  gamma_line_repair 2 [F.of_Z 2; F.nan; F.of_Z 4]
  = Ok ([F.of_Z 2; F.of_Z 3; F.of_Z 4],
        [WriteLine1 0 (F.of_Z 2); WriteLine1 1 (F.of_Z 3); WriteLine1 2 (F.of_Z 4)]).
Proof.
  pose proof (C2_gamma_line_repair 2 [F.of_Z 2; F.nan; F.of_Z 4]
                ltac:(lia) eq_refl
                ltac:(repeat constructor)) as [_ [Hok _]].
  rewrite Hok; [vm_compute; reflexivity|].
  intros i Hi Hinv.
  assert (Hcases : i = 0 \/ i = 1 \/ i = 2) by lia.
  destruct Hcases as [-> | [-> | ->]]; vm_compute in Hinv |- *;
    try discriminate; split; reflexivity.
Defined.

(** Claim C2 as stated fails: in [2.0, nan, nan, 4.0] no invalid sample has
    both its neighbours invalid, and the repair raises all the same. *)
Lemma C2_counterexample :
  let energies := [F.of_Z 2; F.nan; F.nan; F.of_Z 4] in
  gamma_line_repair 3 energies = Raise too_many_nan
  /\ forall i, 0 <= i <= 3 -> invalid energies i = true ->
       invalid energies (before 3 i) && invalid energies (after 3 i) = false.
Proof.
  split; [vm_compute; reflexivity|].
  intros i Hi Hinv.
  assert (Hcases : i = 0 \/ i = 1 \/ i = 2 \/ i = 3) by lia.
  destruct Hcases as [->|[-> | [-> | ->]]]; vm_compute in Hinv |- *;
    try discriminate; reflexivity.
Qed.

(** ** The gamma surface *)

(** Claim C1, a defect of the code.  On the 3 by 3 surface below the
    neighbours of the invalid cell (1, 1), each axis wrapping at its own
    count, are (2, 1), (0, 1), (1, 2) and (1, 0), and the average of the
    real ones is 3.0.  The code wraps at [x_max] and [y_max], one less than
    the counts: it reads (0, 1) and (1, 0) twice and writes 0.0. *)
Theorem C1_gamma_surface_wraps_at_x_max :
  let o := F.zero in
  let energies := [ [o; o; o]; [o; F.nan; F.of_Z 6]; [o; F.of_Z 6; o] ] in
  toroidal_neighbours 2 2 1 1 = [(2, 1); (0, 1); (1, 2); (1, 0)]
  /\ toroidal_average 2 2 energies 1 1 = Some (F.of_Z 3)
  /\ signatures 2 2 1 1 = Ok [(0, 1); (0, 1); (1, 0); (1, 0)]
  /\ exists energies' out,
       gamma_surface_repair 2 2 energies = Ok (energies', out)
       /\ cell energies' 1 1 = F.zero.
Proof.
  repeat split; try (vm_compute; reflexivity).
  eexists. eexists. split; vm_compute; reflexivity.
Qed.

(** Claim C6, a defect of the code, the one of claim C1.  A surface of a
    single cell that is invalid has no real neighbour; with [x_max = 0]
    the wrap of line 167 divides by zero and the repair raises, where the
    claim has the cell set to -10000. *)
Theorem C6_single_cell_raises :
  toroidal_average 0 0 [ [F.nan] ] 0 0 = None
  /\ gamma_surface_repair 0 0 [ [F.nan] ] = Raise ZeroDivisionError.
Proof. split; vm_compute; reflexivity. Qed.

(** Where the moduli are not zero the sentinel path is taken: in a grid
    without any number the first cell has no real neighbour. *)
Example sentinel_without_real_neighbours :
  exists out,
    gamma_surface_repair 1 1 [ [F.nan; F.nan]; [F.nan; F.nan] ]
    = Ok ([ [sentinel; sentinel]; [sentinel; sentinel] ], PrintWarning :: out).
Proof. eexists. vm_compute. reflexivity. Qed.

(** ** The elasticity mode *)

Lemma lookup2_store2_eq d namelist card v d' :
  store2 d namelist card v = Ok d' -> lookup2 d' namelist card = Ok v.
Proof.
  unfold store2, lookup2. destruct (d !! namelist) as [nl|] eqn:E; [|discriminate].
  intros [= <-]. rewrite lookup_insert_eq, lookup_insert_eq. reflexivity.
Qed.

Lemma store2_elast_ok d card v :
  is_Ok (lookup2 d "elast" card) = true ->
  exists d', store2 d "elast" "coefficients" v = Ok d'.
Proof.
  unfold lookup2, store2. destruct (d !! "elast"); [eauto|discriminate].
Qed.

(** Claim C3.  On a resolved [elast] namelist the mode written to
    [coefficients] is the first, in the order explicit coefficients, tensor,
    Poisson's ratio, bulk modulus, whose cards are given; with both
    [k_parallel] and [cij] given it is ['specific']; and the selection
    raises "No elastic properties have been provided." exactly when no mode
    has its cards. *)
Theorem C3_mode_by_priority (d : pdict) :
  elast_resolved d ->
  select_coefficients d
  = match mode_by_priority d with
    | Some mode => store2 d "elast" "coefficients" (VStr mode)
    | None => Raise no_elastic_properties
    end
  /\ (populated d "k_parallel" = true -> populated d "cij" = true ->
      exists d', select_coefficients d = Ok d'
                 /\ lookup2 d' "elast" "coefficients" = Ok (VStr "specific"))
  /\ (mode_by_priority d = None <->
      select_coefficients d = Raise no_elastic_properties).
Proof.
  intros Hres.
  assert (Hsel : select_coefficients d
                 = match mode_by_priority d with
                   | Some mode => store2 d "elast" "coefficients" (VStr mode)
                   | None => Raise no_elastic_properties
                   end).
  { unfold select_coefficients, mode_by_priority, populated.
    pose proof (Hres "k_parallel" ltac:(simpl; tauto)) as Hk.
    pose proof (Hres "cij" ltac:(simpl; tauto)) as Hc.
    pose proof (Hres "shear" ltac:(simpl; tauto)) as Hs.
    pose proof (Hres "poisson" ltac:(simpl; tauto)) as Hp.
    pose proof (Hres "bulk" ltac:(simpl; tauto)) as Hb.
    destruct (lookup2 d "elast" "k_parallel") as [k|]; [|discriminate].
    cbn [mbind result_bind]. destruct (is_None k); cbn [negb]; [|reflexivity].
    destruct (lookup2 d "elast" "cij") as [c|]; [|discriminate].
    cbn [mbind result_bind]. destruct (is_None c); cbn [negb]; [|reflexivity].
    destruct (lookup2 d "elast" "shear") as [s|]; [|discriminate].
    cbn [mbind result_bind]. destruct (is_None s); cbn [negb andb]; [reflexivity|].
    destruct (lookup2 d "elast" "poisson") as [p|]; [|discriminate].
    cbn [mbind result_bind]. destruct (is_None p); cbn [negb]; [|reflexivity].
    destruct (lookup2 d "elast" "bulk") as [b|]; [|discriminate].
    cbn [mbind result_bind]. destruct (is_None b); reflexivity. }
  split; [exact Hsel|]. split.
  - intros Hk _. rewrite Hsel. unfold mode_by_priority. rewrite Hk.
    destruct (store2_elast_ok d "k_parallel" (VStr "specific")) as [d' Hd'].
    { apply Hres. simpl. tauto. }
    exists d'. split; [exact Hd'|]. eapply lookup2_store2_eq, Hd'.
  - rewrite Hsel. destruct (mode_by_priority d) as [mode|]; split;
      try discriminate; try reflexivity.
    intros Hst. destruct (store2_elast_ok d "k_parallel" (VStr mode)) as [d' Hd'].
    { apply Hres. simpl. tauto. }
    rewrite Hd' in Hst. discriminate.
Qed.

(** A namelist with both [k_parallel] and [cij]. *)
Lemma C3_mode_by_priority_witness :
  let d : pdict :=
    {[ "elast" := {[ "k_parallel" := VFloat F.one; "cij" := VObject "cij";
                     "shear" := VNone; "poisson" := VNone; "bulk" := VNone ]} ]} in
  exists d', select_coefficients d = Ok d'
             /\ lookup2 d' "elast" "coefficients" = Ok (VStr "specific").
Proof.
  intros d.
  refine (proj1 (proj2 (C3_mode_by_priority d _)) eq_refl eq_refl).
  intros card Hin. simpl in Hin.
  destruct Hin as [<- | [<- | [<- | [<- | [<- | []]]]]]; vm_compute; reflexivity.
Defined.

(** ** The guard on the number of columns *)

(** Claim C7.  When the last dimension of the grid that was read is
    neither 2 nor 3, [construct_gsf] raises "GSF grid has invalid number
    of dimensions", and the only call it has made into [fit_gsf] is the
    one that read the grid. *)
Theorem C7_invalid_dimensions (fg : fit_gsf) (self : PNSim)
    (gsf_file gsf_grid units : pyval) (shape : list Z) (n_columns : Z) :
  lookup2 (sim self) "control" "gsf_file" = Ok gsf_file ->
  read_numerical_gsf fg gsf_file = Ok (shape, gsf_grid, units) ->
  getitem shape (-1) = Ok n_columns ->
  n_columns <> 2 -> n_columns <> 3 ->
  construct_gsf fg self [] = (Raise invalid_dimensions, [Read_numerical_gsf])
  /\ existsb is_fit (construct_gsf fg self []).2 = false.
Proof.
  intros Hfile Hread Hcols H2 H3.
  assert (Hrun : construct_gsf fg self []
                 = (Raise invalid_dimensions, [Read_numerical_gsf])).
  { unfold construct_gsf, control, lift, called, mbind, traced_bind.
    rewrite Hfile, Hread, Hcols. cbn [app].
    replace (n_columns =? 2) with false by (symmetry; apply Z.eqb_neq; exact H2).
    replace (n_columns =? 3) with false by (symmetry; apply Z.eqb_neq; exact H3).
    reflexivity. }
  rewrite Hrun. split; reflexivity.
Qed.

(** A grid of four columns. *)
Lemma C7_invalid_dimensions_witness :
  let fg := FitGsf (fun _ => Ok ([25; 4], VObject "grid", VStr "eV"))
                   (fun _ _ => Ok (VObject "fit")) in
  let self := MkPNSim {[ "control" := {[ "gsf_file" := VStr "gsf.dat" ]} ]}
                      None None in
  construct_gsf fg self [] = (Raise invalid_dimensions, [Read_numerical_gsf])
  /\ existsb is_fit (construct_gsf fg self []).2 = false.
Proof.
  intros fg self.
  apply (C7_invalid_dimensions fg self (VStr "gsf.dat") (VObject "grid")
           (VStr "eV") [25; 4] 4); try reflexivity; lia.
Defined.

(** ** The extraction of an energy *)

(** Claim C10, as amended.  When the output has a match of the energy
    pattern and the name of the program, in lower case, is not ['gulp'],
    [get_gsf_energy] ends on the unbound local variable [E]; and when it
    returns, either nothing matched and it returns a not-a-number with no
    units, or the program is GULP. *)
Theorem C10_unbound_energy (rt : runtime) (fs : string -> option string)
    (energy_regex : Re.re) (prog base_name suffix : string) (i : Z)
    (j : option Z) (indir : bool) (output_lines : string) :
  fs (gsf_filename base_name suffix i j indir) = Some output_lines ->
  (findall2 energy_regex output_lines <> [] -> lower prog <> "gulp" ->
   get_gsf_energy rt fs energy_regex prog base_name suffix i j indir
   = Raise (unbound "E"))
  /\ (forall r,
        get_gsf_energy rt fs energy_regex prog base_name suffix i j indir = Ok r ->
        (findall2 energy_regex output_lines = [] /\ r = (F.nan, None))
        \/ lower prog = "gulp").
Proof.
  intros Hfile. unfold get_gsf_energy. rewrite Hfile. cbn [mbind result_bind].
  destruct (findall2 energy_regex output_lines) as [|m ms] eqn:Hm.
  - split; [intros H; contradiction|].
    cbn [mbind result_bind]. intros r [= <-]. left. split; reflexivity.
  - destruct (String.eqb_spec (lower prog) "gulp") as [Hg|Hg].
    + split; [intros _ H; contradiction|]. intros r _. right. exact Hg.
    + split; [intros _ _; reflexivity|].
      cbn [mbind result_bind]. discriminate.
Qed.

(** The program ['qe'] on an output that matches its pattern. *)
Lemma C10_unbound_energy_witness :
  get_gsf_energy Py27Eval.rt (one_file "gsf.0.out" gulp_output) qe_energy "qe"
                 "gsf" "out" 0 None false
  = Raise (unbound "E").
Proof.
  apply (C10_unbound_energy Py27Eval.rt (one_file "gsf.0.out" gulp_output)
           qe_energy "qe" "gsf" "out" 0 None false gulp_output eq_refl).
  - vm_compute. discriminate.
  - vm_compute. discriminate.
Defined.

(** Claim C10 as stated fails: ['GULP'] is a name other than ['gulp'], its
    output matches, and the call returns the energy. *)
Lemma C10_counterexample :
  "GULP" <> "gulp"
  /\ findall2 gulp_energy gulp_output = [("-12.50000000", "eV")]
  /\ get_gsf_energy Py27Eval.rt (one_file "gsf.0.out" gulp_output) gulp_energy
                    "GULP" "gsf" "out" 0 None false
     = Ok (F.div (F.of_Z (-25)) (F.of_Z 2), Some "eV").
Proof. repeat split; try discriminate; vm_compute; reflexivity. Qed.

(** ** Tokens and the pattern of [to_vector] *)

Lemma string_app_cons c (a b : string) :
  (String c a ++ b)%string = String c (a ++ b).
Proof. reflexivity. Qed.

Lemma string_app_nil_l (b : string) : ("" ++ b)%string = b.
Proof. reflexivity. Qed.

Lemma string_app_nil_r (s : string) : (s ++ "")%string = s.
Proof.
  induction s as [|c s IH]; [reflexivity|].
  rewrite string_app_cons, IH. reflexivity.
Qed.

Lemma string_app_assoc (a b c : string) :
  ((a ++ b) ++ c)%string = (a ++ (b ++ c))%string.
Proof.
  induction a as [|x a IH]; [reflexivity|].
  rewrite !string_app_cons, IH. reflexivity.
Qed.

Lemma string_length_app (a b : string) :
  String.length (a ++ b) = (String.length a + String.length b)%nat.
Proof.
  induction a as [|x a IH]; [reflexivity|].
  rewrite string_app_cons. simpl. rewrite IH. reflexivity.
Qed.

Lemma take_string_app (t r : string) :
  take_string (String.length (t ++ r) - String.length r) (t ++ r) = t.
Proof.
  rewrite string_length_app.
  replace (String.length t + String.length r - String.length r)%nat
    with (String.length t) by lia.
  induction t as [|c t IH].
  - rewrite string_app_nil_l. destruct r; reflexivity.
  - rewrite string_app_cons. simpl. rewrite IH. reflexivity.
Qed.




(** A greedy repetition takes a whole run when what follows succeeds. *)
Lemma many_greedy {R} cls (k : string -> groups -> option R) g x :
  forall d r min,
    every cls d = true -> ends_run cls r = true ->
    (min <= String.length d)%nat ->
    k r g = Some x ->
    many cls min k (d ++ r) g = Some x.
Proof.
  induction d as [|c d IH]; intros r min Hd Hr Hmin Hk.
  - simpl in Hmin. assert (min = 0%nat) as -> by lia.
    rewrite string_app_nil_l.
    destruct r as [|c r]; simpl; [exact Hk|].
    simpl in Hr. apply negb_true_iff in Hr. rewrite Hr. exact Hk.
  - simpl in Hd. apply andb_prop in Hd. destruct Hd as [Hc Hd].
    rewrite string_app_cons. simpl. rewrite Hc.
    rewrite (IH r (Nat.pred min) Hd Hr ltac:(simpl in Hmin; lia) Hk).
    reflexivity.
Qed.














(** ** The dictionary *)

Lemma bind_Ok {A B} (r : result A) (k : A -> result B) (b : B) :
  r ≫= k = Ok b -> exists a, r = Ok a /\ k a = Ok b.
Proof. destruct r as [a|e]; [eauto|discriminate]. Qed.

Lemma lookup2_Ok d namelist card v :
  lookup2 d namelist card = Ok v <-> card_value d namelist card = Some v.
Proof.
  unfold lookup2, card_value. destruct (d !! namelist) as [nl|]; simpl.
  - destruct (nl !! card); split; congruence.
  - split; discriminate.
Qed.

Lemma lookup2_None d namelist card :
  card_value d namelist card = None ->
  exists key, lookup2 d namelist card = Raise (KeyError key).
Proof.
  unfold lookup2, card_value. destruct (d !! namelist) as [nl|]; simpl; [|eauto].
  destruct (nl !! card); [discriminate|eauto].
Qed.

Lemma lookup2_cases d namelist card :
  match card_value d namelist card with
  | Some v => lookup2 d namelist card = Ok v
  | None => exists key, lookup2 d namelist card = Raise (KeyError key)
  end.
Proof.
  destruct (card_value d namelist card) eqn:E.
  - apply lookup2_Ok, E.
  - apply lookup2_None, E.
Qed.

Lemma card_value_store2 d namelist card v d' namelist' card' :
  store2 d namelist card v = Ok d' ->
  card_value d' namelist' card'
  = if decide ((namelist', card') = (namelist, card)) then Some v
    else card_value d namelist' card'.
Proof.
  unfold store2, card_value. destruct (d !! namelist) as [nl|] eqn:E; [|discriminate].
  intros [= <-]. destruct (decide (namelist' = namelist)) as [->|Hn].
  - rewrite lookup_insert_eq, E. simpl.
    destruct (decide (card' = card)) as [->|Hc].
    + rewrite lookup_insert_eq. rewrite decide_True by reflexivity. reflexivity.
    + rewrite lookup_insert_ne by congruence.
      rewrite decide_False by congruence. reflexivity.
  - rewrite lookup_insert_ne by congruence.
    rewrite decide_False by congruence. reflexivity.
Qed.

Lemma store2_updated d namelist card v d' :
  store2 d namelist card v = Ok d' ->
  updated_at d namelist card d' /\ card_value d' namelist card = Some v.
Proof.
  intros H. assert (Hv : card_value d' namelist card = Some v).
  { rewrite (card_value_store2 _ _ _ _ _ _ _ H), decide_True; reflexivity. }
  split; [|exact Hv]. split; [rewrite Hv; eauto|].
  intros n' c' Hne. rewrite (card_value_store2 _ _ _ _ _ _ _ H).
  rewrite decide_False by exact Hne. reflexivity.
Qed.

Lemma updated_refl d namelist card :
  is_Some (card_value d namelist card) -> updated_at d namelist card d.
Proof. intros H. split; [exact H|reflexivity]. Qed.

Lemma updated_trans d d1 d2 namelist card :
  updated_at d namelist card d1 -> updated_at d1 namelist card d2 ->
  updated_at d namelist card d2.
Proof.
  intros [_ H1] [Hs H2]. split; [exact Hs|].
  intros n' c' Hne. rewrite (H2 n' c' Hne). apply H1, Hne.
Qed.

Section Frames.

Variable rt : runtime.

Lemma from_mapping_updated d namelist card d' :
  from_mapping rt d namelist card = Ok d' -> updated_at d namelist card d'.
Proof.
  unfold from_mapping. intros H.
  repeat (apply bind_Ok in H; destruct H as [? [_ H]]).
  apply store2_updated in H. apply H.
Qed.

Lemma change_type_updated d namelist card new_type d' :
  change_type rt d namelist card new_type = Ok d' -> updated_at d namelist card d'.
Proof.
  unfold change_type. intros H.
  apply bind_Ok in H. destruct H as [v [Hv H]].
  apply bind_Ok in H. destruct H as [s [_ H]].
  destruct (convert rt new_type s) as [v'|e].
  - apply store2_updated in H. apply H.
  - destruct e; try discriminate.
    destruct (contains "np.pi" s || contains "np.e" s).
    + apply bind_Ok in H. destruct H as [v' [_ H]].
      apply store2_updated in H. apply H.
    + injection H as <-. apply updated_refl.
      apply lookup2_Ok in Hv. rewrite Hv. eauto.
Qed.

Lemma change_or_map_updated d namelist card new_type d' :
  change_or_map rt d namelist card new_type = Ok d' ->
  updated_at d namelist card d' /\ is_Some (card_value d namelist card).
Proof.
  unfold change_or_map. intros H.
  destruct (lookup2 d namelist card) as [x|e] eqn:Hx.
  - split; [|apply lookup2_Ok in Hx; rewrite Hx; eauto].
    apply bind_Ok in H. destruct H as [s [_ H]].
    destruct (contains "map" s).
    + eapply from_mapping_updated, H.
    + eapply change_type_updated, H.
  - destruct e; discriminate.
Qed.

Lemma change_or_map_absent d namelist card new_type :
  card_value d namelist card = None ->
  change_or_map rt d namelist card new_type = Raise (ValueError "").
Proof.
  intros H. unfold change_or_map.
  destruct (lookup2_None d namelist card H) as [key ->]. reflexivity.
Qed.

Lemma handle_card_updated namelist d var d' :
  handle_card rt namelist d var = Ok d' -> updated_at d namelist (c_name var) d'.
Proof.
  unfold handle_card. intros H.
  destruct (change_or_map rt d namelist (c_name var) (c_type var)) as [d1|e] eqn:Hc.
  - injection H as <-. eapply change_or_map_updated, Hc.
  - destruct e; try discriminate.
    destruct (is_None (c_default var)); [discriminate|].
    apply bind_Ok in H. destruct H as [d1 [Hst H]].
    apply store2_updated in Hst. destruct Hst as [Hst _].
    assert (Hkeep : d' = d1 -> updated_at d namelist (c_name var) d')
      by (intros ->; exact Hst).
    destruct (c_default var); try (injection H as <-; exact Hst).
    destruct (contains "map" s); [|injection H as <-; exact Hst].
    eapply updated_trans; [exact Hst|]. eapply from_mapping_updated, H.
Qed.

Lemma handle_elast_card_updated d var d' :
  handle_elast_card rt d var = Ok d' -> updated_at d "elast" (c_name var) d'.
Proof.
  unfold handle_elast_card. intros H.
  destruct (change_or_map rt d "elast" (c_name var) (c_type var)) as [d1|e] eqn:Hc.
  - injection H as <-. eapply change_or_map_updated, Hc.
  - destruct e; try discriminate. apply store2_updated in H. apply H.
Qed.

End Frames.

(** ** The passes over the card tables *)

Lemma for_each_app {S X} (body : S -> X -> result S) xs ys s :
  for_each body (xs ++ ys) s = for_each body xs s ≫= for_each body ys.
Proof.
  revert s. induction xs as [|x xs IH]; intros s; [reflexivity|].
  cbn [app for_each]. destruct (body s x); [apply IH|reflexivity].
Qed.

(** A pass whose steps each update their own card leaves every card of its
    table in the dictionary, and every other card as it was. *)
Lemma pass_updated (step : pdict -> card -> result pdict) (namelist : string) :
  (forall d var d', step d var = Ok d' -> updated_at d namelist (c_name var) d') ->
  forall cards d d',
    for_each step cards d = Ok d' ->
    (forall c, In c (List.map c_name cards) ->
               is_Some (card_value d' namelist c))
    /\ (forall namelist' c',
          namelist' <> namelist \/ ~ In c' (List.map c_name cards) ->
          card_value d' namelist' c' = card_value d namelist' c').
Proof.
  intros Hstep. induction cards as [|var cards IH]; intros d d' H.
  - injection H as <-. split; [intros c []|reflexivity].
  - rewrite for_each_cons in H. apply bind_Ok in H. destruct H as [d1 [H1 H]].
    destruct (Hstep d var d1 H1) as [Hhas Hframe].
    destruct (IH d1 d' H) as [IHhas IHframe]. split.
    + intros c Hc.
      destruct (in_dec string_dec c (List.map c_name cards)) as [Hin|Hout].
      * apply IHhas, Hin.
      * rewrite IHframe by (right; exact Hout).
        destruct Hc as [<-|Hc]; [exact Hhas|contradiction].
    + intros n' c' Hne. rewrite IHframe.
      * apply Hframe. destruct Hne as [Hn|Hc]; [congruence|].
        intros [= -> ->]. apply Hc. simpl. auto.
      * destruct Hne as [Hn|Hc]; [auto|]. right. intros Hin. apply Hc.
        simpl. auto.
Qed.

(** The step of one card in the middle of a pass. *)
Lemma pass_split (step : pdict -> card -> result pdict) (namelist : string) :
  (forall d var d', step d var = Ok d' -> updated_at d namelist (c_name var) d') ->
  forall before var after d d',
    for_each step (before ++ var :: after) d = Ok d' ->
    exists d1 d2,
      step d1 var = Ok d2
      /\ (forall namelist' c',
            namelist' <> namelist \/ ~ In c' (List.map c_name before) ->
            card_value d1 namelist' c' = card_value d namelist' c')
      /\ (forall namelist' c',
            namelist' <> namelist \/ ~ In c' (List.map c_name after) ->
            card_value d' namelist' c' = card_value d2 namelist' c').
Proof.
  intros Hstep before var after d d' H.
  rewrite for_each_app in H. apply bind_Ok in H. destruct H as [d1 [H1 H]].
  rewrite for_each_cons in H. apply bind_Ok in H. destruct H as [d2 [H2 H]].
  exists d1, d2. split; [exact H2|]. split.
  - apply (pass_updated step namelist Hstep before d d1 H1).
  - apply (pass_updated step namelist Hstep after d2 d' H).
Qed.

Lemma add_namelist_same d name :
  exists d', add_namelist d name = Ok d'
             /\ forall namelist card,
                  card_value d' namelist card = card_value d namelist card.
Proof.
  unfold add_namelist. destruct (d !! name) eqn:E; [eauto|].
  eexists. split; [reflexivity|]. intros n c. unfold card_value.
  destruct (decide (n = name)) as [->|Hn].
  - rewrite lookup_insert_eq, E. reflexivity.
  - rewrite lookup_insert_ne by congruence. reflexivity.
Qed.

Lemma add_namelists_same names : forall d,
  exists d', for_each add_namelist names d = Ok d'
             /\ forall namelist card,
                  card_value d' namelist card = card_value d namelist card.
Proof.
  induction names as [|name names IH]; intros d; [eauto|].
  destruct (add_namelist_same d name) as [d1 [H1 Hs1]].
  destruct (IH d1) as [d' [H' Hs']].
  exists d'. split.
  - rewrite for_each_cons, H1. exact H'.
  - intros n c. rewrite Hs'. apply Hs1.
Qed.

Section Run.

Variable rt : runtime.

Lemma schema_pass d :
  for_each (handle_namelist rt) schema d
  = (d ← for_each (handle_card rt "control") control_cards d;
     d ← for_each (handle_card rt "struc") struc_cards d;
     d ← for_each (handle_card rt "surface") surf_cards d;
     d ← for_each (handle_card rt "properties") prop_cards d;
     for_each (handle_card rt "stress") stress_cards d).
Proof.
  unfold schema. rewrite !for_each_cons.
  change (handle_namelist rt d ("control", control_cards))
    with (for_each (handle_card rt "control") control_cards d).
  destruct (for_each (handle_card rt "control") control_cards d) as [d1|];
    [|reflexivity].
  cbn [mbind result_bind]. rewrite !for_each_cons.
  change (handle_namelist rt d1 ("struc", struc_cards))
    with (for_each (handle_card rt "struc") struc_cards d1).
  destruct (for_each (handle_card rt "struc") struc_cards d1) as [d2|];
    [|reflexivity].
  cbn [mbind result_bind]. rewrite !for_each_cons.
  change (handle_namelist rt d2 ("elast", elast_cards)) with (Ok d2 : result pdict).
  cbn [mbind result_bind]. rewrite !for_each_cons.
  change (handle_namelist rt d2 ("surface", surf_cards))
    with (for_each (handle_card rt "surface") surf_cards d2).
  destruct (for_each (handle_card rt "surface") surf_cards d2) as [d3|];
    [|reflexivity].
  cbn [mbind result_bind]. rewrite !for_each_cons.
  change (handle_namelist rt d3 ("properties", prop_cards))
    with (for_each (handle_card rt "properties") prop_cards d3).
  destruct (for_each (handle_card rt "properties") prop_cards d3) as [d4|];
    [|reflexivity].
  cbn [mbind result_bind]. rewrite !for_each_cons.
  change (handle_namelist rt d4 ("stress", stress_cards))
    with (for_each (handle_card rt "stress") stress_cards d4).
  destruct (for_each (handle_card rt "stress") stress_cards d4) as [d5|];
    reflexivity.
Qed.

Lemma handle_pn_control_course d d' :
  handle_pn_control rt d = Ok d' -> course rt d d'.
Proof.
  unfold handle_pn_control. intros H.
  destruct (add_namelists_same namelists d) as [d0 [H0 Hsame]].
  rewrite H0 in H. cbn [mbind result_bind] in H.
  rewrite schema_pass in H.
  apply bind_Ok in H. destruct H as [d5 [H H6]].
  apply bind_Ok in H. destruct H as [d1 [H1 H]].
  apply bind_Ok in H. destruct H as [d2 [H2 H]].
  apply bind_Ok in H. destruct H as [d3 [H3 H]].
  apply bind_Ok in H. destruct H as [d4 [H4 H5]].
  apply bind_Ok in H6. destruct H6 as [d6 [H6 H7]].
  exact (Course rt d d' d0 d1 d2 d3 d4 d5 d6 Hsame H1 H2 H3 H4 H5 H6 H7).
Qed.

End Run.

Section Cards.

Variable rt : runtime.



Lemma handle_elast_card_absent d var :
  is_Some (d !! "elast") ->
  card_value d "elast" (c_name var) = None ->
  exists d', handle_elast_card rt d var = Ok d'
             /\ card_value d' "elast" (c_name var) = Some (c_default var).
Proof.
  intros [nl Hnl] Habs. unfold handle_elast_card.
  rewrite (change_or_map_absent rt d "elast" (c_name var) (c_type var) Habs).
  assert (Hst : exists d', store2 d "elast" (c_name var) (c_default var) = Ok d').
  { unfold store2. rewrite Hnl. eauto. }
  destruct Hst as [d' Hst]. exists d'. split; [exact Hst|].
  apply store2_updated in Hst. apply Hst.
Qed.

Lemma select_coefficients_frame d d' :
  select_coefficients d = Ok d' ->
  forall namelist card,
    (namelist, card) <> ("elast", "coefficients") ->
    card_value d' namelist card = card_value d namelist card.
Proof.
  intros H.
  assert (Hst : exists v, store2 d "elast" "coefficients" v = Ok d').
  { unfold select_coefficients in H.
    apply bind_Ok in H. destruct H as [k [_ H]].
    destruct (negb (is_None k)); [eauto|].
    apply bind_Ok in H. destruct H as [c [_ H]].
    destruct (negb (is_None c)); [eauto|].
    apply bind_Ok in H. destruct H as [s [_ H]].
    destruct (negb (is_None s)); [|discriminate].
    apply bind_Ok in H. destruct H as [p [_ H]].
    destruct (negb (is_None p)); [eauto|].
    apply bind_Ok in H. destruct H as [b [_ H]].
    destruct (negb (is_None b)); [eauto|discriminate]. }
  destruct Hst as [v Hst]. apply store2_updated in Hst.
  destruct Hst as [[_ Hframe] _]. exact Hframe.
Qed.

(** A card that is not given and whose default is the mapping of [a]: its
    value is what [eval] makes of the text of the value of [a]. *)
Lemma default_mapping namelist d var d' :
  c_default var = a_mapping ->
  (namelist, c_name var) <> ("struc", "a") ->
  card_value d namelist (c_name var) = None ->
  handle_card rt namelist d var = Ok d' ->
  exists va text f vb,
    card_value d "struc" "a" = Some va
    /\ py_format rt va = Ok text
    /\ py_eval rt f (identity_applied text) = Ok vb
    /\ card_value d' namelist (c_name var) = Some vb.
Proof.
  intros Hdef Hne Habs. unfold a_mapping in Hdef. unfold handle_card.
  rewrite (change_or_map_absent rt d namelist (c_name var) (c_type var) Habs).
  rewrite Hdef. cbn [is_None]. intros H.
  apply bind_Ok in H. destruct H as [d1 [Hst H]].
  change (contains "map" "map struc > a: x -> x") with true in H. cbv iota in H.
  apply store2_updated in Hst. destruct Hst as [[_ Hframe] Hval].
  unfold from_mapping in H.
  apply lookup2_Ok in Hval. rewrite Hval in H. cbn [mbind result_bind as_str] in H.
  assert (Hsearch : search map_form "map struc > a: x -> x"
                    = Some ("map struc > a: x -> x",
                            [("expr", "x"); ("var", "x"); ("val", "a");
                             ("namelist", "struc")], ""))
    by (vm_compute; reflexivity).
  rewrite Hsearch in H. cbn [group_of group String.eqb Ascii.eqb Bool.eqb] in H.
  cbn [mbind result_bind] in H.
  apply bind_Ok in H. destruct H as [va [Hva H]].
  apply bind_Ok in H. destruct H as [text [Htext H]].
  apply bind_Ok in H. destruct H as [vb [Hvb H]].
  apply store2_updated in H. destruct H as [_ Hres].
  apply lookup2_Ok in Hva. rewrite Hframe in Hva by congruence.
  eexists va, text, _, vb. repeat split; eauto.
Qed.

End Cards.

(** ** Resolution as a whole *)

Section Resolution.

Variable rt : runtime.

Lemma after_struc d d' :
  course rt d d' ->
  exists k_control k_struc,
    for_each (handle_card rt "struc") struc_cards k_control = Ok k_struc
    /\ (forall card, card_value k_control "struc" card = card_value d "struc" card)
    /\ (forall card, card_value d' "struc" card = card_value k_struc "struc" card).
Proof.
  intros [d0 d1 d2 d3 d4 d5 d6 Hsame H1 H2 H3 H4 H5 H6 H7].
  exists d1, d2. split; [exact H2|]. split.
  - intros card. rewrite <- Hsame.
    apply (pass_updated _ "control" (handle_card_updated rt "control") _ _ _ H1).
    left. discriminate.
  - intros card.
    rewrite (select_coefficients_frame _ _ H7) by discriminate.
    rewrite (proj2 (pass_updated _ "elast" (handle_elast_card_updated rt) _ _ _ H6))
      by (left; discriminate).
    rewrite (proj2 (pass_updated _ "stress" (handle_card_updated rt "stress") _ _ _ H5))
      by (left; discriminate).
    rewrite (proj2 (pass_updated _ "properties"
                      (handle_card_updated rt "properties") _ _ _ H4))
      by (left; discriminate).
    rewrite (proj2 (pass_updated _ "surface" (handle_card_updated rt "surface") _ _ _ H3))
      by (left; discriminate).
    reflexivity.
Qed.

(** A card among [b], [burgers] and [spacing] that the input does not
    give: when the resolution returns, the card holds what [eval] answers
    for the identity mapping applied to the text of the resolved value of
    [a], ["(lambda x: x)(" ++ text ++ ")"], where [text] is ['{}'.format]
    of that value. *)
Lemma mapping_of_a_evaluated (d d' : pdict) (card : string) :
  handle_pn_control rt d = Ok d' ->
  In card ["b"; "burgers"; "spacing"] ->
  card_value d "struc" card = None ->
  exists va text f vb,
    card_value d' "struc" "a" = Some va
    /\ py_format rt va = Ok text
    /\ py_eval rt f (identity_applied text) = Ok vb
    /\ card_value d' "struc" card = Some vb.
Proof.
  intros Hrun Hcard Habs.
  destruct (after_struc d d' (handle_pn_control_course rt d d' Hrun))
    as (k1 & k2 & Hpass & Hbefore & Hafter).
  assert (Hsplit : exists before after,
             struc_cards = before ++ Card card a_mapping T_float :: after
             /\ ~ In card (List.map c_name before)
             /\ ~ In card (List.map c_name after)
             /\ ~ In "a" (List.map c_name after)).
  { simpl in Hcard. destruct Hcard as [<- | [<- | [<- | []]]].
    - exists [Card "a" VNone T_float],
             [Card "burgers" a_mapping T_float; Card "spacing" a_mapping T_float].
      repeat split; try reflexivity; simpl; intros H;
        repeat (destruct H as [H|H]; try discriminate H); exact H.
    - exists [Card "a" VNone T_float; Card "b" a_mapping T_float],
             [Card "spacing" a_mapping T_float].
      repeat split; try reflexivity; simpl; intros H;
        repeat (destruct H as [H|H]; try discriminate H); exact H.
    - exists [Card "a" VNone T_float; Card "b" a_mapping T_float;
              Card "burgers" a_mapping T_float], [].
      repeat split; try reflexivity; simpl; intros H;
        repeat (destruct H as [H|H]; try discriminate H); exact H. }
  destruct Hsplit as (before & after & Hcards & Hnb & Hna & Haa).
  rewrite Hcards in Hpass.
  destruct (pass_split _ "struc" (handle_card_updated rt "struc") _ _ _ _ _ Hpass)
    as (d1 & d2 & Hstep & Hpre & Hpost).
  assert (Hne : ("struc", card) <> ("struc", "a")).
  { intros [= ->]. simpl in Hcard.
    repeat (destruct Hcard as [Hcard|Hcard]; try discriminate Hcard). exact Hcard. }
  assert (Habs1 : card_value d1 "struc" card = None).
  { rewrite Hpre by (right; exact Hnb). rewrite Hbefore. exact Habs. }
  destruct (default_mapping rt "struc" d1 (Card card a_mapping T_float) d2
              eq_refl Hne Habs1 Hstep) as (va & text & f & vb & Ha & Ht & He & Hb).
  exists va, text, f, vb. repeat split; try assumption.
  - rewrite Hafter, Hpost by (right; exact Haa).
    destruct (handle_card_updated rt "struc" d1 _ d2 Hstep) as [_ Hframe].
    rewrite Hframe by (cbn [c_name]; intros [= <-]; apply Hne; reflexivity).
    exact Ha.
  - rewrite Hafter, Hpost by (right; exact Hna). exact Hb.
Qed.

End Resolution.

(** A resolution is observed through what it leaves in the dictionary. *)
Lemma run_observed {A} (rt : runtime) (d : pdict) (f : pdict -> A) (v : A) :
  (d' ← handle_pn_control rt d; Ok (f d')) = Ok v ->
  exists d', handle_pn_control rt d = Ok d' /\ f d' = v.
Proof.
  intros H. apply bind_Ok in H. destruct H as [d' [Hrun H]].
  injection H as <-. eauto.
Qed.

(** Claim C8, a defect of the code.  The input gives [a] and none of [b],
    [burgers] and [spacing].  With [a = '2.5'] the three cards resolve to
    the value of [a], as claimed.  With [a = '0.1234567890123456'] the
    resolution returns and [burgers] is not the value of [a]:
    [from_mapping] hands that value to [eval] as the text ['{}'.format]
    gives of it, which has twelve significant digits under Python 2, and
    [burgers], [b] and [spacing] are the float of that text.  With
    [a = 'inf'] the value of [a] is the infinite float, its text is [inf],
    a name that [eval] does not know, and the resolution raises a
    [NameError]. *)
Theorem C8_burgers_is_reparsed_text :
  (card_value complete_input "struc" "a" = Some (VStr "2.5")
   /\ card_value complete_input "struc" "burgers" = None
   /\ exists d' a,
        handle_pn_control Py27Eval.rt complete_input = Ok d'
        /\ Py27.float_ "2.5" = Ok a
        /\ card_value d' "struc" "a" = Some (VFloat a)
        /\ card_value d' "struc" "burgers" = Some (VFloat a)
        /\ card_value d' "struc" "b" = Some (VFloat a)
        /\ card_value d' "struc" "spacing" = Some (VFloat a))
  /\ (let d := with_card "struc" "a" "0.1234567890123456" complete_input in
      card_value d "struc" "a" = Some (VStr "0.1234567890123456")
      /\ card_value d "struc" "burgers" = None
      /\ exists d' a burgers,
           handle_pn_control Py27Eval.rt d = Ok d'
           /\ Py27.float_ "0.1234567890123456" = Ok a
           /\ card_value d' "struc" "a" = Some (VFloat a)
           /\ py_format Py27Eval.rt (VFloat a) = Ok "0.123456789012"
           /\ Py27.float_ "0.123456789012" = Ok burgers
           /\ card_value d' "struc" "burgers" = Some (VFloat burgers)
           /\ card_value d' "struc" "b" = Some (VFloat burgers)
           /\ card_value d' "struc" "spacing" = Some (VFloat burgers)
           /\ F.eqb a burgers = false)
  /\ (let d := with_card "struc" "a" "inf" complete_input in
      card_value d "struc" "a" = Some (VStr "inf")
      /\ card_value d "struc" "burgers" = None
      /\ Py27.float_ "inf" = Ok (S754_infinity false)
      /\ py_format Py27Eval.rt (VFloat (S754_infinity false)) = Ok "inf"
      /\ handle_pn_control Py27Eval.rt d = Raise (NameError "inf")).
Proof.
  split; [|split].
  - split; [vm_compute; reflexivity|]. split; [vm_compute; reflexivity|].
    destruct (run_observed Py27Eval.rt complete_input
                (fun d' => (card_value d' "struc" "a", card_value d' "struc" "burgers",
                            card_value d' "struc" "b", card_value d' "struc" "spacing"))
                _ ltac:(vm_compute; reflexivity)) as [d' [Hrun Hcards]].
    injection Hcards as Ha Hburgers Hb Hspacing.
    exists d'. eexists. split; [exact Hrun|]. split; [vm_compute; reflexivity|].
    split; [exact Ha|]. split; [exact Hburgers|]. split; [exact Hb|exact Hspacing].
  - intros d. split; [vm_compute; reflexivity|]. split; [vm_compute; reflexivity|].
    destruct (run_observed Py27Eval.rt d
                (fun d' => (card_value d' "struc" "a", card_value d' "struc" "burgers",
                            card_value d' "struc" "b", card_value d' "struc" "spacing"))
                _ ltac:(vm_compute; reflexivity)) as [d' [Hrun Hcards]].
    injection Hcards as Ha Hburgers Hb Hspacing.
    exists d'. eexists. eexists. split; [exact Hrun|].
    split; [vm_compute; reflexivity|]. split; [exact Ha|].
    split; [vm_compute; reflexivity|]. split; [vm_compute; reflexivity|].
    split; [exact Hburgers|]. split; [exact Hb|]. split; [exact Hspacing|].
    vm_compute. reflexivity.
  - intros d. repeat split; vm_compute; reflexivity.
Qed.

Section Declared.

Variable rt : runtime.







End Declared.



(** ** A literal that cannot be converted *)

Lemma change_type_keeps (rt : runtime) d namelist card new_type s msg :
  card_value d namelist card = Some (VStr s) ->
  convert rt new_type s = Raise (ValueError msg) ->
  contains "np.pi" s = false -> contains "np.e" s = false ->
  change_type rt d namelist card new_type = Ok d.
Proof.
  intros Hv Hconv Hpi He. unfold change_type.
  apply lookup2_Ok in Hv. rewrite Hv. cbn [mbind result_bind as_str].
  rewrite Hconv, Hpi, He. reflexivity.
Qed.

(** Claim C5, a defect of the code.  The literal ['abc'] of the integer
    card [n_iter] cannot be converted: [int] raises a [ValueError], which
    [change_type] catches; the text holds neither [np.pi] nor [np.e], so
    [change_type] returns without a word, and the resolved dictionary
    holds the string ['abc']. *)
Theorem C5_failing_literal_is_kept :
  let d := with_card "control" "n_iter" "abc" complete_input in
  convert Py27Eval.rt T_int "abc"
  = Raise (ValueError "invalid literal for int() with base 10: 'abc'")
  /\ change_type Py27Eval.rt d "control" "n_iter" T_int = Ok d
  /\ exists d',
       handle_pn_control Py27Eval.rt d = Ok d'
       /\ card_value d' "control" "n_iter" = Some (VStr "abc").
Proof.
  intros d. split; [vm_compute; reflexivity|]. split.
  - apply (change_type_keeps Py27Eval.rt d "control" "n_iter" T_int "abc"
             "invalid literal for int() with base 10: 'abc'");
      vm_compute; reflexivity.
  - apply (run_observed Py27Eval.rt d
             (fun d' => card_value d' "control" "n_iter")).
    vm_compute. reflexivity.
Qed.

(** The symbolic constants are evaluated. *)
Example angle_of_pi :
  exists d',
    handle_pn_control Py27Eval.rt (with_card "surface" "angle" "np.pi" complete_input)
    = Ok d'
    /\ card_value d' "surface" "angle" = Some (VFloat Py27Eval.np_pi).
Proof.
  apply (run_observed Py27Eval.rt _ (fun d' => card_value d' "surface" "angle")).
  vm_compute. reflexivity.
Qed.

(** When [map_ux] is not given, its default ["remap: (ux, uy) -> ux"] holds
    the letters "map" and is handed to [from_mapping], which finds no
    mapping in it. *)
Example default_remap_raises :
  let d : pdict :=
    {[ "control" := {[ "gsf_file" := VStr "gsf.dat" ]};
       "struc" := {[ "a" := VStr "2.5" ]};
       "elast" := {[ "k_parallel" := VStr "1.0" ]} ]} in
  handle_pn_control Py27Eval.rt d = Raise no_group.
Proof. vm_compute. reflexivity. Qed.

(* ##################################################################### *)
(** * Further properties *)
(* ##################################################################### *)

(** ** What a repaired gamma line holds *)

Lemma sample_insert (cur : list float) (k j : Z) (v : float) :
  0 <= k < Z.of_nat (length cur) -> 0 <= j ->
  sample (<[Z.to_nat k := v]> cur) j = if Z.eq_dec j k then v else sample cur j.
Proof.
  intros Hk Hj. unfold sample. destruct (Z.eq_dec j k) as [->|Hne].
  - apply list_lookup_total_insert_eq. lia.
  - apply list_lookup_total_insert_ne. lia.
Qed.

Section LineReturned.

Variable x_max : Z.
Variable es : list float.
Hypothesis es_length : length es = Z.to_nat (x_max + 1).

Lemma body_keeps k cur out st :
  0 <= k <= x_max -> kept x_max es k cur ->
  gamma_line_body x_max (cur, out) k = Ok st ->
  kept x_max es (k + 1) st.1 /\ length st.2 = S (length out).
Proof.
  intros Hk [Hlen Hcur] H.
  assert (Hin : 0 <= k < Z.of_nat (length cur)) by (rewrite Hlen, es_length; lia).
  destruct (Hcur k Hk) as (Hread & _ & _). specialize (Hread ltac:(lia)).
  unfold gamma_line_body in H.
  rewrite (getitem_in_range cur k Hin) in H. cbn [mbind result_bind] in H.
  fold (sample cur k) in H. rewrite neb_self in H.
  destruct (F.is_nan (sample cur k)) eqn:Hnan.
  - apply bind_Ok in H. destruct H as [cur' [H Hout]].
    apply bind_Ok in H. destruct H as [a [_ H]].
    apply bind_Ok in H. destruct H as [ea [_ H]].
    apply bind_Ok in H. destruct H as [b [_ H]].
    apply bind_Ok in H. destruct H as [eb [_ H]].
    rewrite (setitem_in_range cur k _ Hin) in H. cbn [mbind result_bind] in H.
    rewrite (getitem_insert cur k _ Hin) in H. cbn [mbind result_bind] in H.
    rewrite neb_self in H.
    destruct (F.is_nan (F.mul F.half (F.add ea eb))) eqn:Hv; [discriminate|].
    injection H as <-.
    rewrite (getitem_insert cur k _ Hin) in Hout. cbn [mbind result_bind] in Hout.
    injection Hout as <-. cbn [fst snd]. split.
    + split; [rewrite length_insert; exact Hlen|].
      intros j Hj. destruct (Hcur j Hj) as (H1 & H2 & H3).
      unfold invalid in *. rewrite (sample_insert cur k j _ Hin) by lia.
      destruct (Z.eq_dec j k) as [->|Hne].
      * split; [lia|]. split; [intros _; exact Hv|].
        rewrite <- Hread, Hnan. discriminate.
      * split; [intros; apply H1; lia|]. split; [intros; apply H2; lia|exact H3].
    + rewrite length_app. simpl. lia.
  - cbn [mbind result_bind] in H.
    rewrite (getitem_in_range cur k Hin) in H. cbn [mbind result_bind] in H.
    injection H as <-. cbn [fst snd]. split.
    + split; [exact Hlen|].
      intros j Hj. destruct (Hcur j Hj) as (H1 & H2 & H3).
      split; [intros; apply H1; lia|]. split; [|exact H3].
      intros Hlt. destruct (Z.eq_dec j k) as [->|Hne]; [exact Hnan|].
      apply H2. lia.
    + rewrite length_app. simpl. lia.
Qed.

Lemma loop_keeps m : forall k cur out st,
  0 <= k -> k + Z.of_nat m = x_max + 1 -> kept x_max es k cur ->
  for_each (gamma_line_body x_max) (seqZ k (Z.of_nat m)) (cur, out) = Ok st ->
  kept x_max es (x_max + 1) st.1 /\ length st.2 = (length out + m)%nat.
Proof.
  induction m as [|m IH]; intros k cur out st Hk Hkm Hkept H.
  - injection H as <-. cbn [fst snd]. split; [|lia].
    replace (x_max + 1) with k by lia. exact Hkept.
  - rewrite seqZ_cons in H by lia.
    replace (Z.pred (Z.of_nat (S m))) with (Z.of_nat m) in H by lia.
    rewrite for_each_cons in H. apply bind_Ok in H.
    destruct H as [[cur1 out1] [H1 H]].
    destruct (body_keeps k cur out _ ltac:(lia) Hkept H1) as [Hk1 Hl1].
    cbn [fst snd] in Hk1, Hl1.
    destruct (IH (Z.succ k) cur1 out1 st ltac:(lia) ltac:(lia)) as [Hend Hlen];
      [replace (Z.succ k) with (k + 1) by lia; exact Hk1|exact H|].
    split; [exact Hend|lia].
Qed.

(** Property X1.  When the repair of a gamma line returns, the line has
    the length it had, no sample of it is not-a-number, every sample that
    was a number is as it was read, and one line was written for each
    sample. *)
Theorem line_returned_is_valid es' out :
  gamma_line_repair x_max es = Ok (es', out) ->
  length es' = length es
  /\ length out = Z.to_nat (x_max + 1)
  /\ forall i, 0 <= i <= x_max ->
       invalid es' i = false
       /\ (invalid es i = false -> sample es' i = sample es i).
Proof.
  unfold gamma_line_repair. intros H.
  apply bind_Ok in H. destruct H as [e0 [_ H]]. unfold range in H.
  destruct (Z_lt_le_dec x_max 0) as [Hneg|Hpos].
  - assert (x_max + 1 <= 0) by lia.
    rewrite seqZ_nil in H by lia. injection H as <- <-.
    split; [reflexivity|]. split; [cbn [length]; lia|]. intros i Hi. lia.
  - assert (Hstart : kept x_max es 0 es).
    { split; [reflexivity|]. intros j Hj.
      split; [reflexivity|]. split; [lia|reflexivity]. }
    rewrite <- (Z2Nat.id (x_max + 1)) in H by lia.
    destruct (loop_keeps (Z.to_nat (x_max + 1)) 0 es [] (es', out)
                ltac:(lia) ltac:(lia) Hstart H)
      as [[Hlen Hcur] Hout].
    cbn [fst snd] in *. split; [exact Hlen|]. split; [simpl in Hout; lia|].
    intros i Hi. destruct (Hcur i Hi) as (_ & H2 & H3).
    split; [apply H2; lia|exact H3].
Qed.

End LineReturned.

(** A line with one invalid sample between a number and an infinity. *)
Lemma line_returned_is_valid_witness :
  let es := [F.of_Z 2; F.nan; S754_infinity false] in
  exists es' out,
    gamma_line_repair 2 es = Ok (es', out)
    /\ invalid es' 1 = false /\ sample es' 2 = sample es 2.
Proof.
  intros es.
  destruct (gamma_line_repair 2 es) as [[es' out]|e] eqn:H.
  - exists es', out. split; [reflexivity|].
    destruct (line_returned_is_valid 2 es eq_refl es' out H) as (_ & _ & Hall).
    split.
    + apply (Hall 1). lia.
    + apply (Hall 2); [lia|]. vm_compute. reflexivity.
  - vm_compute in H. discriminate H.
Defined.

(** ** What a repaired gamma surface holds *)

Lemma shaped_row x_max y_max (a : list (list float)) i :
  shaped x_max y_max a -> 0 <= i <= x_max ->
  length (a !!! Z.to_nat i) = Z.to_nat (y_max + 1).
Proof.
  intros [Hlen Hrows] Hi.
  destruct (lookup_lt_is_Some_2 a (Z.to_nat i)) as [row Hrow]; [lia|].
  rewrite (list_lookup_total_correct _ _ _ Hrow).
  exact (Forall_lookup_1 _ _ _ _ Hrows Hrow).
Qed.

Lemma getitem2_in_range x_max y_max (a : list (list float)) i j :
  shaped x_max y_max a -> 0 <= i <= x_max -> 0 <= j <= y_max ->
  getitem2 a i j = Ok (cell a i j).
Proof.
  intros Hs Hi Hj. unfold getitem2, cell.
  rewrite getitem_in_range by (rewrite (proj1 Hs); lia).
  cbn [mbind result_bind]. apply getitem_in_range.
  rewrite (shaped_row x_max y_max a i Hs Hi). lia.
Qed.

Lemma setitem2_in_range x_max y_max (a : list (list float)) i j x :
  shaped x_max y_max a -> 0 <= i <= x_max -> 0 <= j <= y_max ->
  setitem2 a i j x
  = Ok (<[Z.to_nat i := <[Z.to_nat j := x]> (a !!! Z.to_nat i)]> a).
Proof.
  intros Hs Hi Hj. unfold setitem2.
  rewrite getitem_in_range by (rewrite (proj1 Hs); lia).
  cbn [mbind result_bind].
  rewrite setitem_in_range by (rewrite (shaped_row x_max y_max a i Hs Hi); lia).
  cbn [mbind result_bind]. apply setitem_in_range. rewrite (proj1 Hs). lia.
Qed.

Lemma shaped_insert x_max y_max (a : list (list float)) i j x :
  shaped x_max y_max a -> 0 <= i <= x_max ->
  shaped x_max y_max (<[Z.to_nat i := <[Z.to_nat j := x]> (a !!! Z.to_nat i)]> a).
Proof.
  intros Hs Hi. split.
  - rewrite length_insert. apply Hs.
  - apply Forall_insert; [apply Hs|].
    rewrite length_insert. apply (shaped_row x_max y_max a i Hs Hi).
Qed.

Lemma cell_insert x_max y_max (a : list (list float)) i j x i' j' :
  shaped x_max y_max a -> 0 <= i <= x_max -> 0 <= j <= y_max ->
  0 <= i' -> 0 <= j' ->
  cell (<[Z.to_nat i := <[Z.to_nat j := x]> (a !!! Z.to_nat i)]> a) i' j'
  = if decide ((i', j') = (i, j)) then x else cell a i' j'.
Proof.
  intros Hs Hi Hj Hi' Hj'. unfold cell.
  destruct (decide (i' = i)) as [->|Hne].
  - rewrite list_lookup_total_insert_eq by (rewrite (proj1 Hs); lia).
    destruct (decide (j' = j)) as [->|Hnj].
    + rewrite decide_True by reflexivity.
      apply list_lookup_total_insert_eq.
      rewrite (shaped_row x_max y_max a i Hs Hi). lia.
    + rewrite decide_False by congruence.
      apply list_lookup_total_insert_ne. lia.
  - rewrite decide_False by congruence.
    rewrite list_lookup_total_insert_ne by lia. reflexivity.
Qed.

Lemma needs_repair_in_range x_max y_max (a : list (list float)) E i j :
  shaped x_max y_max a -> 0 <= i <= x_max -> 0 <= j <= y_max ->
  needs_repair a E i j = Ok (negb (real E (cell a i j))).
Proof.
  intros Hs Hi Hj. unfold needs_repair, real.
  rewrite (getitem2_in_range x_max y_max a i j Hs Hi Hj).
  cbn [mbind result_bind]. rewrite neb_self.
  destruct (F.is_nan (cell a i j)); [reflexivity|].
  cbn [negb andb]. rewrite negb_involutive. reflexivity.
Qed.

(** A loop whose passes leave the state as it is and only write. *)
Lemma for_each_writes {S X E} (body : S * list E -> X -> result (S * list E))
    (f : X -> list E) (s : S) (xs : list X) :
  (forall x out, In x xs -> body (s, out) x = Ok (s, out ++ f x)) ->
  forall out, for_each body xs (s, out) = Ok (s, out ++ flat_map f xs).
Proof.
  induction xs as [|x xs IH]; intros Hbody out.
  - cbn [for_each flat_map]. rewrite app_nil_r. reflexivity.
  - rewrite for_each_cons, Hbody by (left; reflexivity).
    cbn [mbind result_bind]. rewrite IH by (intros; apply Hbody; right; assumption).
    cbn [flat_map]. rewrite app_assoc. reflexivity.
Qed.

Lemma in_range (n k : Z) : In k (range n) <-> 0 <= k < n.
Proof.
  unfold range. rewrite <- list_elem_of_In, elem_of_seqZ. lia.
Qed.

(** Property X2.  A surface that needs no repair, each of its cells
    holding a real energy, comes back as it was read, with one printed and
    one written energy for each cell and a blank line after each row; so
    also where [x_max] or [y_max] is zero, as the neighbours are not
    looked at. *)
Theorem surface_without_repair (x_max y_max : Z) (es : list (list float)) :
  0 <= x_max -> 0 <= y_max -> shaped x_max y_max es ->
  (forall i j, 0 <= i <= x_max -> 0 <= j <= y_max ->
               real (cell es 0 0) (cell es i j) = true) ->
  gamma_surface_repair x_max y_max es = Ok (es, written_surface x_max y_max es).
Proof.
  intros Hx Hy Hs Hreal. unfold gamma_surface_repair.
  rewrite (getitem2_in_range x_max y_max es 0 0 Hs) by lia.
  cbn [mbind result_bind].
  rewrite (for_each_writes _ (written_row y_max es) es).
  - reflexivity.
  - intros i out Hi. apply in_range in Hi. unfold gamma_surface_row.
    rewrite (for_each_writes _
               (fun j => [PrintEnergy (cell es i j); WriteLine2 i j (cell es i j)])
               es).
    + cbn [mbind result_bind]. unfold written_row.
      rewrite app_assoc. reflexivity.
    + intros j out' Hj. apply in_range in Hj. unfold gamma_surface_cell.
      rewrite (needs_repair_in_range x_max y_max es _ i j Hs) by lia.
      rewrite Hreal by lia. cbn [mbind result_bind negb].
      rewrite (getitem2_in_range x_max y_max es i j Hs) by lia.
      reflexivity.
Qed.

(** The surface of a single cell. *)
Lemma surface_without_repair_witness :
  gamma_surface_repair 0 0 [ [F.of_Z 3] ]
  = Ok ([ [F.of_Z 3] ], written_surface 0 0 [ [F.of_Z 3] ]).
Proof.
  apply (surface_without_repair 0 0 [ [F.of_Z 3] ]); try lia.
  - split; [reflexivity|]. repeat constructor.
  - intros i j Hi Hj. assert (i = 0) as -> by lia. assert (j = 0) as -> by lia.
    vm_compute. reflexivity.
Defined.

Lemma signatures_within x_max y_max i j :
  1 <= x_max -> 1 <= y_max ->
  exists sigs, signatures x_max y_max i j = Ok sigs
               /\ (0 <= i <= x_max -> 0 <= j <= y_max ->
                   Forall (within x_max y_max) sigs).
Proof.
  intros Hx Hy. unfold signatures. rewrite !py_mod_pos by lia.
  cbn [mbind result_bind]. eexists. split; [reflexivity|]. intros Hi Hj.
  pose proof (Z.mod_pos_bound (i + 1) x_max ltac:(lia)).
  pose proof (Z.mod_pos_bound (i - 1) x_max ltac:(lia)).
  pose proof (Z.mod_pos_bound (j + 1) y_max ltac:(lia)).
  pose proof (Z.mod_pos_bound (j - 1) y_max ltac:(lia)).
  repeat constructor; cbn [fst snd]; lia.
Qed.

Lemma neighbour_returns x_max y_max (cur : list (list float)) E acc s :
  shaped x_max y_max cur -> within x_max y_max s ->
  exists acc', neighbour_body cur E acc s = Ok acc'.
Proof.
  intros Hs [H1 H2]. unfold neighbour_body. destruct acc as [approx n].
  rewrite (getitem2_in_range x_max y_max cur _ _ Hs H1 H2).
  cbn [mbind result_bind].
  destruct (F.neb _ _); [eauto|].
  destruct (F.ltb _ _); eauto.
Qed.

Lemma neighbours_return x_max y_max (cur : list (list float)) E sigs :
  shaped x_max y_max cur -> Forall (within x_max y_max) sigs ->
  forall acc, exists acc', for_each (neighbour_body cur E) sigs acc = Ok acc'.
Proof.
  intros Hs Hall. induction Hall as [|s sigs Hw _ IH]; intros acc; [eauto|].
  rewrite for_each_cons.
  destruct (neighbour_returns x_max y_max cur E acc s Hs Hw) as [acc1 ->].
  apply IH.
Qed.

Lemma cell_step x_max y_max E i j (cur : list (list float)) out :
  1 <= x_max -> 1 <= y_max -> shaped x_max y_max cur ->
  0 <= i <= x_max -> 0 <= j <= y_max ->
  exists cur' out',
    gamma_surface_cell x_max y_max E i (cur, out) j = Ok (cur', out')
    /\ shaped x_max y_max cur'
    /\ (forall i' j', 0 <= i' -> 0 <= j' -> (i', j') <> (i, j) ->
                      cell cur' i' j' = cell cur i' j')
    /\ (real E (cell cur i j) = true -> cell cur' i j = cell cur i j).
Proof.
  intros Hx Hy Hs Hi Hj. unfold gamma_surface_cell.
  rewrite (needs_repair_in_range x_max y_max cur E i j Hs Hi Hj).
  cbn [mbind result_bind].
  destruct (real E (cell cur i j)) eqn:Hreal; cbn [negb].
  - cbn [mbind result_bind].
    rewrite (getitem2_in_range x_max y_max cur i j Hs Hi Hj).
    cbn [mbind result_bind]. eexists. eexists. split; [reflexivity|].
    split; [exact Hs|]. split; reflexivity.
  - destruct (signatures_within x_max y_max i j Hx Hy) as [sigs [-> Hw]].
    cbn [mbind result_bind].
    destruct (neighbours_return x_max y_max cur E sigs Hs (Hw Hi Hj) (F.zero, 0))
      as [[approx n] ->].
    cbn [mbind result_bind].
    assert (Hset : forall x out1,
      exists out',
        (e ← getitem2 (<[Z.to_nat i := <[Z.to_nat j := x]> (cur !!! Z.to_nat i)]> cur) i j;
         e' ← getitem2 (<[Z.to_nat i := <[Z.to_nat j := x]> (cur !!! Z.to_nat i)]> cur) i j;
         Ok (<[Z.to_nat i := <[Z.to_nat j := x]> (cur !!! Z.to_nat i)]> cur,
             (out1 ++ [PrintRepaired i j e]) ++ [PrintEnergy e; WriteLine2 i j e']))
        = Ok (<[Z.to_nat i := <[Z.to_nat j := x]> (cur !!! Z.to_nat i)]> cur, out')).
    { intros x out1.
      rewrite (getitem2_in_range x_max y_max _ i j
                 (shaped_insert x_max y_max cur i j x Hs Hi) Hi Hj).
      cbn [mbind result_bind]. eexists. reflexivity. }
    assert (Hframe : forall x,
      shaped x_max y_max (<[Z.to_nat i := <[Z.to_nat j := x]> (cur !!! Z.to_nat i)]> cur)
      /\ (forall i' j', 0 <= i' -> 0 <= j' -> (i', j') <> (i, j) ->
            cell (<[Z.to_nat i := <[Z.to_nat j := x]> (cur !!! Z.to_nat i)]> cur) i' j'
            = cell cur i' j')
      /\ (false = true ->
            cell (<[Z.to_nat i := <[Z.to_nat j := x]> (cur !!! Z.to_nat i)]> cur) i j
            = cell cur i j)).
    { intros x. split; [apply shaped_insert; assumption|]. split; [|discriminate].
      intros i' j' Hi' Hj' Hne.
      rewrite (cell_insert x_max y_max cur i j x i' j' Hs Hi Hj Hi' Hj').
      rewrite decide_False by exact Hne. reflexivity. }
    destruct (n =? 0).
    + rewrite (setitem2_in_range x_max y_max cur i j _ Hs Hi Hj).
      cbn [mbind result_bind].
      rewrite (getitem2_in_range x_max y_max _ i j
                 (shaped_insert x_max y_max cur i j _ Hs Hi) Hi Hj).
      cbn [mbind result_bind].
      rewrite (getitem2_in_range x_max y_max _ i j
                 (shaped_insert x_max y_max cur i j _ Hs Hi) Hi Hj).
      cbn [mbind result_bind]. eexists. eexists. split; [reflexivity|].
      apply Hframe.
    + rewrite (setitem2_in_range x_max y_max cur i j _ Hs Hi Hj).
      cbn [mbind result_bind].
      rewrite (getitem2_in_range x_max y_max _ i j
                 (shaped_insert x_max y_max cur i j _ Hs Hi) Hi Hj).
      cbn [mbind result_bind].
      rewrite (getitem2_in_range x_max y_max _ i j
                 (shaped_insert x_max y_max cur i j _ Hs Hi) Hi Hj).
      cbn [mbind result_bind]. eexists. eexists. split; [reflexivity|].
      apply Hframe.
Qed.

Section SurfaceReturned.

Variables x_max y_max : Z.
Variable E : float.
Variable es : list (list float).
Hypothesis x_max_pos : 1 <= x_max.
Hypothesis y_max_pos : 1 <= y_max.

Lemma row_from i m : forall j cur out,
  0 <= i <= x_max -> 0 <= j -> j + Z.of_nat m = y_max + 1 ->
  surface_kept x_max y_max E es i j cur ->
  exists cur' out',
    for_each (gamma_surface_cell x_max y_max E i) (seqZ j (Z.of_nat m)) (cur, out)
    = Ok (cur', out')
    /\ surface_kept x_max y_max E es i (y_max + 1) cur'.
Proof.
  induction m as [|m IH]; intros j cur out Hi Hj Hjm Hkept.
  - exists cur, out. split; [reflexivity|].
    replace (y_max + 1) with j by lia. exact Hkept.
  - rewrite seqZ_cons by lia.
    replace (Z.pred (Z.of_nat (S m))) with (Z.of_nat m) by lia.
    rewrite for_each_cons.
    destruct Hkept as [Hs Hcur].
    destruct (cell_step x_max y_max E i j cur out x_max_pos y_max_pos Hs Hi
                ltac:(lia)) as (cur1 & out1 & -> & Hs1 & Hframe & Hsame).
    cbn [mbind result_bind].
    apply (IH (Z.succ j) cur1 out1 Hi ltac:(lia) ltac:(lia)).
    split; [exact Hs1|]. intros i' j' Hi' Hj'.
    destruct (Hcur i' j' Hi' Hj') as [Hread Hreal].
    destruct (decide ((i', j') = (i, j))) as [[= -> ->]|Hne].
    + split; [lia|]. intros Hr. rewrite Hsame.
      * apply Hread. right. lia.
      * rewrite Hread by (right; lia). exact Hr.
    + rewrite (Hframe i' j') by (lia || exact Hne). split; [|exact Hreal].
      intros Hlater. apply Hread.
      destruct Hlater as [Hlt|[-> Hle]]; [left; exact Hlt|].
      right. split; [reflexivity|].
      destruct (Z.eq_dec j' j) as [->|]; [contradiction Hne; reflexivity|lia].
Qed.

Lemma row_step i cur out :
  0 <= i <= x_max -> surface_kept x_max y_max E es i 0 cur ->
  exists cur' out',
    gamma_surface_row x_max y_max E (cur, out) i = Ok (cur', out')
    /\ surface_kept x_max y_max E es (i + 1) 0 cur'.
Proof.
  intros Hi Hkept. unfold gamma_surface_row, range.
  destruct (row_from i (Z.to_nat (y_max + 1)) 0 cur out Hi ltac:(lia)
              ltac:(lia) Hkept) as (cur1 & out1 & Hrow & Hs1 & Hcur1).
  rewrite Z2Nat.id in Hrow by lia. rewrite Hrow.
  cbn [mbind result_bind]. eexists. eexists. split; [reflexivity|].
  split; [exact Hs1|]. intros i' j' Hi' Hj'.
  destruct (Hcur1 i' j' Hi' Hj') as [Hread Hreal]. split; [|exact Hreal].
  intros Hlater. apply Hread. lia.
Qed.

Lemma rows_from m : forall i cur out,
  0 <= i -> i + Z.of_nat m = x_max + 1 ->
  surface_kept x_max y_max E es i 0 cur ->
  exists cur' out',
    for_each (gamma_surface_row x_max y_max E) (seqZ i (Z.of_nat m)) (cur, out)
    = Ok (cur', out')
    /\ surface_kept x_max y_max E es (x_max + 1) 0 cur'.
Proof.
  induction m as [|m IH]; intros i cur out Hi Him Hkept.
  - exists cur, out. split; [reflexivity|].
    replace (x_max + 1) with i by lia. exact Hkept.
  - rewrite seqZ_cons by lia.
    replace (Z.pred (Z.of_nat (S m))) with (Z.of_nat m) by lia.
    rewrite for_each_cons.
    destruct (row_step i cur out ltac:(lia) Hkept) as (cur1 & out1 & -> & Hk1).
    cbn [mbind result_bind].
    apply (IH (Z.succ i) cur1 out1 ltac:(lia) ltac:(lia)).
    replace (Z.succ i) with (i + 1) by lia. exact Hk1.
Qed.

End SurfaceReturned.

(** Property X3.  The repair of a surface with [x_max] and [y_max] of one
    or more always returns, unlike that of a gamma line: it keeps the shape
    of the surface, and every cell that held a real energy. *)
Theorem surface_repair_returns (x_max y_max : Z) (es : list (list float)) :
  1 <= x_max -> 1 <= y_max -> shaped x_max y_max es ->
  exists es' out,
    gamma_surface_repair x_max y_max es = Ok (es', out)
    /\ shaped x_max y_max es'
    /\ forall i j, 0 <= i <= x_max -> 0 <= j <= y_max ->
         real (cell es 0 0) (cell es i j) = true -> cell es' i j = cell es i j.
Proof.
  intros Hx Hy Hs. unfold gamma_surface_repair.
  rewrite (getitem2_in_range x_max y_max es 0 0 Hs) by lia.
  cbn [mbind result_bind]. unfold range.
  assert (Hstart : surface_kept x_max y_max (cell es 0 0) es 0 0 es).
  { split; [exact Hs|]. intros i j _ _. split; reflexivity. }
  destruct (rows_from x_max y_max (cell es 0 0) es Hx Hy (Z.to_nat (x_max + 1))
              0 es [] ltac:(lia) ltac:(lia) Hstart)
    as (es' & out & Hrun & Hs' & Hcur).
  rewrite Z2Nat.id in Hrun by lia. rewrite Hrun.
  exists es', out. split; [reflexivity|]. split; [exact Hs'|].
  intros i j Hi Hj. apply Hcur; assumption.
Qed.

(** A surface of two rows and two columns with one invalid cell. *)
Lemma surface_repair_returns_witness :
  let es := [ [F.of_Z 1; F.nan]; [F.of_Z 5; F.of_Z 7] ] in
  exists es' out,
    gamma_surface_repair 1 1 es = Ok (es', out)
    /\ cell es' 1 1 = cell es 1 1.
Proof.
  intros es.
  destruct (surface_repair_returns 1 1 es ltac:(lia) ltac:(lia))
    as (es' & out & Hrun & _ & Hsame).
  - split; [reflexivity|]. repeat constructor.
  - exists es', out. split; [exact Hrun|].
    apply Hsame; [lia|lia|]. vm_compute. reflexivity.
Defined.

(** ** The energy of a GULP output *)

Lemma keep_matches (rt : runtime) ms : forall acc m x,
  Forall (fun m' : string * string => is_Ok (py_float rt m'.1) = true) ms ->
  py_float rt m.1 = Ok x ->
  for_each (keep_match rt) (ms ++ [m]) acc = Ok (Some x, Some (Some m.2)).
Proof.
  induction ms as [|m' ms IH]; intros acc m x Hall Hx.
  - cbn [app]. rewrite for_each_cons. unfold keep_match. rewrite Hx. reflexivity.
  - apply Forall_cons in Hall. destruct Hall as [Hm' Hall].
    cbn [app]. rewrite for_each_cons.
    destruct (py_float rt m'.1) as [x'|e] eqn:Hf; [|discriminate].
    assert (Hstep : keep_match rt acc m' = Ok (Some x', Some (Some m'.2)))
      by (unfold keep_match; rewrite Hf; reflexivity).
    rewrite Hstep. cbn [mbind result_bind]. apply IH; assumption.
Qed.

(** Property X4.  The energy of an output of GULP that flags no failure is
    the float of the last match of the energy pattern, with the units of
    that match. *)
Theorem gulp_keeps_last_match (rt : runtime) (fs : string -> option string)
    (energy_regex : Re.re) (prog base_name suffix : string) (i : Z)
    (j : option Z) (indir : bool) (output_lines : string)
    (ms : list (string * string)) (m : string * string) (x : float) :
  fs (gsf_filename base_name suffix i j indir) = Some output_lines ->
  lower prog = "gulp" ->
  existsb (fun flag => contains flag output_lines) gulp_flag_failure = false ->
  findall2 energy_regex output_lines = ms ++ [m] ->
  Forall (fun m' : string * string => is_Ok (py_float rt m'.1) = true) ms ->
  py_float rt m.1 = Ok x ->
  get_gsf_energy rt fs energy_regex prog base_name suffix i j indir
  = Ok (x, Some m.2).
Proof.
  intros Hfile Hprog Hflag Hfind Hall Hx. unfold get_gsf_energy.
  rewrite Hfile. cbn [mbind result_bind]. rewrite Hfind, Hprog, Hflag.
  destruct (ms ++ [m]) as [|m0 rest] eqn:Hlist.
  - destruct ms; discriminate.
  - change (String.eqb "gulp" "gulp") with true. cbv iota.
    cbn [mbind result_bind].
    change (F.ltb F.zero acceptable_gnorm) with true. cbv iota.
    rewrite <- Hlist. rewrite (keep_matches rt ms _ m x Hall Hx).
    reflexivity.
Qed.

(** Two energies in one output: the second is the one returned. *)
Lemma gulp_keeps_last_match_witness :
  let text := (String newline "  Final energy =     -12.50000000 eV"
               ++ String newline "  Final Gnorm  =       0.00010000"
               ++ String newline "  Final energy =     -13.00000000 eV"
               ++ String newline "")%string in
  get_gsf_energy Py27Eval.rt (one_file "gsf.0.out" text) gulp_energy "GULP"
                 "gsf" "out" 0 None false
  = Ok (F.of_Z (-13), Some "eV").
Proof.
  intros text.
  apply (gulp_keeps_last_match Py27Eval.rt (one_file "gsf.0.out" text)
           gulp_energy "GULP" "gsf" "out" 0 None false text
           [("-12.50000000", "eV")] ("-13.00000000", "eV")).
  - reflexivity.
  - reflexivity.
  - vm_compute. reflexivity.
  - vm_compute. reflexivity.
  - repeat constructor.
  - vm_compute. reflexivity.
Defined.

(** ** [main] as a whole *)

Lemma not_gulp_is_nan (rt : runtime) (fs : string -> option string)
    (energy_regex : Re.re) (prog base_name suffix : string) (i : Z)
    (j : option Z) (indir : bool) (E : float) (units : option string) :
  lower prog <> "gulp" ->
  get_gsf_energy rt fs energy_regex prog base_name suffix i j indir
  = Ok (E, units) ->
  E = F.nan /\ units = None.
Proof.
  intros Hprog. unfold get_gsf_energy.
  destruct (fs _) as [text|]; [|discriminate]. cbn [mbind result_bind].
  destruct (findall2 energy_regex text) as [|m ms].
  - cbn [mbind result_bind]. intros [= <- <-]. split; reflexivity.
  - destruct (String.eqb_spec (lower prog) "gulp") as [Hg|Hg]; [contradiction|].
    cbn [mbind result_bind]. discriminate.
Qed.

Lemma add_nan_l (y : float) : F.add F.nan y = F.nan.
Proof. destruct y; reflexivity. Qed.

Lemma range_cons (n : Z) : 0 < n -> range n = 0 :: seqZ 1 (n - 1).
Proof.
  intros Hn. unfold range. rewrite seqZ_cons by lia.
  replace (Z.succ 0) with 1 by lia. replace (Z.pred n) with (n - 1) by lia.
  reflexivity.
Qed.

Lemma range_nil (n : Z) : n <= 0 -> range n = [].
Proof. intros Hn. unfold range. apply seqZ_nil. lia. Qed.


Section MainProperties.

Variable rt : runtime.
Variable fs : string -> option string.
Variable writable : string -> bool.

Lemma zeros_length n xs : Main.zeros n = Ok xs -> 0 <= n /\ length xs = Z.to_nat n.
Proof.
  unfold Main.zeros. destruct (Z.ltb_spec n 0); [discriminate|].
  intros [= <-]. rewrite length_replicate. split; [lia|reflexivity].
Qed.

(** Property X5.  The name of a program that is not in [energy_lines] is
    reported, and, once the output file is open, the first energy ends on
    the local variable [regex], which the [except] clause left unbound. *)
Theorem unknown_program_is_unbound (a : Main.args) :
  Main.find_regex (lower (Main.program a)) energy_lines = None ->
  writable (Main.out_name a) = true ->
  0 <= Main.x_max a -> (Main.dim a = 1 \/ 0 <= Main.y_max a) ->
  Main.main rt fs writable true a = Raise (unbound "regex").
Proof.
  intros Hregex Hw Hx Hdim. unfold Main.main. cbn [negb]. rewrite Hregex, Hw.
  cbn [negb].
  destruct (Z.eqb_spec (Main.dim a) 1) as [H1|H1].
  - unfold Main.zeros.
    replace (Main.x_max a + 1 <? 0) with false by (symmetry; apply Z.ltb_ge; lia).
    cbn [mbind result_bind]. rewrite range_cons by lia.
    rewrite for_each_cons. reflexivity.
  - destruct Hdim as [Hdim|Hy]; [contradiction|]. unfold Main.zeros2.
    replace (Main.x_max a + 1 <? 0) with false by (symmetry; apply Z.ltb_ge; lia).
    replace (Main.y_max a + 1 <? 0) with false by (symmetry; apply Z.ltb_ge; lia).
    cbn [orb mbind result_bind]. rewrite range_cons by lia.
    rewrite for_each_cons.
    assert (Hrow : forall st, Main.fill_row rt fs a None st 0
                              = Raise (unbound "regex")).
    { intros [[cur u] o]. unfold Main.fill_row. rewrite range_cons by lia.
      rewrite for_each_cons. reflexivity. }
    rewrite Hrow. reflexivity.
Qed.

Lemma fill_line_step a regex cur u o k st :
  lower (Main.program a) <> "gulp" -> 0 <= k < Z.of_nat (length cur) ->
  Main.fill_line rt fs a regex (cur, u, o) k = Ok st ->
  st.1.1 = <[Z.to_nat k := F.nan]> cur.
Proof.
  unfold Main.fill_line. intros Hp Hk H.
  apply bind_Ok in H. destruct H as [r [_ H]].
  apply bind_Ok in H. destruct H as [[E units] [HE H]].
  apply not_gulp_is_nan in HE; [|exact Hp]. destruct HE as [-> ->].
  rewrite setitem_in_range in H by exact Hk. cbn [mbind result_bind] in H.
  injection H as <-. reflexivity.
Qed.

Lemma fill_line_loop a regex m : forall k cur u o st,
  lower (Main.program a) <> "gulp" ->
  0 <= k -> k + Z.of_nat m <= Z.of_nat (length cur) ->
  (forall j, 0 <= j < k -> invalid cur j = true) ->
  for_each (Main.fill_line rt fs a regex) (seqZ k (Z.of_nat m)) (cur, u, o) = Ok st ->
  length st.1.1 = length cur
  /\ forall j, 0 <= j < k + Z.of_nat m -> invalid st.1.1 j = true.
Proof.
  induction m as [|m IH]; intros k cur u o st Hp Hk Hlen Hcur H.
  - injection H as <-. split; [reflexivity|]. intros j Hj. apply Hcur. lia.
  - rewrite seqZ_cons in H by lia.
    replace (Z.pred (Z.of_nat (S m))) with (Z.of_nat m) in H by lia.
    rewrite for_each_cons in H. apply bind_Ok in H.
    destruct H as [[[cur1 u1] o1] [H1 H]].
    apply fill_line_step in H1; [|exact Hp|lia]. cbn [fst] in H1. subst cur1.
    assert (Hlen1 : Z.succ k + Z.of_nat m
                    <= Z.of_nat (length (<[Z.to_nat k := F.nan]> cur)))
      by (rewrite length_insert; lia).
    destruct (IH (Z.succ k) (<[Z.to_nat k := F.nan]> cur) u1 o1 st Hp ltac:(lia)
                Hlen1) as [Hl Hall]; [|exact H|].
    + intros j Hj. unfold invalid. rewrite sample_insert by lia.
      destruct (Z.eq_dec j k); [reflexivity|]. apply Hcur. lia.
    + rewrite length_insert in Hl. split; [exact Hl|].
      intros j Hj. apply Hall. lia.
Qed.

Lemma invalid_is_nan es j : invalid es j = true -> sample es j = F.nan.
Proof. unfold invalid. destruct (sample es j); try discriminate. reflexivity. Qed.

Lemma all_invalid_raises x_max es :
  0 <= x_max -> length es = Z.to_nat (x_max + 1) ->
  (forall j, 0 <= j <= x_max -> invalid es j = true) ->
  gamma_line_repair x_max es = Raise too_many_nan.
Proof.
  intros Hx Hlen Hall. unfold gamma_line_repair.
  rewrite getitem_in_range by lia. cbn [mbind result_bind].
  rewrite range_cons by lia. rewrite for_each_cons.
  assert (Hbody : gamma_line_body x_max (es, []) 0 = Raise too_many_nan).
  { unfold gamma_line_body.
    rewrite getitem_in_range by lia. cbn [mbind result_bind].
    change (es !!! Z.to_nat 0) with (sample es 0).
    rewrite (invalid_is_nan es 0) by (apply Hall; lia).
    change (F.neb F.nan F.nan) with true. cbv iota.
    rewrite !py_mod_pos by lia. cbn [mbind result_bind].
    pose proof (Z.mod_pos_bound (0 - 1) (x_max + 1) ltac:(lia)).
    pose proof (Z.mod_pos_bound (0 + 1) (x_max + 1) ltac:(lia)).
    rewrite !getitem_in_range by lia. cbn [mbind result_bind].
    change (es !!! Z.to_nat ((0 - 1) mod (x_max + 1)))
      with (sample es ((0 - 1) mod (x_max + 1))).
    rewrite (invalid_is_nan es ((0 - 1) mod (x_max + 1))) by (apply Hall; lia).
    rewrite add_nan_l.
    rewrite setitem_in_range by lia. cbn [mbind result_bind].
    rewrite getitem_insert by lia. cbn [mbind result_bind].
    reflexivity. }
  rewrite Hbody. reflexivity.
Qed.

(** Property X6.  A gamma line cannot be extracted from the outputs of a
    program other than GULP, whatever the files hold: [main] never
    returns.  The energies that can be read are all not-a-number, and the
    repair of such a line raises. *)
Theorem gamma_line_needs_gulp (argv : bool) (a : Main.args) :
  Main.dim a = 1 -> lower (Main.program a) <> "gulp" ->
  is_Ok (Main.main rt fs writable argv a) = false.
Proof.
  intros Hdim Hp. unfold Main.main. destruct argv; [|reflexivity]. cbn [negb].
  destruct (writable (Main.out_name a)); [|reflexivity]. cbn [negb].
  rewrite Hdim. change (1 =? 1) with true. cbv iota.
  destruct (Main.zeros (Main.x_max a + 1)) as [zs|e] eqn:Hz; [|reflexivity].
  apply zeros_length in Hz. destruct Hz as [Hx Hlen].
  cbn [mbind result_bind].
  destruct (for_each _ _ _) as [[[cur u] o]|e] eqn:Hfill; [|reflexivity].
  cbn [mbind result_bind].
  destruct (Z.eq_dec (Main.x_max a + 1) 0) as [H0|H0].
  - rewrite range_nil in Hfill by lia. injection Hfill as <- <- <-. reflexivity.
  - unfold range in Hfill. rewrite <- (Z2Nat.id (Main.x_max a + 1)) in Hfill by lia.
    destruct (fill_line_loop a _ (Z.to_nat (Main.x_max a + 1)) 0 zs None _
                (cur, u, o) Hp ltac:(lia) ltac:(lia) ltac:(intros; lia) Hfill)
      as [Hl Hall].
    cbn [fst] in Hl, Hall. destruct u as [units|]; [|reflexivity].
    cbn [Main.bound mbind result_bind].
    rewrite all_invalid_raises; [reflexivity|lia|lia|].
    intros j Hj. apply Hall. lia.
Qed.





End MainProperties.

(** A surface of a program without a pattern. *)
Lemma unknown_program_is_unbound_witness :
  Main.main Py27Eval.rt (fun _ => None) (fun _ => true) true
            (Main.Args "gsf" 3 3 "vasp" "gsf.dat" "out" 2 false)
  = Raise (unbound "regex").
Proof.
  apply (unknown_program_is_unbound Py27Eval.rt (fun _ => None) (fun _ => true)
           (Main.Args "gsf" 3 3 "vasp" "gsf.dat" "out" 2 false)).
  - reflexivity.
  - reflexivity.
  - simpl. lia.
  - right. simpl. lia.
Defined.

(** A gamma line of one point, asked of the program ['qe']. *)
Lemma gamma_line_needs_gulp_witness :
  is_Ok (Main.main Py27Eval.rt (one_file "gsf.0.out" gulp_output) (fun _ => true)
           true (Main.Args "gsf" 0 0 "qe" "gsf.dat" "out" 1 false)) = false.
Proof.
  apply (gamma_line_needs_gulp Py27Eval.rt (one_file "gsf.0.out" gulp_output)
           (fun _ => true) true
           (Main.Args "gsf" 0 0 "qe" "gsf.dat" "out" 1 false)).
  - reflexivity.
  - vm_compute. discriminate.
Defined.


(** ** Reading the control file *)

Lemma control_line_comment st line :
  is_comment line = true -> control_line st line = Ok st.
Proof. unfold is_comment, control_line. intros ->. reflexivity. Qed.

Lemma control_lines_comments lines : forall st,
  for_each control_line (List.filter (fun l => negb (is_comment l)) lines) st
  = for_each control_line lines st.
Proof.
  induction lines as [|line lines IH]; intros st; [reflexivity|].
  cbn [List.filter]. destruct (is_comment line) eqn:Hc; cbn [negb].
  - rewrite for_each_cons, (control_line_comment st line Hc).
    cbn [mbind result_bind]. apply IH.
  - rewrite !for_each_cons. destruct (control_line st line); [apply IH|reflexivity].
Qed.

(** Property X8.  Comment lines do not count, wherever they stand: the
    file without them reads the same, exceptions included. *)
Theorem control_file_ignores_comments (lines : list string) :
  control_file (List.filter (fun l => negb (is_comment l)) lines)
  = control_file lines.
Proof. unfold control_file. rewrite control_lines_comments. reflexivity. Qed.

(** Property X9.  A file whose first line that is not a comment does not
    start a namelist, a blank line included, ends on the local variable
    [in_namelist], which nothing has bound yet. *)
Theorem control_file_needs_namelist (comments : list string) (line : string)
    (rest : list string) :
  Forall (fun l => is_comment l = true) comments ->
  is_prefix "#" (Py27.strip line) = false ->
  is_prefix "&" (Py27.strip line) = false ->
  control_file (comments ++ line :: rest) = Raise (unbound "in_namelist").
Proof.
  intros Hcomments Hhash Hamp. unfold control_file.
  rewrite for_each_app.
  assert (Hskip : for_each control_line comments (Reader ∅ None None)
                  = Ok (Reader ∅ None None)).
  { induction Hcomments as [|l ls Hl _ IH]; [reflexivity|].
    rewrite for_each_cons, (control_line_comment _ l Hl). exact IH. }
  rewrite Hskip. cbn [mbind result_bind]. rewrite for_each_cons.
  assert (Hline : control_line (Reader ∅ None None) line
                  = Raise (unbound "in_namelist"))
    by (unfold control_line; rewrite Hhash, Hamp; reflexivity).
  rewrite Hline. reflexivity.
Qed.

(** A blank line after the heading comment. *)
Lemma control_file_needs_namelist_witness :
  control_file [ "# input of a Peierls-Nabarro model"; ""; "&control {";
                 "gsf_file = 'gsf.dat';"; "};;" ]
  = Raise (unbound "in_namelist").
Proof.
  apply (control_file_needs_namelist
           [ "# input of a Peierls-Nabarro model" ] ""
           [ "&control {"; "gsf_file = 'gsf.dat';"; "};;" ]).
  - repeat constructor.
  - reflexivity.
  - reflexivity.
Defined.

Lemma raw_empty : raw ∅.
Proof. intros n c v. unfold card_value. rewrite lookup_empty. discriminate. Qed.

Lemma raw_namelist d name : raw d -> raw (<[name := ∅]> d).
Proof.
  intros Hd n c v. unfold card_value.
  destruct (decide (n = name)) as [->|Hne].
  - rewrite lookup_insert_eq. cbn. rewrite lookup_empty. discriminate.
  - rewrite lookup_insert_ne by congruence. apply Hd.
Qed.

Lemma raw_store2 d namelist card s d' :
  raw d -> store2 d namelist card (VStr s) = Ok d' -> raw d'.
Proof.
  intros Hd Hst n c v. rewrite (card_value_store2 _ _ _ _ _ _ _ Hst).
  destruct (decide _); [intros [= <-]; eauto|apply Hd].
Qed.

Lemma control_line_raw st line st' :
  raw (sim_parameters st) -> control_line st line = Ok st' ->
  raw (sim_parameters st').
Proof.
  intros Hd. unfold control_line.
  destruct (is_prefix "#" _); [intros [= <-]; exact Hd|].
  destruct (is_prefix "&" _).
  - intros H. apply bind_Ok in H. destruct H as [name [_ H]].
    injection H as <-. apply raw_namelist, Hd.
  - intros H. apply bind_Ok in H. destruct H as [inside [_ H]].
    destruct inside; [|injection H as <-; exact Hd].
    destruct (contains "};;" _); [injection H as <-; exact Hd|].
    destruct (String.eqb _ ""); [injection H as <-; exact Hd|].
    apply bind_Ok in H. destruct H as [value [_ H]].
    apply bind_Ok in H. destruct H as [name [_ H]].
    apply bind_Ok in H. destruct H as [par [_ H]].
    apply bind_Ok in H. destruct H as [d [Hst H]].
    injection H as <-. eapply raw_store2; eassumption.
Qed.

Lemma control_lines_raw lines : forall st st',
  raw (sim_parameters st) -> for_each control_line lines st = Ok st' ->
  raw (sim_parameters st').
Proof.
  induction lines as [|line lines IH]; intros st st' Hd H.
  - injection H as <-. exact Hd.
  - rewrite for_each_cons in H. apply bind_Ok in H. destruct H as [st1 [H1 H]].
    eapply IH; [|exact H]. eapply control_line_raw; eassumption.
Qed.

(** Property X10.  Every value of the dictionary [control_file] returns is
    a string: the text of the group [value], as it stands in the file. *)
Theorem control_file_raw (lines : list string) (d : pdict) :
  control_file lines = Ok d -> raw d.
Proof.
  unfold control_file. intros H. apply bind_Ok in H. destruct H as [st [H Hd]].
  injection Hd as <-. eapply control_lines_raw; [|exact H]. apply raw_empty.
Qed.

(** A file with one namelist of two cards. *)
Lemma control_file_raw_witness :
  exists d,
    control_file [ "&control {"; "gsf_file = 'gsf.dat';"; "n_iter = 5;"; "};;" ]
    = Ok d
    /\ raw d.
Proof.
  assert (Hok : is_Ok (control_file [ "&control {"; "gsf_file = 'gsf.dat';";
                                      "n_iter = 5;"; "};;" ]) = true)
    by (vm_compute; reflexivity).
  destruct (control_file [ "&control {"; "gsf_file = 'gsf.dat';"; "n_iter = 5;";
                           "};;" ]) as [d|e] eqn:H.
  - exists d. split; [reflexivity|]. exact (control_file_raw _ d H).
  - discriminate Hok.
Defined.

(** ** The card of a resolution that returns *)

Lemma schema_cases namelist cards :
  In (namelist, cards) schema ->
  (namelist, cards) = ("control", control_cards)
  \/ (namelist, cards) = ("struc", struc_cards)
  \/ (namelist, cards) = ("elast", elast_cards)
  \/ (namelist, cards) = ("surface", surf_cards)
  \/ (namelist, cards) = ("properties", prop_cards)
  \/ (namelist, cards) = ("stress", stress_cards).
Proof.
  unfold schema. cbn [In]. intros H.
  repeat (destruct H as [H|H]; [symmetry in H; tauto|]). contradiction.
Qed.

Lemma schema_names_differ namelist cards :
  In (namelist, cards) schema -> NoDup (List.map c_name cards).
Proof.
  intros H. apply schema_cases in H.
  repeat (destruct H as [H|H]); injection H as -> ->;
    apply (bool_decide_unpack _); vm_compute; exact I.
Qed.

Lemma no_card_coefficients namelist cards var :
  In (namelist, cards) schema -> In var cards ->
  (namelist, c_name var) <> ("elast", "coefficients").
Proof.
  intros H Hvar [= Hn Hc]. apply schema_cases in H.
  repeat (destruct H as [H|H]); injection H as -> ->; try discriminate Hn.
  apply (in_map c_name) in Hvar. rewrite Hc in Hvar. cbn in Hvar.
  repeat (destruct Hvar as [Hvar|Hvar]; [discriminate Hvar|]). contradiction.
Qed.

Section Whole.

Variable rt : runtime.

Lemma step_of_updated namelist d var d' :
  step_of rt namelist d var = Ok d' -> updated_at d namelist (c_name var) d'.
Proof.
  unfold step_of. destruct (String.eqb_spec namelist "elast") as [->|_].
  - apply handle_elast_card_updated.
  - apply handle_card_updated.
Qed.

Lemma store2_there d namelist card v v' :
  card_value d namelist card = Some v ->
  exists d', store2 d namelist card v' = Ok d'.
Proof.
  unfold card_value, store2. destruct (d !! namelist); [eauto|discriminate].
Qed.

(** The step of a card whose literal converts. *)
Lemma step_of_literal namelist d var s v :
  card_value d namelist (c_name var) = Some (VStr s) ->
  contains "map" s = false ->
  convert rt (c_type var) s = Ok v ->
  exists d', step_of rt namelist d var = Ok d'
             /\ card_value d' namelist (c_name var) = Some v.
Proof.
  intros Hv Hmap Hconv.
  destruct (store2_there d namelist (c_name var) _ v Hv) as [d' Hst].
  assert (Hc : change_or_map rt d namelist (c_name var) (c_type var) = Ok d').
  { unfold change_or_map. apply lookup2_Ok in Hv. rewrite Hv.
    cbn [as_str mbind result_bind]. rewrite Hmap.
    unfold change_type. rewrite Hv. cbn [as_str mbind result_bind].
    rewrite Hconv. exact Hst. }
  exists d'. split; [|apply store2_updated in Hst; apply Hst].
  unfold step_of.
  destruct (String.eqb_spec namelist "elast") as [Hn|_];
    [subst namelist|]; unfold handle_card, handle_elast_card;
    rewrite Hc; reflexivity.
Qed.

(** The step of a card whose value holds "map" and no mapping. *)
Lemma step_of_no_mapping namelist d var s :
  card_value d namelist (c_name var) = Some (VStr s) ->
  contains "map" s = true ->
  search map_form s = None ->
  step_of rt namelist d var = Raise no_group.
Proof.
  intros Hv Hmap Hsearch.
  assert (Hc : change_or_map rt d namelist (c_name var) (c_type var)
               = Raise no_group).
  { unfold change_or_map. apply lookup2_Ok in Hv. rewrite Hv.
    cbn [as_str mbind result_bind]. rewrite Hmap.
    unfold from_mapping. rewrite Hv. cbn [as_str mbind result_bind].
    rewrite Hsearch. reflexivity. }
  unfold step_of.
  destruct (String.eqb_spec namelist "elast") as [Hn|_];
    [subst namelist|]; unfold handle_card, handle_elast_card;
    rewrite Hc; reflexivity.
Qed.

(** The step of a card that is not given. *)
Lemma step_of_absent namelist d var d' :
  card_value d namelist (c_name var) = None ->
  has_map (c_default var) = false ->
  step_of rt namelist d var = Ok d' ->
  card_value d' namelist (c_name var) = Some (c_default var).
Proof.
  intros Habs Hmap. unfold step_of.
  destruct (String.eqb_spec namelist "elast") as [->|_];
    unfold handle_card, handle_elast_card;
    rewrite (change_or_map_absent rt _ _ (c_name var) (c_type var) Habs).
  - intros H. apply store2_updated in H. apply H.
  - destruct (is_None (c_default var)); [discriminate|].
    intros H. apply bind_Ok in H. destruct H as [d1 [Hst H]].
    apply store2_updated in Hst. destruct Hst as [_ Hval].
    destruct (c_default var) as [| | | |s| |]; try (injection H as <-; exact Hval).
    cbn [has_map] in Hmap. rewrite Hmap in H. injection H as <-. exact Hval.
Qed.

(** The step of a card that is not given and whose default holds "map"
    and no mapping. *)
Lemma step_of_bad_default namelist d var s :
  namelist <> "elast" ->
  card_value d namelist (c_name var) = None ->
  c_default var = VStr s -> contains "map" s = true ->
  search map_form s = None ->
  is_Ok (step_of rt namelist d var) = false.
Proof.
  intros Hn Habs Hdef Hmap Hsearch. unfold step_of.
  destruct (String.eqb_spec namelist "elast") as [|_]; [contradiction|].
  unfold handle_card.
  rewrite (change_or_map_absent rt d namelist (c_name var) (c_type var) Habs).
  rewrite Hdef. cbn [is_None].
  destruct (store2 d namelist (c_name var) (VStr s)) as [d1|e] eqn:Hst;
    [|reflexivity].
  cbn [mbind result_bind]. rewrite Hmap.
  apply store2_updated in Hst. destruct Hst as [_ Hval].
  unfold from_mapping. apply lookup2_Ok in Hval. rewrite Hval.
  cbn [as_str mbind result_bind]. rewrite Hsearch. reflexivity.
Qed.

(** The pass over the cards of a namelist, in a resolution that returns:
    it starts from the cards of the namelist as they were given, and
    nothing but the choice of the coefficients touches them after it. *)
Lemma course_pass d d' namelist cards :
  course rt d d' -> In (namelist, cards) schema ->
  exists pre post,
    for_each (step_of rt namelist) cards pre = Ok post
    /\ (forall c, card_value pre namelist c = card_value d namelist c)
    /\ (forall c, (namelist, c) <> ("elast", "coefficients") ->
                  card_value d' namelist c = card_value post namelist c).
Proof.
  intros [d0 d1 d2 d3 d4 d5 d6 Hsame H1 H2 H3 H4 H5 H6 H7] Hin.
  pose proof (fun n c Hne =>
    proj2 (pass_updated _ "control" (handle_card_updated rt "control") _ _ _ H1)
          n c (or_introl Hne)) as F1.
  pose proof (fun n c Hne =>
    proj2 (pass_updated _ "struc" (handle_card_updated rt "struc") _ _ _ H2)
          n c (or_introl Hne)) as F2.
  pose proof (fun n c Hne =>
    proj2 (pass_updated _ "surface" (handle_card_updated rt "surface") _ _ _ H3)
          n c (or_introl Hne)) as F3.
  pose proof (fun n c Hne =>
    proj2 (pass_updated _ "properties" (handle_card_updated rt "properties") _ _ _ H4)
          n c (or_introl Hne)) as F4.
  pose proof (fun n c Hne =>
    proj2 (pass_updated _ "stress" (handle_card_updated rt "stress") _ _ _ H5)
          n c (or_introl Hne)) as F5.
  pose proof (fun n c Hne =>
    proj2 (pass_updated _ "elast" (handle_elast_card_updated rt) _ _ _ H6)
          n c (or_introl Hne)) as F6.
  pose proof (select_coefficients_frame _ _ H7) as F7.
  apply schema_cases in Hin.
  destruct Hin as [Hin|[Hin|[Hin|[Hin|[Hin|Hin]]]]]; injection Hin as -> ->.
  - exists d0, d1. split; [exact H1|]. split; [intros c; apply Hsame|].
    intros c Hc. rewrite F7, F6, F5, F4, F3, F2 by congruence. reflexivity.
  - exists d1, d2. split; [exact H2|]. split.
    + intros c. rewrite F1 by congruence. apply Hsame.
    + intros c Hc. rewrite F7, F6, F5, F4, F3 by congruence. reflexivity.
  - exists d5, d6. split; [exact H6|]. split.
    + intros c. rewrite F5, F4, F3, F2, F1 by congruence. apply Hsame.
    + intros c Hc. rewrite F7 by congruence. reflexivity.
  - exists d2, d3. split; [exact H3|]. split.
    + intros c. rewrite F2, F1 by congruence. apply Hsame.
    + intros c Hc. rewrite F7, F6, F5, F4 by congruence. reflexivity.
  - exists d3, d4. split; [exact H4|]. split.
    + intros c. rewrite F3, F2, F1 by congruence. apply Hsame.
    + intros c Hc. rewrite F7, F6, F5 by congruence. reflexivity.
  - exists d4, d5. split; [exact H5|]. split.
    + intros c. rewrite F4, F3, F2, F1 by congruence. apply Hsame.
    + intros c Hc. rewrite F7, F6 by congruence. reflexivity.
Qed.

(** The step of one declared card, in a resolution that returns: the card
    is as given when its step starts, and as its step leaves it at the
    end. *)
Lemma course_card d d' namelist cards var :
  course rt d d' -> In (namelist, cards) schema -> In var cards ->
  exists d1 d2,
    step_of rt namelist d1 var = Ok d2
    /\ card_value d1 namelist (c_name var) = card_value d namelist (c_name var)
    /\ card_value d' namelist (c_name var) = card_value d2 namelist (c_name var).
Proof.
  intros Hcourse Hin Hvar.
  destruct (course_pass d d' namelist cards Hcourse Hin) as (pre & post & Hpass & Hpre & Hpost).
  pose proof (schema_names_differ namelist cards Hin) as Hnodup.
  destruct (in_split var cards Hvar) as (before & after & ->).
  rewrite map_app in Hnodup. cbn [List.map] in Hnodup.
  apply NoDup_app in Hnodup. destruct Hnodup as (_ & Hbefore & Hafter).
  apply NoDup_cons in Hafter. destruct Hafter as [Hafter _].
  destruct (pass_split (step_of rt namelist) namelist (step_of_updated namelist)
              before var after pre post Hpass) as (d1 & d2 & Hstep & F1 & F2).
  exists d1, d2. split; [exact Hstep|]. split.
  - rewrite F1; [apply Hpre|]. right. intros Hc.
    apply (Hbefore (c_name var)).
    + apply list_elem_of_In, Hc.
    + apply list_elem_of_In. left. reflexivity.
  - rewrite Hpost by (apply (no_card_coefficients namelist _ var Hin Hvar)).
    apply F2. right. intros Hc. apply Hafter. apply list_elem_of_In, Hc.
Qed.

(** Property X11.  The resolution returns only when the input gives
    [map_ux] and [map_uy]: the default of each holds the letters "map" and
    no mapping, and [from_mapping] raises on it. *)
Theorem resolution_needs_both_maps (d d' : pdict) :
  handle_pn_control rt d = Ok d' ->
  is_Some (card_value d "surface" "map_ux")
  /\ is_Some (card_value d "surface" "map_uy").
Proof.
  intros Hrun. apply handle_pn_control_course in Hrun.
  assert (Hin : In ("surface", surf_cards) schema) by (simpl; tauto).
  split.
  - destruct (course_card d d' "surface" surf_cards
                (Card "map_ux" (VStr "remap: (ux, uy) -> ux") T_str) Hrun Hin
                ltac:(simpl; tauto)) as (d1 & d2 & Hstep & Hpre & _).
    cbn [c_name] in Hpre.
    destruct (card_value d "surface" "map_ux") as [v|] eqn:Hv; [eauto|].
    exfalso.
    pose proof (step_of_bad_default "surface" d1
                  (Card "map_ux" (VStr "remap: (ux, uy) -> ux") T_str)
                  "remap: (ux, uy) -> ux" ltac:(discriminate) Hpre
                  eq_refl eq_refl ltac:(vm_compute; reflexivity)) as Hbad.
    rewrite Hstep in Hbad. discriminate Hbad.
  - destruct (course_card d d' "surface" surf_cards
                (Card "map_uy" (VStr "remap: (ux, uy) -> uy") T_str) Hrun Hin
                ltac:(simpl; tauto)) as (d1 & d2 & Hstep & Hpre & _).
    cbn [c_name] in Hpre.
    destruct (card_value d "surface" "map_uy") as [v|] eqn:Hv; [eauto|].
    exfalso.
    pose proof (step_of_bad_default "surface" d1
                  (Card "map_uy" (VStr "remap: (ux, uy) -> uy") T_str)
                  "remap: (ux, uy) -> uy" ltac:(discriminate) Hpre
                  eq_refl eq_refl ltac:(vm_compute; reflexivity)) as Hbad.
    rewrite Hstep in Hbad. discriminate Hbad.
Qed.

(** Property X12.  The resolution leaves the cards it does not declare as
    they were given, in whatever namelist; the one card it adds is
    [coefficients]. *)
Theorem undeclared_cards_are_kept (d d' : pdict) (namelist card : string) :
  handle_pn_control rt d = Ok d' ->
  ~ declared namelist card ->
  (namelist, card) <> ("elast", "coefficients") ->
  card_value d' namelist card = card_value d namelist card.
Proof.
  intros Hrun Hund Hne. apply handle_pn_control_course in Hrun.
  destruct Hrun as [d0 d1 d2 d3 d4 d5 d6 Hsame H1 H2 H3 H4 H5 H6 H7].
  assert (Hout : forall N cards,
             In (N, cards) schema ->
             namelist <> N \/ ~ In card (List.map c_name cards)).
  { intros N cards Hin. destruct (string_dec namelist N) as [->|Hn];
      [right|left; exact Hn].
    intros Hc. apply Hund. exists cards. split; assumption. }
  rewrite (select_coefficients_frame _ _ H7) by exact Hne.
  rewrite (proj2 (pass_updated _ "elast" (handle_elast_card_updated rt) _ _ _ H6))
    by (apply Hout; simpl; tauto).
  rewrite (proj2 (pass_updated _ "stress" (handle_card_updated rt "stress") _ _ _ H5))
    by (apply Hout; simpl; tauto).
  rewrite (proj2 (pass_updated _ "properties"
                    (handle_card_updated rt "properties") _ _ _ H4))
    by (apply Hout; simpl; tauto).
  rewrite (proj2 (pass_updated _ "surface" (handle_card_updated rt "surface") _ _ _ H3))
    by (apply Hout; simpl; tauto).
  rewrite (proj2 (pass_updated _ "struc" (handle_card_updated rt "struc") _ _ _ H2))
    by (apply Hout; simpl; tauto).
  rewrite (proj2 (pass_updated _ "control" (handle_card_updated rt "control") _ _ _ H1))
    by (apply Hout; simpl; tauto).
  apply Hsame.
Qed.

(** Property X13.  A declared card whose literal does not hold "map" and
    converts to the type of the card holds the converted value when the
    resolution returns. *)
Theorem literal_is_converted (d d' : pdict) (namelist : string)
    (cards : list card) (var : card) (s : string) (v : pyval) :
  handle_pn_control rt d = Ok d' ->
  In (namelist, cards) schema -> In var cards ->
  card_value d namelist (c_name var) = Some (VStr s) ->
  contains "map" s = false ->
  convert rt (c_type var) s = Ok v ->
  card_value d' namelist (c_name var) = Some v.
Proof.
  intros Hrun Hin Hvar Hv Hmap Hconv. apply handle_pn_control_course in Hrun.
  destruct (course_card d d' namelist cards var Hrun Hin Hvar)
    as (d1 & d2 & Hstep & Hpre & Hpost).
  rewrite Hv in Hpre.
  destruct (step_of_literal namelist d1 var s v Hpre Hmap Hconv) as (d2' & Hstep' & Hval).
  rewrite Hstep in Hstep'. injection Hstep' as <-.
  rewrite Hpost. exact Hval.
Qed.

(** Property X14.  A declared card that is not given holds its default
    when the resolution returns, unless the default is a mapping. *)
Theorem absent_card_takes_default (d d' : pdict) (namelist : string)
    (cards : list card) (var : card) :
  handle_pn_control rt d = Ok d' ->
  In (namelist, cards) schema -> In var cards ->
  card_value d namelist (c_name var) = None ->
  has_map (c_default var) = false ->
  card_value d' namelist (c_name var) = Some (c_default var).
Proof.
  intros Hrun Hin Hvar Habs Hmap. apply handle_pn_control_course in Hrun.
  destruct (course_card d d' namelist cards var Hrun Hin Hvar)
    as (d1 & d2 & Hstep & Hpre & Hpost).
  rewrite Habs in Hpre. rewrite Hpost.
  exact (step_of_absent namelist d1 var d2 Hpre Hmap Hstep).
Qed.

(** Property X15.  The resolution returns only when every given value of a
    declared card that holds the letters "map" holds a mapping, whatever
    the type of the card: a title with the word "map" in it makes
    [from_mapping] raise. *)
Theorem given_map_is_a_mapping (d d' : pdict) (namelist : string)
    (cards : list card) (var : card) (s : string) :
  handle_pn_control rt d = Ok d' ->
  In (namelist, cards) schema -> In var cards ->
  card_value d namelist (c_name var) = Some (VStr s) ->
  contains "map" s = true ->
  is_Some (search map_form s).
Proof.
  intros Hrun Hin Hvar Hv Hmap. apply handle_pn_control_course in Hrun.
  destruct (course_card d d' namelist cards var Hrun Hin Hvar)
    as (d1 & d2 & Hstep & Hpre & _).
  rewrite Hv in Hpre.
  destruct (search map_form s) as [m|] eqn:Hsearch; [eauto|]. exfalso.
  rewrite (step_of_no_mapping namelist d1 var s Hpre Hmap Hsearch) in Hstep.
  discriminate Hstep.
Qed.

End Whole.

(** The dictionary [complete_input], which gives both. *)
Lemma resolution_needs_both_maps_witness :
  exists d',
    handle_pn_control Py27Eval.rt complete_input = Ok d'
    /\ is_Some (card_value complete_input "surface" "map_ux")
    /\ is_Some (card_value complete_input "surface" "map_uy").
Proof.
  destruct (run_observed Py27Eval.rt complete_input (fun _ => tt) tt
              ltac:(vm_compute; reflexivity)) as [d' [Hrun _]].
  exists d'. split; [exact Hrun|].
  exact (resolution_needs_both_maps Py27Eval.rt complete_input d' Hrun).
Defined.

(** A card [note] of the namelist [control], which no table declares. *)
Lemma undeclared_cards_are_kept_witness :
  exists d',
    handle_pn_control Py27Eval.rt (with_card "control" "note" "first run" complete_input)
    = Ok d'
    /\ card_value d' "control" "note" = Some (VStr "first run").
Proof.
  destruct (run_observed Py27Eval.rt
              (with_card "control" "note" "first run" complete_input)
              (fun _ => tt) tt ltac:(vm_compute; reflexivity)) as [d' [Hrun _]].
  exists d'. split; [exact Hrun|].
  rewrite (undeclared_cards_are_kept Py27Eval.rt _ d' "control" "note" Hrun).
  - vm_compute. reflexivity.
  - intros [cards [Hin Hc]]. apply schema_cases in Hin.
    repeat (destruct Hin as [Hin|Hin]); try discriminate Hin.
    injection Hin as ->. cbn in Hc.
    repeat (destruct Hc as [Hc|Hc]; [discriminate Hc|]). contradiction.
  - discriminate.
Defined.

(** The card [a] of [complete_input], given as [2.5]. *)
Lemma literal_is_converted_witness :
  exists d',
    handle_pn_control Py27Eval.rt complete_input = Ok d'
    /\ card_value d' "struc" "a" = Some (VFloat (F.div (F.of_Z 5) (F.of_Z 2))).
Proof.
  destruct (run_observed Py27Eval.rt complete_input (fun _ => tt) tt
              ltac:(vm_compute; reflexivity)) as [d' [Hrun _]].
  exists d'. split; [exact Hrun|].
  apply (literal_is_converted Py27Eval.rt complete_input d' "struc" struc_cards
           (Card "a" VNone T_float) "2.5" _ Hrun).
  - simpl. tauto.
  - simpl. tauto.
  - vm_compute. reflexivity.
  - vm_compute. reflexivity.
  - vm_compute. reflexivity.
Defined.

(** The card [n_iter], which [complete_input] does not give. *)
Lemma absent_card_takes_default_witness :
  exists d',
    handle_pn_control Py27Eval.rt complete_input = Ok d'
    /\ card_value d' "control" "n_iter" = Some (VInt 1).
Proof.
  destruct (run_observed Py27Eval.rt complete_input (fun _ => tt) tt
              ltac:(vm_compute; reflexivity)) as [d' [Hrun _]].
  exists d'. split; [exact Hrun|].
  apply (absent_card_takes_default Py27Eval.rt complete_input d' "control"
           control_cards (Card "n_iter" (VInt 1) T_int) Hrun).
  - simpl. tauto.
  - simpl. tauto.
  - vm_compute. reflexivity.
  - reflexivity.
Defined.

(** The card [b], given as the mapping of [a]. *)
Lemma given_map_is_a_mapping_witness :
  exists d',
    handle_pn_control Py27Eval.rt
      (with_card "struc" "b" "map struc > a: x -> x" complete_input) = Ok d'
    /\ is_Some (search map_form "map struc > a: x -> x").
Proof.
  destruct (run_observed Py27Eval.rt
              (with_card "struc" "b" "map struc > a: x -> x" complete_input)
              (fun _ => tt) tt ltac:(vm_compute; reflexivity)) as [d' [Hrun _]].
  exists d'. split; [exact Hrun|].
  apply (given_map_is_a_mapping Py27Eval.rt _ d' "struc" struc_cards
           (Card "b" a_mapping T_float) "map struc > a: x -> x" Hrun).
  - simpl. tauto.
  - simpl. tauto.
  - vm_compute. reflexivity.
  - vm_compute. reflexivity.
Defined.

(** ** A vector without a digit *)

Lemma plus_fails {R} cls (k : string -> groups -> option R) s g :
  ends_run cls s = true -> many cls 1 k s g = None.
Proof.
  destruct s as [|c s]; [reflexivity|]. cbn [ends_run many].
  intros Hc. apply negb_true_iff in Hc. rewrite Hc. reflexivity.
Qed.

Lemma no_digit_ends s : every no_digit s = true -> ends_run digit s = true.
Proof.
  destruct s as [|c s]; [reflexivity|]. cbn [every ends_run].
  intros H. apply andb_prop in H. apply H.
Qed.

Lemma number_needs_digit s :
  every no_digit s = true -> match_here number s = None.
Proof.
  intros Hs. unfold match_here, number, plus, star.
  destruct s as [|c s].
  - reflexivity.
  - cbn [seq run]. cbn [every] in Hs. apply andb_prop in Hs. destruct Hs as [Hc Hs].
    rewrite (plus_fails digit _ s _ (no_digit_ends s Hs)).
    rewrite (plus_fails digit _ (String c s));
      [|cbn [ends_run]; exact Hc].
    destruct (only "-" c); reflexivity.
Qed.

Lemma search_needs_digit s : every no_digit s = true -> search number s = None.
Proof.
  induction s as [|c s IH]; intros Hs.
  - reflexivity.
  - cbn [search]. rewrite (number_needs_digit _ Hs).
    cbn [every] in Hs. apply andb_prop in Hs. apply IH, Hs.
Qed.

(** Property X16.  The vector of a text without a digit is empty, and no
    error is raised: a word, or a number written out, is not refused. *)
Theorem to_vector_without_digit (rt : runtime) (in_str : string) :
  every no_digit in_str = true -> to_vector rt in_str = Ok (VArray []).
Proof.
  intros Hs. unfold to_vector, finditer. cbn [finditer_fuel].
  rewrite (search_needs_digit _ Hs). reflexivity.
Qed.

(** The text of the unit vector along x, in words. *)
Lemma to_vector_without_digit_witness :
  to_vector Py27Eval.rt "one, zero, zero" = Ok (VArray []).
Proof.
  apply (to_vector_without_digit Py27Eval.rt "one, zero, zero").
  vm_compute. reflexivity.
Defined.

(** ** The line of a card *)

Lemma every_app cls (a b : string) :
  every cls (a ++ b) = every cls a && every cls b.
Proof.
  induction a as [|c a IH]; [rewrite string_app_nil_l; reflexivity|].
  rewrite string_app_cons. cbn [every]. rewrite IH, andb_assoc. reflexivity.
Qed.

Lemma every_weaken (cls cls' : ascii -> bool) (s : string) :
  (forall c, cls c = true -> cls' c = true) ->
  every cls s = true -> every cls' s = true.
Proof.
  intros Hc. induction s as [|c s IH]; [reflexivity|]. cbn [every].
  intros H. apply andb_prop in H. destruct H as [H1 H2].
  rewrite (Hc c H1), (IH H2). reflexivity.
Qed.

(** A repetition whose continuation fails wherever it is tried. *)
Lemma many_fails {R} cls (k : string -> groups -> option R) g : forall s min,
  (forall s1 s2, s = (s1 ++ s2)%string -> k s2 g = None) ->
  many cls min k s g = None.
Proof.
  induction s as [|c s IH]; intros min Hk.
  - cbn [many]. destruct min; [apply (Hk "" ""); reflexivity|reflexivity].
  - assert (Hstop : match min with O => k (String c s) g | S _ => None end = None).
    { destruct min; [apply (Hk "" (String c s)); reflexivity|reflexivity]. }
    cbn [many]. cbv zeta. destruct (cls c); [|exact Hstop].
    rewrite IH; [exact Hstop|].
    intros s1 s2 ->. apply (Hk (String c s1) s2). reflexivity.
Qed.

(** A greedy repetition gives back what it took, down to the first point
    where the continuation holds. *)
Lemma many_backtracks {R} cls (k : string -> groups -> option R) g x :
  forall p s min,
    every cls p = true -> (min <= String.length p)%nat ->
    k s g = Some x ->
    (forall s1 s2, s = (s1 ++ s2)%string -> s1 <> "" -> k s2 g = None) ->
    many cls min k (p ++ s) g = Some x.
Proof.
  induction p as [|c p IH]; intros s min Hp Hmin Hk Hfail.
  - simpl in Hmin. assert (min = 0%nat) as -> by lia.
    rewrite string_app_nil_l. destruct s as [|c s]; [exact Hk|].
    cbn [many]. cbv zeta. destruct (cls c); [|exact Hk].
    rewrite many_fails; [exact Hk|].
    intros s1 s2 ->. apply (Hfail (String c s1) s2); [reflexivity|discriminate].
  - simpl in Hp. apply andb_prop in Hp. destruct Hp as [Hc Hp].
    rewrite string_app_cons. cbn [many]. cbv zeta. rewrite Hc.
    rewrite (IH s (Nat.pred min) Hp ltac:(simpl in Hmin; lia) Hk Hfail).
    reflexivity.
Qed.

Lemma needs_equals {R} (r : re) (k : string -> groups -> option R) s g :
  every no_equals s = true ->
  run (Seq (star space) (Seq (Lit "=") r)) k s g = None.
Proof.
  intros Hs. unfold star. cbn [run]. apply many_fails.
  intros s1 s2 ->. rewrite every_app in Hs. apply andb_prop in Hs.
  destruct Hs as [_ Hs]. destruct s2 as [|c s2]; [reflexivity|].
  cbn [every] in Hs. apply andb_prop in Hs. destruct Hs as [Hc _].
  unfold no_equals in Hc. apply negb_true_iff in Hc. rewrite Hc. reflexivity.
Qed.

(** The characters of a name. *)
Lemma word_is_plain c :
  word c = true ->
  space c = false /\ dot c = true /\ Ascii.eqb "#" c = false
  /\ Ascii.eqb "&" c = false.
Proof.
  destruct c as [[] [] [] [] [] [] [] []]; intros H;
    try discriminate H; repeat split; reflexivity.
Qed.

(** What follows the group [par] on the rest of a card line. *)
Lemma after_par_matches {R} (k : string -> groups -> option R) value g x :
  every non_quote value = true ->
  k "" (("value", value) :: g) = Some x ->
  run after_par k ("= '" ++ value ++ "';") g = Some x.
Proof.
  intros Hvalue Hk. unfold after_par, star. cbn [seq run].
  rewrite !string_app_cons, string_app_nil_l.
  apply (many_greedy space _ g x "" _ 0%nat); try reflexivity.
  change (Ascii.eqb "=" "=") with true. cbv iota.
  apply (many_greedy space _ g x " " _ 0%nat); try reflexivity; [simpl; lia|].
  change (quote "'") with true. cbv iota.
  assert (Hgroup :
    many non_quote 0
      (fun s' g' =>
         run (Seq (Opt quote) (Seq (Many 0 space) (Seq (Lit ";") Eps)))
             k s'
             (("value",
               take_string (String.length (value ++ "';") - String.length s')
                           (value ++ "';")) :: g'))
      (value ++ "';") g = Some x).
  { apply many_greedy; [exact Hvalue|reflexivity|lia|].
    rewrite take_string_app. cbn [run].
    change (quote "'") with true. cbv iota.
    assert (Hend : many space 0
                     (fun s g0 => match s with
                                  | String c' s' => if Ascii.eqb ";" c' then k s' g0 else None
                                  | EmptyString => None
                                  end) ";" (("value", value) :: g) = Some x)
      by exact Hk.
    rewrite Hend. reflexivity. }
  cbn [run] in Hgroup |- *. rewrite Hgroup. reflexivity.
Qed.

Lemma take_string_all (s : string) :
  take_string (String.length s - String.length "") s = s.
Proof.
  pose proof (take_string_app s "") as H. rewrite string_app_nil_r in H. exact H.
Qed.

Lemma card_line_split par value :
  card_line par value = ((par ++ " ") ++ ("= '" ++ value ++ "';"))%string.
Proof. unfold card_line. rewrite string_app_assoc. reflexivity. Qed.

(** The group [par] takes the name and the blank after it. *)
Lemma par_group_matches {R} (k : string -> groups -> option R) par value g x :
  every word par = true -> every plain value = true ->
  k "" (("value", value) :: ("par", (par ++ " ")%string) :: g) = Some x ->
  run (Seq (Group "par" (plus dot)) after_par) k (card_line par value) g = Some x.
Proof.
  intros Hpar Hvalue Hk.
  assert (Hquote : every non_quote value = true).
  { apply (every_weaken plain); [|exact Hvalue].
    intros c Hc. apply andb_prop in Hc. apply Hc. }
  assert (Hequals : every no_equals value = true).
  { apply (every_weaken plain); [|exact Hvalue].
    intros c Hc. apply andb_prop in Hc. apply Hc. }
  rewrite card_line_split. unfold plus. cbn [run].
  apply many_backtracks.
  - rewrite every_app. apply andb_true_intro. split; [|reflexivity].
    apply (every_weaken word); [|exact Hpar].
    intros c Hc. apply (word_is_plain c Hc).
  - rewrite string_length_app. simpl. lia.
  - rewrite take_string_app. apply after_par_matches; assumption.
  - intros s1 s2 Heq Hs1.
    apply (needs_equals
             (seq [ star space; Opt quote; Group "value" (star non_quote);
                    Opt quote; star space; Lit ";" ])).
    destruct s1 as [|c s1]; [contradiction|].
    rewrite !string_app_cons, string_app_nil_l in Heq.
    injection Heq as _ Heq.
    assert (Hrest : every no_equals
                      (String " " (String "'" (value ++ "';")%string))
                    = true).
    { cbn [every]. rewrite every_app, Hequals. reflexivity. }
    rewrite Heq, every_app in Hrest. apply andb_prop in Hrest. apply Hrest.
Qed.

Lemma card_line_matches par value :
  par <> "" -> every word par = true -> every plain value = true ->
  match_here input_style (card_line par value)
  = Some (card_line par value, [("value", value); ("par", (par ++ " ")%string)], "").
Proof.
  intros Hne Hpar Hvalue. unfold match_here.
  change input_style
    with (Seq (star space) (Seq (Group "par" (plus dot)) after_par)).
  unfold star. cbn [run].
  apply (many_greedy space _ [] _ "" (card_line par value) 0%nat).
  - reflexivity.
  - destruct par as [|c par]; [contradiction|]. unfold card_line.
    rewrite string_app_cons. cbn [ends_run every] in Hpar |- *.
    apply andb_prop in Hpar. destruct Hpar as [Hc _].
    destruct (word_is_plain c Hc) as [-> _]. reflexivity.
  - simpl. lia.
  - apply (par_group_matches _ par value [] _ Hpar Hvalue).
    rewrite take_string_all. reflexivity.
Qed.

Lemma search_here r s m : match_here r s = Some m -> search r s = Some m.
Proof. intros H. destruct s; cbn [search]; rewrite H; reflexivity. Qed.

(** ** Stripped text *)

Lemma list_of_app (a b : string) :
  list_ascii_of_string (a ++ b)
  = list_ascii_of_string a ++ list_ascii_of_string b.
Proof.
  induction a as [|c a IH]; [rewrite string_app_nil_l; reflexivity|].
  rewrite string_app_cons. cbn [list_ascii_of_string app]. rewrite IH.
  reflexivity.
Qed.

Lemma string_of_app (a b : list ascii) :
  string_of_list_ascii (a ++ b)
  = (string_of_list_ascii a ++ string_of_list_ascii b)%string.
Proof.
  induction a as [|c a IH]; [rewrite string_app_nil_l; reflexivity|].
  cbn [app string_of_list_ascii]. rewrite IH, string_app_cons. reflexivity.
Qed.

Lemma reverse_involutive s : Py27.reverse (Py27.reverse s) = s.
Proof.
  unfold Py27.reverse.
  rewrite list_ascii_of_string_of_list_ascii, rev_involutive.
  apply string_of_list_ascii_of_string.
Qed.

Lemma reverse_snoc s c :
  Py27.reverse (s ++ String c "") = String c (Py27.reverse s).
Proof.
  unfold Py27.reverse. rewrite list_of_app. cbn [list_ascii_of_string].
  rewrite rev_unit. reflexivity.
Qed.

Lemma reverse_cons c s :
  Py27.reverse (String c s) = (Py27.reverse s ++ String c "")%string.
Proof.
  unfold Py27.reverse. cbn [list_ascii_of_string rev].
  rewrite string_of_app. reflexivity.
Qed.

Lemma every_reverse cls s : every cls (Py27.reverse s) = every cls s.
Proof.
  induction s as [|c s IH]; [reflexivity|].
  rewrite reverse_cons, every_app, IH. cbn [every].
  rewrite andb_true_r. apply andb_comm.
Qed.

Lemma lstrip_head c s :
  space c = false -> Py27.lstrip (String c s) = String c s.
Proof. intros H. cbn [Py27.lstrip]. rewrite H. reflexivity. Qed.

Lemma lstrip_word s : every word s = true -> Py27.lstrip s = s.
Proof.
  destruct s as [|c s]; [reflexivity|]. cbn [every]. intros H.
  apply andb_prop in H. destruct H as [Hc _].
  apply lstrip_head. apply (word_is_plain c Hc).
Qed.

Lemma strip_name par :
  every word par = true -> Py27.strip (par ++ " ") = par.
Proof.
  intros Hpar. destruct par as [|c par]; [reflexivity|]. unfold Py27.strip.
  assert (Hhead : Py27.lstrip (String c par ++ " ") = (String c par ++ " ")%string).
  { rewrite string_app_cons.
    cbn [every] in Hpar. apply andb_prop in Hpar. destruct Hpar as [Hc _].
    apply lstrip_head. apply (word_is_plain c Hc). }
  rewrite Hhead, reverse_snoc.
  change (Py27.lstrip (String " " (Py27.reverse (String c par))))
    with (Py27.lstrip (Py27.reverse (String c par))).
  rewrite lstrip_word by (rewrite every_reverse; exact Hpar).
  apply reverse_involutive.
Qed.

Lemma strip_card_line par value :
  par <> "" -> every word par = true ->
  Py27.strip (card_line par value) = card_line par value.
Proof.
  intros Hne Hpar. unfold Py27.strip.
  assert (Hhead : Py27.lstrip (card_line par value) = card_line par value).
  { destruct par as [|c par]; [contradiction|]. unfold card_line.
    rewrite string_app_cons.
    cbn [every] in Hpar. apply andb_prop in Hpar. destruct Hpar as [Hc _].
    apply lstrip_head. apply (word_is_plain c Hc). }
  rewrite Hhead.
  assert (Hlast : card_line par value
                  = ((par ++ " = '" ++ value ++ "'") ++ String ";" "")%string).
  { unfold card_line. rewrite !string_app_assoc. reflexivity. }
  rewrite Hlast at 1. rewrite reverse_snoc.
  rewrite lstrip_head by reflexivity.
  rewrite <- reverse_snoc, <- Hlast. apply reverse_involutive.
Qed.

(** Property X17.  Inside a namelist, a line whose stripped text is
    [par = 'value';], with a name [par] of letters, digits and underscores
    and a [value] without a quote or an equals sign, stores the text
    [value] under [par] in the namelist, and nothing else changes. *)
Theorem card_line_is_stored (st : reader) (line name par value : string) :
  in_namelist st = Some true -> card_name st = Some name ->
  Py27.strip line = card_line par value ->
  par <> "" -> every word par = true -> every plain value = true ->
  contains "};;" (card_line par value) = false ->
  control_line st line
  = (d ← store2 (sim_parameters st) name par (VStr value);
     Ok (Reader d (card_name st) (in_namelist st))).
Proof.
  intros Hin Hname Hstrip Hne Hpar Hvalue Hend. unfold control_line.
  rewrite Hstrip.
  assert (Hhead : is_prefix "#" (card_line par value) = false
                  /\ is_prefix "&" (card_line par value) = false).
  { destruct par as [|c par]; [contradiction|]. unfold card_line.
    rewrite string_app_cons. cbn [is_prefix].
    cbn [every] in Hpar. apply andb_prop in Hpar. destruct Hpar as [Hc _].
    destruct (word_is_plain c Hc) as (_ & _ & -> & ->). split; reflexivity. }
  destruct Hhead as [-> ->]. rewrite Hin. cbn [Main.bound mbind result_bind].
  rewrite Hend. rewrite (strip_card_line par value Hne Hpar).
  assert (Hfull : String.eqb (card_line par value) "" = false).
  { destruct par as [|c par]; [contradiction|]. unfold card_line.
    rewrite string_app_cons. reflexivity. }
  rewrite Hfull.
  assert (Hsearch : search input_style (card_line par value)
                    = Some (card_line par value,
                            [("value", value); ("par", (par ++ " ")%string)], "")).
  { apply search_here, card_line_matches; assumption. }
  rewrite Hsearch. rewrite Hname.
  change (group_of (Some (card_line par value,
                          [("value", value); ("par", (par ++ " ")%string)], ""))
                   "value") with (Ok value : result string).
  change (group_of (Some (card_line par value,
                          [("value", value); ("par", (par ++ " ")%string)], ""))
                   "par") with (Ok (par ++ " ")%string : result string).
  cbn [Main.bound mbind result_bind]. rewrite (strip_name par Hpar).
  reflexivity.
Qed.

(** The line of the card [gsf_file], indented. *)
Lemma card_line_is_stored_witness :
  control_line (Reader {[ "control" := ∅ ]} (Some "control") (Some true))
               "    gsf_file = 'gsf.dat';"
  = Ok (Reader {[ "control" := {[ "gsf_file" := VStr "gsf.dat" ]} ]}
               (Some "control") (Some true)).
Proof.
  etransitivity.
  - apply (card_line_is_stored
             (Reader {[ "control" := ∅ ]} (Some "control") (Some true))
             "    gsf_file = 'gsf.dat';" "control" "gsf_file" "gsf.dat");
      try reflexivity.
    discriminate.
  - vm_compute. reflexivity.
Defined.

(** ** The misfit function that is not built *)

(** Property X18.  With a grid of three columns and a card [dimensions]
    that is neither 1 nor 2, [construct_gsf] returns without a word: the
    grid was read and the units are set, no fit was made, and the
    attribute [gsf] is as it was, unset on a new object. *)
Theorem other_dimensions_build_nothing (fg : fit_gsf) (self : PNSim)
    (gsf_file gsf_grid units dimensions : pyval) (shape : list Z) :
  lookup2 (sim self) "control" "gsf_file" = Ok gsf_file ->
  read_numerical_gsf fg gsf_file = Ok (shape, gsf_grid, units) ->
  getitem shape (-1) = Ok 3 ->
  lookup2 (sim self) "control" "dimensions" = Ok dimensions ->
  eq_int dimensions 2 = Ok false -> eq_int dimensions 1 = Ok false ->
  construct_gsf fg self []
  = (Ok (MkPNSim (sim self) (Some units) (gsf self)), [Read_numerical_gsf]).
Proof.
  intros Hfile Hread Hcols Hdim H2 H1.
  unfold construct_gsf, control, lift, called, mbind, traced_bind.
  rewrite Hfile, Hread, Hcols. cbn [app sim].
  change (3 =? 2) with false. change (3 =? 3) with true. cbv iota.
  rewrite Hdim, H2, H1. reflexivity.
Qed.

(** The card [dimensions] given as 3. *)
Lemma other_dimensions_build_nothing_witness :
  let fg := FitGsf (fun _ => Ok ([25; 3], VObject "grid", VStr "eV"))
                   (fun _ _ => Ok (VObject "fit")) in
  let self := MkPNSim {[ "control" := {[ "gsf_file" := VStr "gsf.dat";
                                         "dimensions" := VInt 3 ]} ]}
                      None None in
  construct_gsf fg self []
  = (Ok (MkPNSim (sim self) (Some (VStr "eV")) None), [Read_numerical_gsf]).
Proof.
  intros fg self.
  apply (other_dimensions_build_nothing fg self (VStr "gsf.dat") (VObject "grid")
           (VStr "eV") (VInt 3) [25; 3]); reflexivity.
Defined.

(** Property X19.  With a grid of three columns, [dimensions] equal to 1
    and a [disl_type] that is neither ['edge'] nor ['screw'], the surface
    is fitted and remapped, and [construct_gsf] then ends on the local
    variable [use_axis], which no branch has bound. *)
Theorem other_disl_type_is_unbound (fg : fit_gsf) (self : PNSim)
    (gsf_file gsf_grid units dimensions : pyval) (shape : list Z)
    (x_length y_length angle has_vacuum map_ux map_uy gamma_shift : pyval)
    (disl_type base_func temp_gsf : pyval) :
  lookup2 (sim self) "control" "gsf_file" = Ok gsf_file ->
  read_numerical_gsf fg gsf_file = Ok (shape, gsf_grid, units) ->
  getitem shape (-1) = Ok 3 ->
  lookup2 (sim self) "control" "dimensions" = Ok dimensions ->
  eq_int dimensions 2 = Ok false -> eq_int dimensions 1 = Ok true ->
  lookup2 (sim self) "surface" "x_length" = Ok x_length ->
  lookup2 (sim self) "surface" "y_length" = Ok y_length ->
  lookup2 (sim self) "surface" "angle" = Ok angle ->
  lookup2 (sim self) "surface" "has_vacuum" = Ok has_vacuum ->
  fit fg Spline_fit2d
      [gsf_grid; x_length; y_length; angle; units; has_vacuum; VBool false]
  = Ok base_func ->
  lookup2 (sim self) "surface" "map_ux" = Ok map_ux ->
  lookup2 (sim self) "surface" "map_uy" = Ok map_uy ->
  fit fg New_gsf [base_func; map_ux; map_uy] = Ok temp_gsf ->
  lookup2 (sim self) "control" "disl_type" = Ok disl_type ->
  eq_str disl_type "edge" = Ok false -> eq_str disl_type "screw" = Ok false ->
  lookup2 (sim self) "surface" "gamma_shift" = Ok gamma_shift ->
  construct_gsf fg self []
  = (Raise (unbound "use_axis"), [Read_numerical_gsf; Spline_fit2d; New_gsf]).
Proof.
  intros Hfile Hread Hcols Hdim H2 H1 Hx Hy Hangle Hvac Hfit Hux Huy Hnew
         Htype Hedge Hscrew Hshift.
  unfold construct_gsf, spline_args, control, surf, lift, called, mbind,
    traced_bind.
  rewrite Hfile, Hread, Hcols. cbn [app sim].
  change (3 =? 2) with false. change (3 =? 3) with true. cbv iota.
  rewrite Hdim, H2, H1, Hx, Hy, Hangle, Hvac. cbn [app].
  rewrite Hfit, Hux, Huy, Hnew, Htype, Hedge, Hscrew, Hshift. reflexivity.
Qed.

(** The card [disl_type] given as ['mixed']. *)
Lemma other_disl_type_is_unbound_witness :
  let fg := FitGsf (fun _ => Ok ([25; 3], VObject "grid", VStr "eV"))
                   (fun _ _ => Ok (VObject "fit")) in
  let self :=
    MkPNSim {[ "control" := {[ "gsf_file" := VStr "gsf.dat";
                               "dimensions" := VInt 1;
                               "disl_type" := VStr "mixed" ]};
               "surface" := {[ "x_length" := VFloat F.one;
                               "y_length" := VFloat F.one;
                               "angle" := VFloat half_pi;
                               "has_vacuum" := VBool false;
                               "map_ux" := VStr "ux";
                               "map_uy" := VStr "uy";
                               "gamma_shift" := VFloat F.zero ]} ]}
            None None in
  construct_gsf fg self []
  = (Raise (unbound "use_axis"), [Read_numerical_gsf; Spline_fit2d; New_gsf]).
Proof.
  intros fg self.
  apply (other_disl_type_is_unbound fg self (VStr "gsf.dat") (VObject "grid")
           (VStr "eV") (VInt 1) [25; 3] (VFloat F.one) (VFloat F.one)
           (VFloat half_pi) (VBool false) (VStr "ux") (VStr "uy")
           (VFloat F.zero) (VStr "mixed") (VObject "fit") (VObject "fit"));
    reflexivity.
Defined.

(** ** The atoms to replace *)

Lemma apply_constraints_false cs a : apply_constraints cs a false = false.
Proof.
  unfold apply_constraints. induction cs as [|c cs IH]; [reflexivity|].
  cbn [fold_left]. destruct (negb (c a)); exact IH.
Qed.

Lemma apply_constraints_all cs a :
  apply_constraints cs a true = forallb (fun c : constraint => c a) cs.
Proof.
  induction cs as [|c cs IH]; [reflexivity|].
  unfold apply_constraints in *. cbn [fold_left forallb].
  destruct (c a); cbn [negb andb]; [exact IH|].
  apply (apply_constraints_false cs a).
Qed.

(** One pass of the loop: the index is appended when the atom is to be
    replaced. *)
Lemma replace_body_returns site midpoint eps height constraints acc i a acc' :
  replace_body site midpoint eps height constraints acc (i, a) = Ok acc' ->
  acc' = if to_replace site midpoint eps height constraints a
         then acc ++ [i] else acc.
Proof.
  unfold replace_body, to_replace, on_plane.
  destruct (String.eqb (getSpecies a) site); cbn [andb];
    [|cbn [mbind result_bind]; intros [= <-]; reflexivity].
  destruct (getitem (getCoordinates a) (-1)) as [z|e]; [|discriminate].
  cbn [mbind result_bind].
  destruct (F.ltb (neg eps) (F.sub z midpoint)
            && F.ltb (F.sub z midpoint) (F.add eps height)); cbn [andb];
    [|cbn [mbind result_bind]; intros [= <-]; reflexivity].
  destruct constraints as [[|c cs]|];
    cbn [default from_option id forallb mbind result_bind];
    try (intros [= <-]; reflexivity).
  rewrite apply_constraints_all. cbn [forallb].
  destruct (c a && forallb (fun c0 : constraint => c0 a) cs);
    intros [= <-]; reflexivity.
Qed.

Lemma replace_loop site midpoint eps height constraints atoms : forall k acc acc',
  for_each (replace_body site midpoint eps height constraints)
           (zip (seqZ k (Z.of_nat (length atoms))) atoms) acc = Ok acc' ->
  acc' = acc ++ List.map fst
                  (List.filter (fun e : Z * atom =>
                                  to_replace site midpoint eps height constraints e.2)
                               (zip (seqZ k (Z.of_nat (length atoms))) atoms)).
Proof.
  induction atoms as [|a atoms IH]; intros k acc acc' H.
  - injection H as <-. cbn. rewrite app_nil_r. reflexivity.
  - cbn [length] in H |- *. rewrite seqZ_cons in H |- * by lia.
    replace (Z.pred (Z.of_nat (S (length atoms)))) with (Z.of_nat (length atoms))
      in H |- * by lia.
    cbn [zip zip_with] in H |- *. rewrite for_each_cons in H.
    apply bind_Ok in H. destruct H as [acc1 [H1 H]].
    apply replace_body_returns in H1. apply IH in H. subst acc' acc1.
    cbn [List.filter snd].
    destruct (to_replace site midpoint eps height constraints a).
    + cbn [List.map fst]. rewrite <- app_assoc. reflexivity.
    + reflexivity.
Qed.

Lemma in_enumerated (atoms : list atom) : forall k i a,
  In (i, a) (zip (seqZ k (Z.of_nat (length atoms))) atoms)
  <-> k <= i /\ atoms !! Z.to_nat (i - k) = Some a.
Proof.
  induction atoms as [|b atoms IH]; intros k i a.
  - cbn. split; [contradiction|]. intros [_ H]. discriminate H.
  - cbn [length]. rewrite seqZ_cons by lia.
    replace (Z.pred (Z.of_nat (S (length atoms)))) with (Z.of_nat (length atoms))
      by lia.
    cbn [zip zip_with In]. rewrite IH. split.
    + intros [[= <- <-]|[Hk Ha]].
      * split; [lia|]. replace (k - k) with 0 by lia. reflexivity.
      * split; [lia|].
        replace (Z.to_nat (i - k)) with (S (Z.to_nat (i - Z.succ k))) by lia.
        exact Ha.
    + intros [Hk Ha]. destruct (Z.eq_dec i k) as [->|Hne].
      * left. replace (k - k) with 0 in Ha by lia. simpl in Ha. congruence.
      * right. split; [lia|].
        replace (Z.to_nat (i - k)) with (S (Z.to_nat (i - Z.succ k))) in Ha by lia.
        exact Ha.
Qed.

Lemma replaced_ascending (P : atom -> bool) (atoms : list atom) : forall k,
  StronglySorted Z.lt
    (List.map fst (List.filter (fun e : Z * atom => P e.2)
                               (zip (seqZ k (Z.of_nat (length atoms))) atoms)))
  /\ Forall (fun i => k <= i)
       (List.map fst (List.filter (fun e : Z * atom => P e.2)
                                  (zip (seqZ k (Z.of_nat (length atoms))) atoms))).
Proof.
  induction atoms as [|a atoms IH]; intros k.
  - cbn. split; constructor.
  - cbn [length]. rewrite seqZ_cons by lia.
    replace (Z.pred (Z.of_nat (S (length atoms)))) with (Z.of_nat (length atoms))
      by lia.
    cbn [zip zip_with List.filter snd].
    destruct (IH (Z.succ k)) as [Hsorted Hall].
    assert (Hall' : Forall (fun i => k <= i)
              (List.map fst
                 (List.filter (fun e : Z * atom => P e.2)
                    (zip (seqZ (Z.succ k) (Z.of_nat (length atoms))) atoms)))).
    { eapply Forall_impl; [exact Hall|]. cbn. intros i Hi. lia. }
    destruct (P a); [|split; assumption].
    cbn [List.map fst]. split.
    + constructor; [exact Hsorted|].
      eapply Forall_impl; [exact Hall|]. cbn. intros i Hi. lia.
    + constructor; [lia|exact Hall'].
Qed.

(** Property X20.  When [replace_at_plane] returns, its list holds, in
    ascending order and once each, the indices of the atoms of the slab
    that have the species of the site of the impurity, lie on the plane
    ([-eps < z - midpoint < eps + height], [z] the last coordinate) and
    pass every constraint; no other index is in it. *)
Theorem replace_at_plane_indices (c_norm : float) (slab_cell : list atom)
    (site : string) (plane vacuum : float)
    (constraints : option (list constraint)) (eps height : float)
    (to_substitute : list Z) :
  replace_at_plane c_norm slab_cell site plane vacuum constraints eps height
  = Ok to_substitute ->
  StronglySorted Z.lt to_substitute
  /\ forall i,
       In i to_substitute
       <-> exists a,
             0 <= i /\ slab_cell !! Z.to_nat i = Some a
             /\ to_replace site (F.mul plane (F.div (F.sub c_norm vacuum) c_norm))
                           eps height constraints a = true.
Proof.
  unfold replace_at_plane, enumerate. intros H.
  apply replace_loop in H. cbn [app] in H. subst to_substitute. split.
  - apply (replaced_ascending
             (to_replace site (F.mul plane (F.div (F.sub c_norm vacuum) c_norm))
                         eps height constraints) slab_cell 0).
  - intros i. rewrite in_map_iff. split.
    + intros [[i' a] [Hi Hin]]. cbn [fst] in Hi. subst i'.
      apply filter_In in Hin. destruct Hin as [Hin Ha].
      apply in_enumerated in Hin. destruct Hin as [Hi Hin].
      replace (i - 0) with i in Hin by lia. exists a. auto.
    + intros (a & Hi & Hin & Ha). exists (i, a). split; [reflexivity|].
      apply filter_In. split; [|exact Ha].
      apply in_enumerated. split; [exact Hi|].
      replace (i - 0) with i by lia. exact Hin.
Qed.

(** A slab of three atoms, the second and the third of the species to
    replace, the third off the plane. *)
Lemma replace_at_plane_indices_witness :
  let slab_cell := [ Atom "O" [F.zero; F.zero; F.half];
                     Atom "Mg" [F.zero; F.zero; F.half];
                     Atom "Mg" [F.zero; F.zero; F.of_Z 2] ] in
  exists to_substitute,
    replace_at_plane (F.of_Z 10) slab_cell "Mg" F.half F.zero None F.half F.zero
    = Ok to_substitute
    /\ In 1 to_substitute /\ ~ In 2 to_substitute.
Proof.
  intros slab_cell.
  destruct (replace_at_plane (F.of_Z 10) slab_cell "Mg" F.half F.zero None
                             F.half F.zero) as [to_substitute|e] eqn:H.
  - exists to_substitute. split; [reflexivity|].
    destruct (replace_at_plane_indices _ _ _ _ _ _ _ _ _ H) as [_ Hin]. split.
    + apply Hin. exists (Atom "Mg" [F.zero; F.zero; F.half]).
      split; [lia|]. split; vm_compute; reflexivity.
    + intros H2. apply Hin in H2. destruct H2 as (a & _ & Ha & Hrep).
      injection Ha as <-. vm_compute in Hrep. discriminate Hrep.
  - vm_compute in H. discriminate H.
Defined.

(** ** An impurity that stays in the slab *)

Section Impure.

Context {A : Type}.
Variable switchOutputMode : A -> result A.
Variable site_location : list A -> A -> result (list A).
Variable gamma_surface : list A -> pyval -> result unit.
Variable format2 : string -> pyval -> result pyval.

(** Property X21.  [impure_faults] never returns: the name [index], of
    which the base name of the input files is made, is bound nowhere, and
    the call that would write the files ends on a [NameError] before it is
    made.  When the steps before it return, the objects are left as these
    steps made them: the site switched to the other output mode and the
    atoms of the impurity at the end of the slab. *)
Theorem impure_faults_never_returns (site : Z) (prefix : string)
    (o : objects A) :
  is_Ok (impure_faults switchOutputMode site_location gamma_surface format2
                       site prefix o).1 = false
  /\ forall a a' atoms,
       0 <= site < Z.of_nat (length (slab_cell o)) ->
       slab_cell o !! Z.to_nat site = Some a ->
       switchOutputMode a = Ok a' ->
       site_location (impurity o) a' = Ok atoms ->
       impure_faults switchOutputMode site_location gamma_surface format2
                     site prefix o
       = (Raise (NameError "index"),
          Objects (<[Z.to_nat site := a']> (slab_cell o) ++ atoms) atoms).
Proof.
  split.
  - unfold impure_faults, switch_site, update, evaluate, mbind, stateful_bind.
    destruct (result_bind _ _ _ (getitem (slab_cell o) site)) as [o1|e];
      [|reflexivity].
    destruct (result_bind _ _ _ (getitem (slab_cell o1) site)) as [o2|e];
      reflexivity.
  - intros a a' atoms Hsite Ha Hswitch Hlocate.
    assert (Hget : getitem (slab_cell o) site = Ok a).
    { unfold getitem, norm_index.
      replace (0 <=? site) with true by (symmetry; apply Z.leb_le; lia).
      replace (site <? Z.of_nat (length (slab_cell o))) with true
        by (symmetry; apply Z.ltb_lt; lia).
      cbn [andb mbind result_bind]. rewrite Ha. reflexivity. }
    assert (Hget' : getitem (<[Z.to_nat site := a']> (slab_cell o)) site = Ok a').
    { unfold getitem, norm_index. rewrite length_insert.
      replace (0 <=? site) with true by (symmetry; apply Z.leb_le; lia).
      replace (site <? Z.of_nat (length (slab_cell o))) with true
        by (symmetry; apply Z.ltb_lt; lia).
      cbn [andb mbind result_bind].
      rewrite list_lookup_insert_eq by lia. reflexivity. }
    unfold impure_faults, switch_site, update, evaluate, mbind at 1 2 3 4,
      stateful_bind.
    rewrite Hget. cbn [mbind result_bind]. rewrite Hswitch.
    cbn [mbind result_bind]. rewrite (setitem_in_range _ _ _ Hsite).
    cbn [mbind result_bind slab_cell impurity].
    rewrite Hget'. cbn [mbind result_bind]. rewrite Hlocate. reflexivity.
Qed.

End Impure.

(** A slab of two atoms and an impurity of one; the output mode of an atom
    is a boolean. *)
Lemma impure_faults_never_returns_witness :
  impure_faults (fun a : bool => Ok (negb a)) (fun atoms _ => Ok atoms)
                (fun _ _ => Ok tt) (fun _ v => Ok v) 1 "gsf"
                (Objects [true; true] [false])
  = (Raise (NameError "index"), Objects [true; false; false] [false]).
Proof.
  apply (proj2 (impure_faults_never_returns (fun a : bool => Ok (negb a))
                  (fun atoms _ => Ok atoms) (fun _ _ => Ok tt) (fun _ v => Ok v)
                  1 "gsf" (Objects [true; true] [false])) true false [false]);
    try reflexivity.
  simpl. lia.
Defined.

(** ** The lines of a file *)

Lemma lstrip_idempotent s : Py27.lstrip (Py27.lstrip s) = Py27.lstrip s.
Proof.
  induction s as [|c s IH]; [reflexivity|]. cbn [Py27.lstrip].
  destruct (space c) eqn:Hc; [exact IH|]. cbn [Py27.lstrip]. rewrite Hc.
  reflexivity.
Qed.

Lemma every_lstrip cls s :
  every cls s = true -> every cls (Py27.lstrip s) = true.
Proof.
  induction s as [|c s IH]; [reflexivity|]. cbn [every Py27.lstrip].
  intros H. destruct (space c); [|exact H].
  apply andb_prop in H. apply IH, H.
Qed.

Lemma rstrip_idempotent s : rstrip (rstrip s) = rstrip s.
Proof.
  unfold rstrip. rewrite reverse_involutive, lstrip_idempotent. reflexivity.
Qed.

Lemma rstrip_newline s : rstrip (s ++ String newline "") = rstrip s.
Proof. unfold rstrip. rewrite reverse_snoc. reflexivity. Qed.

Lemma every_rstrip cls s : every cls s = true -> every cls (rstrip s) = true.
Proof.
  intros H. unfold rstrip. rewrite every_reverse. apply every_lstrip.
  rewrite every_reverse. exact H.
Qed.

(** Each line of a file is free of newlines up to its end. *)
Lemma file_lines_bodies text : forall current,
  every no_newline current = true ->
  Forall (fun line => exists body,
            every no_newline body = true
            /\ (line = (body ++ String newline "")%string \/ line = body))
         (file_lines_from current text).
Proof.
  induction text as [|c text IH]; intros current Hcur.
  - cbn [file_lines_from]. destruct current; constructor; [|constructor].
    eexists. split; [exact Hcur|]. right. reflexivity.
  - cbn [file_lines_from]. destruct (Ascii.eqb c newline) eqn:Hc.
    + constructor; [|apply IH; reflexivity].
      exists current. split; [exact Hcur|]. left. reflexivity.
    + apply IH. rewrite every_app, Hcur. cbn [every andb].
      unfold no_newline. rewrite Hc. reflexivity.
Qed.

Lemma kept_lines ls : forall acc,
  fold_left keep_line ls acc
  = acc ++ List.filter (fun t => negb (String.eqb t "")) (List.map rstrip ls).
Proof.
  induction ls as [|l ls IH]; intros acc.
  - cbn. rewrite app_nil_r. reflexivity.
  - cbn [fold_left List.map List.filter]. rewrite IH. unfold keep_line.
    destruct (String.eqb (rstrip l) ""); cbn [negb]; [reflexivity|].
    rewrite <- app_assoc. reflexivity.
Qed.

Lemma read_lines_clean text :
  Forall clean (fold_left keep_line (file_lines text) []).
Proof.
  rewrite kept_lines. cbn [app]. apply List.Forall_forall. intros t Ht.
  apply filter_In in Ht. destruct Ht as [Ht Hne].
  apply in_map_iff in Ht. destruct Ht as [line [<- Hline]].
  pose proof (file_lines_bodies text "" eq_refl) as Hall.
  rewrite List.Forall_forall in Hall. destruct (Hall line Hline) as [body [Hbody Hl]].
  split; [|split].
  - intros E. rewrite E in Hne. discriminate Hne.
  - destruct Hl as [-> | ->].
    + rewrite rstrip_newline. apply every_rstrip, Hbody.
    + apply every_rstrip, Hbody.
  - apply rstrip_idempotent.
Qed.

(** Property X22.  The lines [read_file] returns are never empty, hold no
    newline and do not end in white space. *)
Theorem read_file_lines_are_clean (fs : string -> option string)
    (filename path : string) (lines : list string) :
  read_file fs filename path false = Ok (Lines lines) -> Forall clean lines.
Proof.
  unfold read_file. destruct (fs _) as [text|]; [|discriminate].
  intros [= <-]. apply read_lines_clean.
Qed.

Lemma stitch_from ls : forall acc,
  fold_left (fun all_lines line => (all_lines ++ line ++ String newline "")%string)
            ls acc
  = (acc ++ stitch ls)%string.
Proof.
  unfold stitch. induction ls as [|l ls IH]; intros acc.
  - cbn [fold_left]. rewrite string_app_nil_r. reflexivity.
  - cbn [fold_left]. rewrite IH, (IH ("" ++ l ++ String newline "")%string).
    rewrite string_app_nil_l, !string_app_assoc. reflexivity.
Qed.

Lemma stitch_cons l ls :
  stitch (l :: ls) = (l ++ String newline (stitch ls))%string.
Proof.
  unfold stitch at 1. cbn [fold_left]. rewrite stitch_from.
  rewrite string_app_nil_l, string_app_assoc. reflexivity.
Qed.

Lemma file_lines_line l rest : forall current,
  every no_newline l = true ->
  file_lines_from current (l ++ String newline rest)
  = (current ++ l ++ String newline "")%string :: file_lines_from "" rest.
Proof.
  induction l as [|c l IH]; intros current Hl.
  - rewrite !string_app_nil_l. cbn [file_lines_from].
    change (Ascii.eqb newline newline) with true. reflexivity.
  - cbn [every] in Hl. apply andb_prop in Hl. destruct Hl as [Hc Hl].
    rewrite string_app_cons. cbn [file_lines_from].
    unfold no_newline in Hc. apply negb_true_iff in Hc. rewrite Hc.
    rewrite (IH _ Hl). rewrite !string_app_assoc. reflexivity.
Qed.

Lemma file_lines_stitch ls :
  Forall clean ls ->
  file_lines (stitch ls) = List.map (fun l => (l ++ String newline "")%string) ls.
Proof.
  unfold file_lines. induction 1 as [|l ls (_ & Hl & _) _ IH]; [reflexivity|].
  rewrite stitch_cons, (file_lines_line l _ "" Hl), IH.
  rewrite string_app_nil_l. reflexivity.
Qed.

Lemma read_lines_stitch ls :
  Forall clean ls -> fold_left keep_line (file_lines (stitch ls)) [] = ls.
Proof.
  intros Hls. rewrite (file_lines_stitch ls Hls), kept_lines. cbn [app].
  induction Hls as [|l ls (Hne & _ & Hstrip) _ IH]; [reflexivity|].
  cbn [List.map List.filter]. rewrite rstrip_newline, Hstrip.
  destruct (String.eqb_spec l "") as [E|_]; [contradiction|].
  cbn [negb]. rewrite IH. reflexivity.
Qed.

(** Property X23.  The string [read_file] returns with [return_str] reads
    back as the lines it returns without: a file that holds that string
    gives the lines of the first file. *)
Theorem read_file_reads_back (fs fs' : string -> option string)
    (filename path filename' path' : string) (all_lines : string) :
  read_file fs filename path true = Ok (Text all_lines) ->
  fs' (path' ++ filename')%string = Some all_lines ->
  read_file fs' filename' path' false = read_file fs filename path false.
Proof.
  unfold read_file. destruct (fs _) as [text|]; [|discriminate].
  intros [= <-] ->. rewrite read_lines_stitch by apply read_lines_clean.
  reflexivity.
Qed.

(** A file with a blank line, trailing blanks and no newline at its end. *)
Lemma read_file_lines_are_clean_witness :
  let text := ("&control {  " ++ String newline (String newline "};;"))%string in
  read_file (one_file "./pn.in" text) "pn.in" "./" false
  = Ok (Lines ["&control {"; "};;"])
  /\ Forall clean ["&control {"; "};;"].
Proof.
  intros text.
  assert (H : read_file (one_file "./pn.in" text) "pn.in" "./" false
              = Ok (Lines ["&control {"; "};;"])) by (vm_compute; reflexivity).
  split; [exact H|].
  exact (read_file_lines_are_clean _ _ _ _ H).
Defined.

Lemma read_file_reads_back_witness :
  let text := ("&control {  " ++ String newline (String newline "};;"))%string in
  let copy := ("&control {" ++ String newline ("};;" ++ String newline ""))%string in
  read_file (one_file "./copy.in" copy) "copy.in" "./" false
  = read_file (one_file "./pn.in" text) "pn.in" "./" false.
Proof.
  intros text copy.
  apply (read_file_reads_back (one_file "./pn.in" text)
           (one_file "./copy.in" copy) "pn.in" "./" "copy.in" "./" copy).
  - vm_compute. reflexivity.
  - reflexivity.
Defined.

(** ** The energy of a repaired cell *)

Lemma neighbours_summed x_max y_max (cur : list (list float)) E sigs :
  shaped x_max y_max cur -> Forall (within x_max y_max) sigs ->
  forall approx n,
    for_each (neighbour_body cur E) sigs (approx, n)
    = Ok (fold_left F.add (real_among E cur sigs) approx,
          n + Z.of_nat (length (real_among E cur sigs))).
Proof.
  intros Hs Hall. induction Hall as [|s sigs [H1 H2] _ IH]; intros approx n.
  - cbn. f_equal. f_equal. lia.
  - rewrite for_each_cons.
    assert (Hstep : neighbour_body cur E (approx, n) s
                    = Ok (if real E (cell cur s.1 s.2)
                          then (F.add approx (cell cur s.1 s.2), n + 1)
                          else (approx, n))).
    { unfold neighbour_body, real.
      rewrite (getitem2_in_range x_max y_max cur _ _ Hs H1 H2).
      cbn [mbind result_bind]. rewrite neb_self.
      destruct (F.is_nan (cell cur s.1 s.2)); [reflexivity|].
      destruct (F.ltb (cell cur s.1 s.2) (F.sub E F.one)); reflexivity. }
    rewrite Hstep. cbn [mbind result_bind].
    unfold real_among. cbn [List.map List.filter].
    destruct (real E (cell cur s.1 s.2)).
    + rewrite IH. cbn [fold_left length]. unfold real_among.
      f_equal. f_equal. lia.
    + apply IH.
Qed.

(** Property X24.  Where [x_max] and [y_max] are one or more, the repair of
    a cell that holds no real energy gives it the average of the real
    energies among the four cells [((i+1) % x_max, j)], [((i-1) % x_max, j)],
    [(i, (j+1) % y_max)] and [(i, (j-1) % y_max)] of the surface as it is at
    that point, cells repaired before included, or -10000 if none of them
    is real; no other cell changes. *)
Theorem repaired_cell_is_average (x_max y_max : Z) (E_perfect : float)
    (i j : Z) (energies : list (list float)) (out : list event) :
  1 <= x_max -> 1 <= y_max -> shaped x_max y_max energies ->
  0 <= i <= x_max -> 0 <= j <= y_max ->
  real E_perfect (cell energies i j) = false ->
  exists energies' out',
    gamma_surface_cell x_max y_max E_perfect i (energies, out) j
    = Ok (energies', out')
    /\ cell energies' i j
       = repaired_cell E_perfect energies (wrapped_neighbours x_max y_max i j)
    /\ forall i' j', 0 <= i' -> 0 <= j' -> (i', j') <> (i, j) ->
         cell energies' i' j' = cell energies i' j'.
Proof.
  intros Hx Hy Hs Hi Hj Hreal. unfold gamma_surface_cell.
  rewrite (needs_repair_in_range x_max y_max energies E_perfect i j Hs Hi Hj).
  rewrite Hreal. cbn [negb mbind result_bind].
  destruct (signatures_within x_max y_max i j Hx Hy) as [sigs [Hsigs Hw]].
  assert (Hlist : sigs = wrapped_neighbours x_max y_max i j).
  { unfold signatures in Hsigs. rewrite !py_mod_pos in Hsigs by lia.
    cbn [mbind result_bind] in Hsigs. injection Hsigs as <-. reflexivity. }
  rewrite Hsigs. cbn [mbind result_bind].
  rewrite (neighbours_summed x_max y_max energies E_perfect sigs Hs (Hw Hi Hj)).
  cbn [mbind result_bind]. rewrite <- Hlist. unfold repaired_cell. cbv zeta.
  assert (Hframe : forall x,
    cell (<[Z.to_nat i := <[Z.to_nat j := x]> (energies !!! Z.to_nat i)]> energies)
         i j = x
    /\ forall i' j', 0 <= i' -> 0 <= j' -> (i', j') <> (i, j) ->
         cell (<[Z.to_nat i := <[Z.to_nat j := x]> (energies !!! Z.to_nat i)]>
                 energies) i' j'
         = cell energies i' j').
  { intros x. split.
    - rewrite (cell_insert x_max y_max energies i j x i j Hs Hi Hj) by lia.
      rewrite decide_True by reflexivity. reflexivity.
    - intros i' j' Hi' Hj' Hne.
      rewrite (cell_insert x_max y_max energies i j x i' j' Hs Hi Hj Hi' Hj').
      rewrite decide_False by exact Hne. reflexivity. }
  destruct (real_among E_perfect energies sigs) as [|e reals] eqn:Hreals.
  - cbn [length fold_left]. change (0 + Z.of_nat 0 =? 0) with true. cbv iota.
    rewrite (setitem2_in_range x_max y_max energies i j _ Hs Hi Hj).
    cbn [mbind result_bind].
    rewrite (getitem2_in_range x_max y_max _ i j
               (shaped_insert x_max y_max energies i j _ Hs Hi) Hi Hj).
    cbn [mbind result_bind].
    rewrite (getitem2_in_range x_max y_max _ i j
               (shaped_insert x_max y_max energies i j _ Hs Hi) Hi Hj).
    cbn [mbind result_bind]. eexists. eexists. split; [reflexivity|].
    apply Hframe.
  - replace (0 + Z.of_nat (length (e :: reals)))
      with (Z.of_nat (length (e :: reals))) by lia.
    replace (Z.of_nat (length (e :: reals)) =? 0) with false
      by (symmetry; apply Z.eqb_neq; cbn [length]; lia).
    rewrite (setitem2_in_range x_max y_max energies i j _ Hs Hi Hj).
    cbn [mbind result_bind].
    rewrite (getitem2_in_range x_max y_max _ i j
               (shaped_insert x_max y_max energies i j _ Hs Hi) Hi Hj).
    cbn [mbind result_bind].
    rewrite (getitem2_in_range x_max y_max _ i j
               (shaped_insert x_max y_max energies i j _ Hs Hi) Hi Hj).
    cbn [mbind result_bind]. eexists. eexists. split; [reflexivity|].
    apply Hframe.
Qed.

(** The invalid cell of a surface of three rows and three columns: the
    neighbours wrap at 2, so that rows 0 and columns 0 are read twice. *)
Lemma repaired_cell_is_average_witness :
  let o := F.zero in
  let energies := [ [o; o; o]; [o; F.nan; F.of_Z 6]; [o; F.of_Z 6; o] ] in
  exists energies' out',
    gamma_surface_cell 2 2 o 1 (energies, []) 1 = Ok (energies', out')
    /\ cell energies' 1 1 = F.zero.
Proof.
  intros o energies.
  destruct (repaired_cell_is_average 2 2 o 1 1 energies [])
    as (energies' & out' & Hrun & Hcell & _); try lia.
  - split; [reflexivity|]. repeat constructor.
  - reflexivity.
  - exists energies', out'. split; [exact Hrun|]. rewrite Hcell.
    vm_compute. reflexivity.
Defined.

(** ** The two files of a recorded disregistry *)

Section Record.

Variables r ux rho : list float.
Hypothesis ux_length : (length r <= length ux)%nat.
Hypothesis rho_length : (length r - 1 <= length rho)%nat.

Lemma record_from m : forall k us rhos,
  (k + m = length r)%nat ->
  for_each (record_body r ux rho) (seqZ (Z.of_nat k) (Z.of_nat m)) (us, rhos)
  = Ok (us ++ List.map (disregistry_line r ux) (List.seq k m),
        rhos ++ List.map (density_line r rho) (List.seq (k - 1) (m - (1 - k)))).
Proof.
  induction m as [|m IH]; intros k us rhos Hk.
  - cbn. rewrite !app_nil_r. reflexivity.
  - rewrite seqZ_cons by lia.
    replace (Z.pred (Z.of_nat (S m))) with (Z.of_nat m) by lia.
    replace (Z.succ (Z.of_nat k)) with (Z.of_nat (S k)) by lia.
    rewrite for_each_cons.
    assert (Hstep : record_body r ux rho (us, rhos) (Z.of_nat k)
                    = Ok (us ++ [disregistry_line r ux k],
                          rhos ++ match k with
                                  | O => []
                                  | S k' => [density_line r rho k']
                                  end)).
    { unfold record_body, disregistry_line, density_line.
      rewrite (getitem_in_range r (Z.of_nat k)) by lia.
      cbn [mbind result_bind].
      rewrite (getitem_in_range ux (Z.of_nat k)) by lia.
      cbn [mbind result_bind].
      rewrite Nat2Z.id. destruct k as [|k'].
      - cbn [Z.of_nat Z.eqb negb]. rewrite app_nil_r. reflexivity.
      - replace (Z.of_nat (S k') =? 0) with false
          by (symmetry; apply Z.eqb_neq; lia).
        cbn [negb mbind result_bind].
        rewrite (getitem_in_range r (Z.of_nat (S k') - 1)) by lia.
        cbn [mbind result_bind].
        rewrite (getitem_in_range rho (Z.of_nat (S k') - 1)) by lia.
        cbn [mbind result_bind].
        replace (Z.to_nat (Z.of_nat (S k') - 1)) with k' by lia.
        reflexivity. }
    rewrite Hstep. cbn [mbind result_bind]. rewrite (IH (S k)) by lia.
    f_equal. f_equal.
    + cbn [List.seq List.map]. rewrite <- app_assoc. reflexivity.
    + destruct k as [|k'].
      * rewrite app_nil_r. cbn [Nat.sub]. rewrite !Nat.sub_0_r. reflexivity.
      * rewrite <- app_assoc. f_equal.
        replace (S m - (1 - S k'))%nat with (S (m - (1 - S (S k'))))%nat by lia.
        replace (S k' - 1)%nat with k' by lia.
        replace (S (S k') - 1)%nat with (S k') by lia.
        reflexivity.
Qed.

(** Property X25.  When the disregistry and the density are as long as
    they must be, the record of a one-dimensional disregistry holds one
    line for each lattice point, with the disregistry there, and the
    record of the density one line fewer: one for each pair of lattice
    points that follow each other, at the middle of the two. *)
Theorem record_has_all_lines :
  record_disregistry r ux rho
  = Ok (List.map (disregistry_line r ux) (List.seq 0 (length r)),
        List.map (density_line r rho) (List.seq 0 (length r - 1))).
Proof.
  unfold record_disregistry, range.
  change 0 with (Z.of_nat 0). rewrite (record_from (length r) 0 [] []) by lia.
  cbn [app Nat.sub]. reflexivity.
Qed.

End Record.

(** Three lattice points. *)
Lemma record_has_all_lines_witness :
  let r := [F.of_Z (-2); F.zero; F.of_Z 2] in
  let ux := [F.zero; F.one; F.of_Z 2] in
  let rho := [F.half; F.half] in
  record_disregistry r ux rho
  = Ok ([(F.of_Z (-2), F.zero); (F.zero, F.one); (F.of_Z 2, F.of_Z 2)],
        [(F.of_Z (-1), F.half); (F.one, F.half)]).
Proof.
  intros r ux rho.
  etransitivity.
  - apply (record_has_all_lines r ux rho); simpl; lia.
  - vm_compute. reflexivity.
Defined.
